(* ===== verification/_CoqProject ===== *)
-Q . S2P
Prelude.v
Scope.v
Python.v
Dataframe.v
Ui.v
Reactive.v
Schedule.v
Update.v
Server.v
App.v
Session.v
Process.v
Interleave.v
