(* ===== verification/Prelude.v ===== *)
(** * A verification library for the penguin dashboard ([src/app.py])

    ** The program

    [src/app.py] is a Shiny-for-Python dashboard over the Palmer penguins
    table.  At import it loads the table (line 9), builds the page
    [app_ui] (lines 12-39: four input widgets and five output
    placeholders), defines [server] (lines 42-104) and hands both to
    [App] (line 119).  For each session the framework calls [server],
    which registers one cached calculation, [filtered_data] (the rows
    whose species is ticked), and five output functions that call it: two
    tables, a plotly histogram, a seaborn histogram and a plotly
    scatterplot.  The client sends [(id, value)] messages when a widget
    changes; the reactive engine of the framework re-executes the outputs
    that read what changed.  Lines 105-117 define two more render
    functions at module level, outside [server].

    ** The files, in dependency order

    - [Prelude] (this file): what the components share.  Python
      exceptions ([exn]) and fallible results ([result]); the monad [rx]
      in which the reactive functions are written, a free monad over the
      events a function performs (a read [input.<id>()], a call of a
      calc, a library call made for its effect) with [Raise] for an
      exception; its interpreter [interp] over
      a handler; observational equivalence [rx_equiv] and the monad laws;
      lemmas on filters, boolean masks, sublists and counting; the
      tactics of the development, the rewrite database [rx] and the
      hint database [engine].
    - [Scope]: every statement of the file (lines 1-119) reduced to the
      names it loads and binds ([app_py]), and Python's resolution rule
      ([load], [exec], [call], [call_all]).  Theorems: importing the
      module raises no [NameError]; neither does a call of [server] nor
      of any function it defines; a call of either module-level render
      function (lines 105-117) does, because [filtered_data] is a local
      of [server] (the claim is stated in [App], with the page);
      resolution raises nothing but [NameError] and is monotone in the
      visible names.
    - [Python]: the numbers a numeric widget delivers and the builtin
      [int] of lines 67 and 82 ([py_int]): [TypeError] on [None],
      truncation toward zero on a float, with its bounds.
    - [Dataframe]: the table as a list of rows ([penguin]) and line 47 as
      the three pandas operations it performs ([getitem_col], [isin],
      [getitem_mask], composed in [where_isin]) with their exceptions.
      Theorems: on the species column the pipeline never raises and is
      the Filter Stage's contract [filtered] (exactness, order,
      idempotence, empty and full selection, the published row counts);
      an unknown label raises [KeyError].
    - [Ui]: [app_ui] as a tree of tags ([ui.tag], one constructor per
      function of [shiny.ui] the source calls, with the arguments it
      passes); what each widget starts with ([initial_value]) and can
      send ([accepts]).  Theorems: a well-formed page starts every
      input with a value its widget can send, and the page of the
      program is well formed.
    - [Reactive]: the engine the program relies on, generic in the graph
      it runs: reference semantics with no cache ([run_calc],
      [eval_out]) and the library calls an execution makes for their
      effect ([out_effects]); the engine proper ([session], [set_input],
      [run_output], [flush]) with dependency tracking while a function
      runs, a calc cache, pending outputs, execution counters and the
      log of the executions made ([log]); the invariant [coherent].
      Theorems: every step keeps [coherent]; after a flush every
      registered output shows its reference value on the current inputs,
      whatever the history; a write makes pending exactly the outputs
      that depend on the written input; counters of executed outputs and
      calc bodies; an execution logs the effects and the outcome the
      reference semantics gives it.
    - [Schedule]: the flush as a relation, [run_step], that executes
      any one pending output, where [Reactive.flush] takes them in
      registration order; the measure [backlog]; the equivalence of
      sessions [session_equiv]; and the specification [ran] of a partial
      flush.  Theorems: every schedule terminates, in as many steps as
      outputs are pending; every schedule implements [ran], which
      determines the session up to equivalence, so all schedules that
      run to their end agree with the flush in registration order.
    - [Update]: client messages with several values ([write_all],
      [receive]) and writes that are skipped when the value is unchanged
      ([set_input_changed], [write_all_changed]).  Theorems: a batch
      makes pending exactly the outputs that depend on an input it writes
      and drops exactly the calcs that read one; the engine that skips
      and the engine that does not stay related ([skips]) write after
      write, so that they show the same after the flush and the one that
      skips executes no more.
    - [Server]: [server] of lines 42-104: the inputs with the Python type
      of each, the calc and the five output functions, each under its
      name in the source and statement by statement in [rx]; the
      artifacts they return (a chart is the record of the library call
      that builds it, a matplotlib figure the state its axes are left
      in); [plt.subplots()] as an effect, with the figures an execution
      opens and returns ([figures_opened], [figures_returned]); the
      Render Stage's contract [render].  Theorems: every function
      computes [render] on every branch, errors included; what each
      output depends on; which outputs raise, and when; artifacts have
      the kind their renderer accepts and present the filtered view; an
      empty selection is rendered like any other; a figure is left
      behind exactly when [int(bins)] raises after line 78.
    - [App]: [App(app_ui, server)] of line 119: decoding of client
      messages ([decode]), the sessions a user drives through the page
      as a step relation ([app_step], [app_reachable]) and as an
      executable replay of the user's actions ([play]).  Theorems: the
      page and the server fit (every message a widget can send is an
      input the server reads, at its type; the placeholders are the
      registered outputs; the graph agrees with the text of the source
      in [Scope]; values survive the trip to the client and back); the
      module-level render functions are dead code (a call raises
      [NameError], and nothing registers or shows them); the step
      relation and the replay describe the same sessions; the invariant
      of reachable states;
      after a flush every placeholder shows [render] of the current
      inputs; only the plotly histogram can show an exception, exactly
      when its field is empty; the seaborn bin count stays within 0..100
      and can be 0, the plotly bin count can be any integer; no figure
      that [plt.subplots()] opens is left behind; writes to
      unrelated inputs do not re-execute an output; [filtered_data] runs
      once per change of the selection.
    - [Session]: the three above at [server]: the handler of a client
      message ([handle_update], and [handle_update_changed] for an
      engine that skips unchanged values), which stores what arrives
      without checking it against the page ([decode_write]; the
      messages the page can send are [page_message]), the steps of a
      flush ([executes]), and the theorems of a session at work:
      termination of the flush (no more than five executions), liveness
      (every pending output is eventually shown, with the Render Stage's
      value), the order of the flush cannot be observed, a message with
      several values executes each dependent output once, and a write of
      an unchanged value cannot be observed.
    - [Process]: the process that serves the application: the table
      loaded at the start ([start], line 9) and one session per
      connected client ([connect], [handle], [serve]); a client served
      alone ([replay]); and the specification [dashboard]: what each
      client is shown, as a function of its own messages.  Theorems:
      sessions do not interfere (the session of a client in any
      interleaving of requests is its session served alone) and no
      request changes the table; the process implements the dashboard,
      whatever the clients send, and a client whose own messages are the
      page's has a session of [App], whatever the others send; the page
      is the only validation (a client that bypasses it reaches any
      store, and can be shown the [TypeError] of the seaborn histogram,
      which no session of [App] shows).
    - [Interleave]: the process step by step ([proc_step]): a request
      arrives, or one pending output of one session is executed, in any
      interleaving; messages may arrive in mid-flush.  Theorems: in every
      run each output that is not pending shows the dashboard's value,
      and every client can be brought up to date by executing what it
      has pending; the service of [Process] is one of the runs; the
      session of a client that keeps to the page leaves no figure
      behind, whatever the others send.

    ** Interfaces

    The engine reads and writes the session's inputs through the class
    [InputStore] only ([Reactive]); [Server] provides the instance
    [inputs_store], and the engine's theorems are proved against the
    class.  The engine is parametrised by a [graph]; [server] is the
    graph of this program, and the theorems of [App] instantiate the
    engine's at it.  The files that prove that an operation keeps a
    session coherent or reachable add the lemma to the hint database
    [engine]; the files that use the engine discharge these side
    conditions with [engine_auto].

    ** Conventions

    Every definition that translates code names the lines of
    [src/app.py] it translates in its comment.  Each theorem that has a
    hypothesis is applied at a concrete input in a lemma named
    [<theorem>_witness]; the concrete inputs are [sample_df] and
    [published_counts_df] ([Dataframe]), [example_inputs] ([Server]),
    the session [demo_session] ([App]), the partly flushed sessions
    [demo_started] and [demo_reversed] ([Session]) and the requests of
    two clients [demo_requests] ([Process]) and their interleaved run
    [demo_actions] ([Interleave]).  All definitions are executable: the
    examples run the engine by [vm_compute].

    ** Bounds and fuel

    None is needed.  The reactive functions are straight-line code, so
    [rx] is an inductive tree and [interp] is structural; a flush in
    registration order is a fold over the registered outputs, and the
    flush in any order is shown to terminate by the measure [backlog],
    which is at most five for this program; [exec] is structural in the
    statement; the process is a fold over the requests that have
    arrived, of any length.  Python's [int] is unbounded and is [Z]; a
    finite float is a rational in canonical form.

    ** What is not modelled

    - The plotting libraries and the HTML rendering of tables, charts
      and the page: the model records the calls and their arguments, not
      what is drawn, so nothing is claimed about how a library treats an
      empty table, zero bins or a negative bin count.  Of pyplot's state
      the model has the call that opens a figure and whether the figure
      is returned; what the renderer does with a figure it is given
      (drawing it, closing it) is the framework's.
    - What the loader of line 9 reads and returns: its outcome, a
      table or the exception that aborts the import, is a parameter of
      [start], and the table a parameter of every theorem; only the
      species column is assumed to hold strings.
    - The engine beyond what the program uses: asynchronous execution,
      priorities among outputs and transport are the framework's.  An
      execution of an output is one step: the functions of the program
      do not suspend, so nothing interleaves inside one.  Whether the
      engine invalidates on a write of an unchanged value is left open:
      both behaviours are modelled and shown to display the same.
    - Floats that are not finite ([nan], infinities), which a widget
      does not send.
    - Messages that carry a value of another Python type than the
      widget's (a string for a bin count): the store is typed by
      [input_type], and such a pair is left out.  Values of the right
      type that the widget could not have sent (a bin count out of the
      slider's bounds, a column that is no choice) are modelled: the
      session stores them.
    - What the [with] blocks of lines 105-116 build: only the names
      they load and the functions they define. *)

From stdpp Require Import base tactics option list relations sets fin_maps.

#[local] Set Warnings "-clear-no-such-hyp".

(** ** Python exceptions and fallible results *)

(** The exception classes the modelled code can raise. *)
Inductive exn : Type :=
| TypeError
| KeyError
| ValueError
| NameError
| IndexingError.

#[export] Instance exn_eq_dec : EqDecision exn.
Proof. solve_decision. Defined.

(** The outcome of evaluating a Python expression: a value or an exception. *)
Inductive result (A : Type) : Type :=
| Ok (a : A)
| Err (e : exn).
Arguments Ok {A} a.
Arguments Err {A} e.

#[export] Instance result_eq_dec `{EqDecision A} : EqDecision (result A).
Proof. solve_decision. Defined.

Definition is_ok {A} (r : result A) : bool :=
  match r with Ok _ => true | Err _ => false end.

Definition result_bind {A B} (r : result A) (f : A → result B) : result B :=
  match r with Ok a => f a | Err e => Err e end.

Definition result_map {A B} (f : A → B) (r : result A) : result B :=
  match r with Ok a => Ok (f a) | Err e => Err e end.

(** ** The monad of reactive functions *)

(** A reactive function is a tree: it returns, raises, or performs an event
    [ev : E X] (a read of the reactive graph) and continues with the answer.
    The tree is inductive: the functions modelled are straight-line code. *)
Inductive rx (E : Type → Type) (A : Type) : Type :=
| Ret (a : A)
| Raise (e : exn)
| Vis {X : Type} (ev : E X) (k : X → rx E A).
Arguments Ret {E A} a.
Arguments Raise {E A} e.
Arguments Vis {E A X} ev k.

Fixpoint rx_bind {E A B} (m : rx E A) (f : A → rx E B) : rx E B :=
  match m with
  | Ret a => f a
  | Raise e => Raise e
  | Vis ev k => Vis ev (λ x, rx_bind (k x) f)
  end.

Definition rx_map {E A B} (f : A → B) (m : rx E A) : rx E B :=
  rx_bind m (λ a, Ret (f a)).

(** Perform one event and return its answer. *)
Definition trigger {E X} (ev : E X) : rx E X := Vis ev Ret.

(** A fallible pure computation, run inside a reactive function. *)
Definition lift_result {E A} (r : result A) : rx E A :=
  match r with Ok a => Ret a | Err e => Raise e end.

Declare Scope rx_scope.
Delimit Scope rx_scope with rx.
Bind Scope rx_scope with rx.
Notation "'let!' x ':=' m 'in' k" := (rx_bind m (λ x, k))
  (at level 10, x name, m at level 100, k at level 200) : rx_scope.
Notation "'try!' x ':=' r 'in' k" := (rx_bind (lift_result r) (λ x, k))
  (at level 10, x name, r at level 100, k at level 200) : rx_scope.
Notation "'return!' a" := (Ret a) (at level 10, a at level 9) : rx_scope.

(** ** Interpretation *)

(** A handler answers each event from a state it may change; an answer may
    itself be an exception, which the interpreter propagates. *)
Definition handler (E : Type → Type) (S : Type) : Type :=
  ∀ X, E X → S → S * result X.

Fixpoint interp {E S A} (h : handler E S) (m : rx E A) (s : S) : S * result A :=
  match m with
  | Ret a => (s, Ok a)
  | Raise e => (s, Err e)
  | Vis ev k =>
      match h _ ev s with
      | (s', Ok x) => interp h (k x) s'
      | (s', Err e) => (s', Err e)
      end
  end.

(** Two reactive functions are equivalent when no handler tells them apart. *)
Definition rx_equiv {E A} (m n : rx E A) : Prop :=
  ∀ S (h : handler E S) s, interp h m s = interp h n s.

Infix "≈" := rx_equiv (at level 70, no associativity) : rx_scope.

(** ** Lists: masks, selections, sublists *)

(** Keep the elements of [l] whose position holds [true] in the mask [m];
    positions beyond the shorter of the two are dropped. *)
Fixpoint mask_select {A} (l : list A) (m : list bool) : list A :=
  match l, m with
  | x :: l', b :: m' => if b then x :: mask_select l' m' else mask_select l' m'
  | _, _ => []
  end.

(** Two lists with the same elements: the equivalence under which a
    selection ([isin]'s argument) is read. *)
Definition same_elements {A} (l1 l2 : list A) : Prop := ∀ x, x ∈ l1 ↔ x ∈ l2.

(** Match [l] greedily against [k], left to right. *)
Fixpoint sublistb {A} `{EqDecision A} (l k : list A) : bool :=
  match l, k with
  | [], _ => true
  | _ :: _, [] => false
  | x :: l', y :: k' => if decide (x = y) then sublistb l' k' else sublistb l k'
  end.

(** ** Lemmas on results *)

Lemma is_ok_Ok {A} (r : result A) : is_ok r = true ↔ ∃ a, r = Ok a.
Proof. destruct r; simpl; split; [eauto | done | done | intros [? [=]]]. Qed.

Lemma result_bind_Ok {A B} (r : result A) (f : A → result B) b :
  result_bind r f = Ok b ↔ ∃ a, r = Ok a ∧ f a = Ok b.
Proof.
  destruct r; simpl; split; [eauto | | done | ]; intros (?&?&?); simplify_eq; done.
Qed.

(** ** Lemmas on the interpreter *)

Section interp.
Context {E : Type → Type} {S : Type} (h : handler E S).

Lemma interp_bind {A B} (m : rx E A) (f : A → rx E B) s :
  interp h (rx_bind m f) s =
  match interp h m s with
  | (s', Ok a) => interp h (f a) s'
  | (s', Err e) => (s', Err e)
  end.
Proof.
  revert s; induction m as [a|e|X ev k IH]; intros s; simpl; [done..|].
  destruct (h X ev s) as [s' [x|e]]; auto.
Qed.

Lemma interp_trigger {X} (ev : E X) s : interp h (trigger ev) s = h X ev s.
Proof. simpl. by destruct (h X ev s) as [s' [x|e]]. Qed.

Lemma interp_lift_result {A} (r : result A) s :
  interp h (lift_result r) s = (s, r).
Proof. by destruct r. Qed.

End interp.

Create Rewrite HintDb rx.
#[export] Hint Rewrite @interp_bind @interp_trigger @interp_lift_result : rx.

(** The lemmas by which an operation keeps a session's invariant, or
    keeps a session reachable, are gathered in the database [engine] by
    the files that prove them.  [engine_auto] discharges with them the
    side conditions of the theorems on sessions. *)
Create HintDb engine.

Ltac engine_auto := solve [eauto with engine].

(** ** The monad laws, up to [rx_equiv] *)

#[export] Instance rx_equiv_equivalence {E A} : Equivalence (@rx_equiv E A).
Proof.
  split; [by intros m S h s | by intros m n H S h s |].
  intros m n p H1 H2 S h s. by rewrite H1.
Qed.

#[export] Instance rx_bind_proper {E A B} :
  Proper (rx_equiv ==> pointwise_relation A rx_equiv ==> rx_equiv) (@rx_bind E A B).
Proof.
  intros m n Hmn f g Hfg S h s. rewrite !interp_bind, Hmn.
  destruct (interp h n s) as [s' [a|e]]; [apply Hfg | done].
Qed.

Lemma rx_bind_ret_l {E A B} (a : A) (f : A → rx E B) : rx_bind (Ret a) f = f a.
Proof. done. Qed.

Lemma rx_bind_ret_r {E A} (m : rx E A) : (rx_bind m Ret ≈ m)%rx.
Proof.
  intros S h s. rewrite interp_bind. by destruct (interp h m s) as [s' [a|e]].
Qed.

Lemma rx_bind_assoc {E A B C} (m : rx E A) (f : A → rx E B) (g : B → rx E C) :
  (rx_bind (rx_bind m f) g ≈ rx_bind m (λ a, rx_bind (f a) g))%rx.
Proof.
  intros S h s. rewrite !interp_bind.
  destruct (interp h m s) as [s' [a|e]]; [by rewrite interp_bind | done].
Qed.

Lemma rx_bind_raise {E A B} (e : exn) (f : A → rx E B) : rx_bind (Raise e) f = Raise e.
Proof. done. Qed.

(** ** Tactics *)

(** Split on the outcome of an interpreted subterm or of a result. *)
Ltac case_result :=
  match goal with
  | |- context [match ?r with Ok _ => _ | Err _ => _ end] =>
      let H := fresh "Hr" in destruct r eqn:H
  | |- context [let '(_, _) := ?p in _] =>
      let H := fresh "Hp" in destruct p eqn:H
  end.

(** Push the interpreter through binds, triggers and lifted results. *)
Ltac rx_simpl := autorewrite with rx; simpl.

(** ** Lemmas on filters and boolean masks *)

Section list_filter.
Context {A : Type} (P Q : A → Prop) `{!∀ x, Decision (P x), !∀ x, Decision (Q x)}.

Lemma filter_ext_elem (l : list A) :
  (∀ x, x ∈ l → (P x ↔ Q x)) → filter P l = filter Q l.
Proof.
  induction l as [|x l IH]; intros Hext; [done|].
  rewrite !filter_cons, IH by (intros; apply Hext; by right).
  pose proof (Hext x ltac:(left)) as Hx.
  destruct (decide (P x)), (decide (Q x)); first [done | tauto].
Qed.

Lemma Forall_filter_self (l : list A) : Forall P (filter P l).
Proof. apply Forall_forall. by intros x [? _]%list_elem_of_filter. Qed.

Lemma filter_Forall_id (l : list A) : Forall P l → filter P l = l.
Proof.
  induction 1 as [|x l Hx _ IH]; [done|]. by rewrite filter_cons_True, IH.
Qed.

Lemma filter_Forall_nil (l : list A) : Forall (λ x, ¬ P x) l → filter P l = [].
Proof.
  induction 1 as [|x l Hx _ IH]; [done|]. by rewrite filter_cons_False.
Qed.

Lemma filter_idemp (l : list A) : filter P (filter P l) = filter P l.
Proof. apply filter_Forall_id, Forall_filter_self. Qed.

End list_filter.

Lemma mask_select_fmap {A} (f : A → bool) (l : list A) :
  mask_select l (f <$> l) = filter (λ x, f x) l.
Proof.
  induction l as [|x l IH]; [done|]. csimpl. rewrite filter_cons, IH.
  by destruct (f x).
Qed.

Lemma mask_select_sublist {A} (l : list A) (m : list bool) :
  mask_select l m `sublist_of` l.
Proof.
  revert m; induction l as [|x l IH]; intros [|[] m]; simpl;
    try constructor; by auto using sublist_nil_l.
Qed.

#[export] Instance same_elements_equivalence {A} : Equivalence (@same_elements A).
Proof. unfold same_elements. split; [done | by intros ?? | ]; intros l1 l2 l3 H1 H2 x; by rewrite H1. Qed.

#[export] Instance elem_of_same_elements {A} (x : A) :
  Proper (same_elements ==> iff) (elem_of x).
Proof. intros l1 l2 H. apply H. Qed.

(** ** Invariants of transition systems *)

(** A property established initially and kept by every step holds of every
    reachable state. *)
Lemma rtc_invariant {A} (R : relation A) (Inv : A → Prop) (a b : A) :
  Inv a → (∀ x y, R x y → Inv x → Inv y) → rtc R a b → Inv b.
Proof. intros Ha Hstep Hab. induction Hab; eauto. Qed.

(** [alter] on a key that is bound, and on one that is not. *)
Lemma alter_lookup_Some `{FinMap K M} {A} (f : A → A) (m : M A) (i : K) (x : A) :
  m !! i = Some x → alter f i m = <[i := f x]> m.
Proof.
  intros Hi. apply map_eq. intros j. destruct (decide (i = j)) as [<-|Hne].
  - by rewrite lookup_alter_eq, lookup_insert_eq, Hi.
  - by rewrite lookup_alter_ne, lookup_insert_ne.
Qed.

Lemma alter_lookup_None `{FinMap K M} {A} (f : A → A) (m : M A) (i : K) :
  m !! i = None → alter f i m = m.
Proof.
  intros Hi. apply map_eq. intros j. destruct (decide (i = j)) as [<-|Hne].
  - by rewrite lookup_alter_eq, Hi.
  - by rewrite lookup_alter_ne.
Qed.

(** A relation whose steps each lower a measure is strongly normalising:
    every sequence of steps ends. *)
Lemma sn_measure {A} (R : relation A) (f : A → nat) :
  (∀ x y, R x y → f y < f x) → ∀ x, sn R x.
Proof.
  intros Hf x. remember (f x) as n eqn:Hn. revert x Hn.
  induction (lt_wf n) as [n _ IH]. intros x ->.
  constructor. intros y Hy. eapply IH; [apply Hf, Hy | done].
Qed.

(** If each step lowers the measure by one, a sequence of [n] steps lowers
    it by [n]. *)
Lemma nsteps_measure {A} (R : relation A) (f : A → nat) n x y :
  (∀ x y, R x y → f x = S (f y)) → nsteps R n x y → f x = n + f y.
Proof.
  intros Hf. induction 1 as [|n x y z Hxy _ IH]; [done|].
  rewrite (Hf _ _ Hxy), IH. done.
Qed.

(** ** Options *)

Lemma Some_default {A} (d : A) (x : option A) : is_Some x → x = Some (default d x).
Proof. by intros [y ->]. Qed.

(** ** Deciding the sublist relation *)

Lemma sublistb_spec {A} `{EqDecision A} (l k : list A) :
  sublistb l k = true ↔ l `sublist_of` k.
Proof.
  revert l; induction k as [|y k IH]; intros [|x l]; simpl.
  - by split; [constructor|].
  - split; [done | by intros ?%sublist_nil_r].
  - split; [intros; apply sublist_nil_l | done].
  - rewrite sublist_cons_r. case_decide as Hxy; rewrite IH.
    + subst. split; [eauto|]. intros [Hs|(l' & [= <-] & Hs)]; [|done].
      etrans; [|done]. by apply sublist_cons.
    + split; [eauto|]. intros [Hs|(l' & [= <- <-] & Hs)]; done.
Qed.

#[export] Instance sublist_dec {A} `{EqDecision A} : RelDecision (@sublist A).
Proof.
  refine (λ l k, cast_if (decide (sublistb l k = true))); by rewrite <- sublistb_spec.
Defined.

(** ** Association lists with distinct keys *)

Lemma NoDup_fst_functional {A B} (l : list (A * B)) (x : A) (y1 y2 : B) :
  NoDup l.*1 → (x, y1) ∈ l → (x, y2) ∈ l → y1 = y2.
Proof.
  induction l as [|[x' y'] l IH]; csimpl; [by intros _ ?%elem_of_nil|].
  rewrite NoDup_cons, !elem_of_cons. intros [Hx Hnd] [[= -> ->]|H1] [[= ->]|H2]; auto.
  - destruct Hx. apply list_elem_of_fmap. by exists (x', y2).
  - simplify_eq. destruct Hx. apply list_elem_of_fmap. by exists (x', y1).
Qed.

(** ** Counting *)

(** Over a list without repetition, the indicators of [x = y] sum to the
    indicator of membership. *)
Lemma sum_list_with_indicator {A} `{EqDecision A} (x : A) (l : list A) :
  NoDup l →
  sum_list_with (λ y, if decide (x = y) then 1 else 0) l
  = if decide (x ∈ l) then 1 else 0.
Proof.
  induction 1 as [|y l Hy _ IH]; simpl; [done|]. rewrite IH.
  repeat case_decide; subst; try done; exfalso; set_solver.
Qed.

Lemma sum_list_with_ext {A} (f g : A → nat) (l : list A) :
  (∀ y, f y = g y) → sum_list_with f l = sum_list_with g l.
Proof. intros Hfg. induction l as [|y l IH]; simpl; [done|]. by rewrite Hfg, IH. Qed.

Lemma sum_list_with_add {A} (f g : A → nat) (l : list A) :
  sum_list_with (λ y, f y + g y) l = sum_list_with f l + sum_list_with g l.
Proof. induction l as [|y l IH]; simpl; [done|]. rewrite IH. lia. Qed.
