(* ===== verification/Scope.v ===== *)
(** * The names of [src/app.py] and the scopes that bind them

    The program as the statements Python executes, reduced to the names
    each statement loads and binds ([app_py], every line of the file), and
    Python's rule for resolving a name ([load]): the names bound so far in
    the running frame, then the enclosing function's frame, the module's
    globals and the builtins; a name that is local to a function and not
    yet bound does not fall through.  [exec] runs a statement, [call] a
    function body, [call_all] a function and then the functions it
    defined: what a session does with [server] and, through the engine,
    with the functions [server] registers. *)

From Stdlib Require Import Ascii.
From stdpp Require Import base tactics option list strings sets.
From S2P Require Import Prelude.

#[local] Set Warnings "-clear-no-such-hyp".
#[local] Set Warnings "-register-all".

(** ** Statements *)

(** A statement, with the names it loads when it is executed, in the
    order of their evaluation.  A load is written as in the source, with
    the attributes that follow the name: [input.selected_attribute()]
    loads ["input.selected_attribute"]; resolution concerns the name
    before the first dot ([root]).  A [def] loads its decorators and binds
    its name; its body runs when the function is called. *)
Inductive stmt : Type :=
| Import (module : string) (names : list string)
| Assign (targets : list string) (loads : list string)
| Expr (loads : list string)
| With (loads : list string) (body : list stmt)
| Def (decorators : list string) (name : string) (params : list string)
    (body : list stmt)
| Return (loads : list string).

(** [src/app.py], statement by statement (lines 1-119). *)
Definition app_py : list stmt := [
  Import "shiny" ["App"; "ui"; "render"; "reactive"];
  Import "shinywidgets" ["render_widget"; "output_widget"];
  Import "plotly.express" ["px"];
  Import "palmerpenguins" ["load_penguins"];
  Import "seaborn" ["sns"];
  Import "matplotlib.pyplot" ["plt"];
  Assign ["penguins_df"] ["load_penguins"];
  Assign ["app_ui"] [
    "ui.page_fluid"; "ui.layout_sidebar"; "ui.sidebar"; "ui.h2";
    "ui.input_selectize"; "ui.input_numeric"; "ui.input_slider";
    "ui.input_checkbox_group"; "ui.layout_columns"; "ui.output_table";
    "ui.output_table"; "output_widget"; "ui.output_plot"; "output_widget";
    "ui.hr"; "ui.a"
  ];
  Def [] "server" ["input"; "output"; "session"] [
    Def ["reactive.calc"] "filtered_data" [] [
      Return ["penguins_df"; "penguins_df"; "input.selected_species_list"]
    ];
    Def ["output"; "render.table"] "data_table" [] [
      Return ["filtered_data"]
    ];
    Def ["output"; "render.table"] "data_grid" [] [
      Return ["filtered_data"]
    ];
    Def ["output"; "render_widget"] "plotly_histogram" [] [
      Assign ["col"] ["input.selected_attribute"];
      Assign ["bins"] ["input.plotly_bin_count"];
      Assign ["fig"] ["px.histogram"; "filtered_data"; "col"; "int"; "bins"; "col"];
      Return ["fig"]
    ];
    Def ["output"; "render.plot"] "seaborn_histogram" [] [
      Assign ["col"] ["input.selected_attribute"];
      Assign ["bins"] ["input.seaborn_bin_count"];
      Assign ["fig"; "ax"] ["plt.subplots"];
      Expr ["sns.histplot"; "filtered_data"; "col"; "int"; "bins"; "ax"];
      Expr ["ax.set_title"; "col"];
      Return ["fig"]
    ];
    Def ["output"; "render_widget"] "plotly_scatterplot" [] [
      Assign ["fig"] ["px.scatter"; "filtered_data"];
      Return ["fig"]
    ]
  ];
  With ["ui.layout_columns"] [
    With ["ui.card"] [
      Expr ["ui.h2"];
      Def ["render.data_frame"] "penguins_datatable" [] [
        Return ["render.DataTable"; "filtered_data"]
      ]
    ];
    With ["ui.card"] [
      Expr ["ui.h2"];
      Def ["render.data_frame"] "penguins_datagrid" [] [
        Return ["render.DataGrid"; "filtered_data"]
      ]
    ]
  ];
  Assign ["app"] ["App"; "app_ui"; "server"]
].

(** The builtin the program loads. *)
Definition builtins : list string := ["int"].

(** ** Binding *)

(** The names a statement binds in the scope that executes it.  A [with]
    block is no scope of its own. *)
Fixpoint binds (s : stmt) : list string :=
  match s with
  | Import _ names => names
  | Assign targets _ => targets
  | With _ body => flat_map binds body
  | Def _ name _ _ => [name]
  | Expr _ | Return _ => []
  end.

(** The functions a block defines, [with] blocks included. *)
Fixpoint defs (s : stmt) : list stmt :=
  match s with
  | Def _ _ _ _ => [s]
  | With _ body => flat_map defs body
  | _ => []
  end.

Definition def_name (s : stmt) : option string :=
  match s with Def _ name _ _ => Some name | _ => None end.

Definition def_decorators (s : stmt) : list string :=
  match s with Def ds _ _ _ => ds | _ => [] end.

Definition def_body (s : stmt) : list stmt :=
  match s with Def _ _ _ body => body | _ => [] end.

(** The function of a given name that a block defines. *)
Definition find_def (name : string) (ss : list stmt) : option stmt :=
  head (filter (λ d, def_name d = Some name) (flat_map defs ss)).

(** ** Resolution *)

(** A scope: the names local to the running function ([None] at module
    level, where a name is local only once it is bound) and the names
    visible from outside it (enclosing frames, globals, builtins). *)
Record scope : Type := Scope {
  locals : option (list string);
  visible : list string;
}.

(** The name a load starts from, and the attributes that follow it. *)
Fixpoint root (path : string) : string :=
  match path with
  | EmptyString => EmptyString
  | String c path' => if decide (c = "."%char) then EmptyString else String c (root path')
  end.

Fixpoint attr (path : string) : string :=
  match path with
  | EmptyString => EmptyString
  | String c path' => if decide (c = "."%char) then path' else attr path'
  end.

(** Load a name: it is bound in the running frame; or it is not local and
    visible from outside.  A local name that is not bound yet raises
    [UnboundLocalError], a [NameError]; so does a name found nowhere. *)
Definition load (sc : scope) (bound : list string) (path : string) : result unit :=
  let x := root path in
  if decide (x ∈ bound) then Ok ()
  else if decide (x ∈ default [] (locals sc)) then Err NameError
  else if decide (x ∈ visible sc) then Ok ()
  else Err NameError.

(** Do [f] on every element, left to right, until one raises. *)
Definition all_ok {A} (f : A → result unit) : list A → result unit :=
  fix go l :=
    match l with
    | [] => Ok ()
    | x :: l' => result_bind (f x) (λ _, go l')
    end.

Definition loads (sc : scope) (bound : list string) (xs : list string) : result unit :=
  all_ok (load sc bound) xs.

(** ** Execution *)

(** Run the statements of a block in order from the frame [bound], until
    one returns (the flag) or raises. *)
Definition exec_with (exec : list string → stmt → result (list string * bool)) :
    list string → list stmt → result (list string * bool) :=
  fix block bound ss :=
    match ss with
    | [] => Ok (bound, false)
    | s :: ss' =>
        result_bind (exec bound s) (λ r,
          if r.2 then Ok r else block r.1 ss')
    end.

(** Execute a statement: load what it loads, bind what it binds. *)
Fixpoint exec (sc : scope) (bound : list string) (s : stmt) :
    result (list string * bool) :=
  match s with
  | Import _ names => Ok (names ++ bound, false)
  | Assign targets ls =>
      result_bind (loads sc bound ls) (λ _, Ok (targets ++ bound, false))
  | Expr ls => result_bind (loads sc bound ls) (λ _, Ok (bound, false))
  | With ls body =>
      result_bind (loads sc bound ls) (λ _, exec_with (exec sc) bound body)
  | Def ds name _ _ =>
      result_bind (loads sc bound ds) (λ _, Ok (name :: bound, false))
  | Return ls => result_bind (loads sc bound ls) (λ _, Ok (bound, true))
  end.

Definition exec_block (sc : scope) : list string → list stmt → result (list string * bool) :=
  exec_with (exec sc).

(** Call a function: its parameters are bound, the names its body binds
    are local.  The result is the frame when it returns, which the
    functions it defined close over. *)
Definition call (outside : list string) (params : list string) (body : list stmt) :
    result (list string) :=
  result_map fst
    (exec_block (Scope (Some (params ++ flat_map binds body)) outside) params body).

(** Call a function and then, in the frame it returned with, every
    function it defined, and so on. *)
Fixpoint call_all (outside : list string) (s : stmt) : result unit :=
  match s with
  | Def _ _ params body =>
      result_bind (call outside params body) (λ frame,
        all_ok (call_all (frame ++ outside)) body)
  | With _ body => all_ok (call_all outside) body
  | _ => Ok ()
  end.

(** Import the module: execute its statements at module level. *)
Definition import_module (ss : list stmt) : result (list string) :=
  result_map fst (exec_block (Scope None builtins) [] ss).

(** The globals of the imported program. *)
Definition app_globals : list string :=
  match import_module app_py with Ok g => g | Err _ => [] end.

(** Call, with all that follows from it, the function of the program
    named [name]. *)
Definition call_function (name : string) : result unit :=
  match find_def name app_py with
  | Some d => call_all (app_globals ++ builtins) d
  | None => Err NameError
  end.

(** ** What the source says of the reactive graph *)

(** Everything a block loads when it runs, [with] blocks included. *)
Fixpoint stmt_loads (s : stmt) : list string :=
  match s with
  | Assign _ ls | Expr ls | Return ls => ls
  | With ls body => ls ++ flat_map stmt_loads body
  | Def ds _ _ _ => ds
  | Import _ _ => []
  end.

(** The functions [server] defines. *)
Definition server_defs : list stmt :=
  flat_map defs (from_option def_body [] (find_def "server" app_py)).

(** Those that carry a given decorator, by name. *)
Definition decorated (decorator : string) : list string :=
  omap def_name (filter (λ d, decorator ∈ def_decorators d) server_defs).

(** The decorators of the function [name] of [server]. *)
Definition decorators_of (name : string) : list string :=
  from_option def_decorators []
    (head (filter (λ d, def_name d = Some name) server_defs)).

(** What the body of the function [name] of [server] loads. *)
Definition body_loads (name : string) : list string :=
  flat_map stmt_loads
    (from_option def_body [] (head (filter (λ d, def_name d = Some name) server_defs))).

(** The inputs it reads: the attributes it loads of [input]. *)
Definition input_reads (name : string) : list string :=
  attr <$> filter (λ path, root path = "input") (body_loads name).

(** ** Induction on statements *)

Lemma stmt_ind' (P : stmt → Prop) :
  (∀ m ns, P (Import m ns)) →
  (∀ ts ls, P (Assign ts ls)) →
  (∀ ls, P (Expr ls)) →
  (∀ ls body, Forall P body → P (With ls body)) →
  (∀ ds n ps body, Forall P body → P (Def ds n ps body)) →
  (∀ ls, P (Return ls)) →
  ∀ s, P s.
Proof.
  intros HI HA HE HW HD HR. fix IH 1.
  intros [m ns|ts ls|ls|ls body|ds n ps body|ls];
    [apply HI | apply HA | apply HE | apply HW | apply HD | apply HR];
    induction body; constructor; auto.
Qed.

(** ** Resolution *)

Section resolution.
Implicit Types (sc : scope) (bound outside : list string) (path : string) (e : exn).

Lemma load_Ok sc bound path :
  load sc bound path = Ok () ↔
  root path ∈ bound
  ∨ ((root path ∉ default [] (locals sc)) ∧ root path ∈ visible sc).
Proof. unfold load. repeat case_decide; naive_solver. Qed.

Lemma load_Err sc bound path e : load sc bound path = Err e → e = NameError.
Proof. unfold load. repeat case_decide; naive_solver. Qed.

Lemma all_ok_Ok {A} (f : A → result unit) (l : list A) :
  all_ok f l = Ok () ↔ Forall (λ x, f x = Ok ()) l.
Proof.
  induction l as [|x l IH]; simpl; [by split|]. rewrite Forall_cons, <- IH.
  destruct (f x) as [[]|]; simpl; naive_solver.
Qed.

Lemma all_ok_Err {A} (f : A → result unit) (l : list A) e :
  all_ok f l = Err e → Exists (λ x, f x = Err e) l.
Proof.
  induction l as [|x l IH]; simpl; [done|].
  destruct (f x) as [[]|e'] eqn:Hx; simpl; [by right; auto | intros [= <-]; by left].
Qed.

Lemma loads_Err sc bound ls e : loads sc bound ls = Err e → e = NameError.
Proof.
  intros (p & _ & Hp)%all_ok_Err%list.Exists_exists. by eapply load_Err.
Qed.

(** More names visible from outside: what resolved still resolves. *)
Lemma loads_visible_mono sc sc' bound ls :
  locals sc = locals sc' → visible sc ⊆ visible sc' →
  loads sc bound ls = Ok () → loads sc' bound ls = Ok ().
Proof.
  intros Hl Hv. unfold loads. rewrite !all_ok_Ok. intros Hok.
  eapply list.Forall_impl; [exact Hok|]. intros p. rewrite !load_Ok, Hl. set_solver.
Qed.

End resolution.

(** ** Execution *)

Section execution.
Implicit Types (sc : scope) (bound outside : list string) (s : stmt) (e : exn).

(** A block raises only what one of its statements raises. *)
Lemma exec_with_Err (exec' : list string → stmt → result (list string * bool))
    (Q : exn → Prop) ss bound e :
  Forall (λ s, ∀ b e, exec' b s = Err e → Q e) ss →
  exec_with exec' bound ss = Err e → Q e.
Proof.
  intros Hss. revert bound. induction Hss as [|s ss Hs _ IH]; intros bound; simpl; [done|].
  destruct (exec' bound s) as [[b' []]|e'] eqn:Hx; simpl; [done | apply IH |].
  intros [= <-]. by eapply Hs.
Qed.

(** Running a statement raises nothing but [NameError]. *)
Lemma exec_Err sc s : ∀ bound e, exec sc bound s = Err e → e = NameError.
Proof.
  induction s as [m ns|ts ls|ls|ls body IH|ds n ps body _|ls] using stmt_ind';
    intros bound e; simpl; try done;
    destruct (loads sc bound _) as [[]|e'] eqn:Hl; simpl;
    try done; try (intros [= <-]; by eapply loads_Err).
  intros He. by eapply (exec_with_Err _ (λ e, e = NameError)).
Qed.

Lemma call_Err outside ps body e : call outside ps body = Err e → e = NameError.
Proof.
  unfold call, exec_block.
  destruct (exec_with _ _ _) as [r|e'] eqn:Hx; simpl; [done|]. intros [= <-].
  eapply (exec_with_Err _ (λ e, e = NameError)); [|done].
  apply Forall_forall. intros s _ b e. apply exec_Err.
Qed.

Lemma all_ok_Err_with {A} (f : A → result unit) (Q : exn → Prop) (l : list A) e :
  Forall (λ x, ∀ e, f x = Err e → Q e) l → all_ok f l = Err e → Q e.
Proof.
  intros Hl (x & Hx & He)%all_ok_Err%list.Exists_exists.
  rewrite list.Forall_forall in Hl. by eapply Hl.
Qed.

(** So does calling a function and all it defines. *)
Lemma call_all_Err s : ∀ outside e, call_all outside s = Err e → e = NameError.
Proof.
  induction s as [m ns|ts ls|ls|ls body IH|ds n ps body IH|ls] using stmt_ind';
    intros outside e; simpl; try done.
  - apply (all_ok_Err_with _ (λ e, e = NameError)).
    eapply list.Forall_impl; [exact IH|]. naive_solver.
  - destruct (call outside ps body) as [frame|e'] eqn:Hc; simpl.
    + apply (all_ok_Err_with _ (λ e, e = NameError)).
      eapply list.Forall_impl; [exact IH|]. naive_solver.
    + intros [= <-]. by eapply call_Err.
Qed.

(** More names visible from outside: a block that ran runs the same. *)
Lemma exec_with_ext (exec1 exec2 : list string → stmt → result (list string * bool)) ss :
  Forall (λ s, ∀ b r, exec1 b s = Ok r → exec2 b s = Ok r) ss →
  ∀ bound r, exec_with exec1 bound ss = Ok r → exec_with exec2 bound ss = Ok r.
Proof.
  induction 1 as [|s ss Hs _ IH]; intros bound r; simpl; [done|].
  destruct (exec1 bound s) as [[b' ret]|] eqn:Hx; simpl; [|done].
  rewrite (Hs _ _ Hx). simpl. destruct ret; [done | apply IH].
Qed.

Lemma exec_visible_mono sc sc' s :
  locals sc = locals sc' → visible sc ⊆ visible sc' →
  ∀ bound r, exec sc bound s = Ok r → exec sc' bound s = Ok r.
Proof.
  intros Hl Hv.
  induction s as [m ns|ts ls|ls|ls body IH|ds n ps body _|ls] using stmt_ind';
    intros bound r; simpl; try done;
    destruct (loads sc bound _) as [[]|] eqn:Hx; simpl; try done;
    rewrite (loads_visible_mono sc sc' _ _ Hl Hv Hx); simpl; try done.
  by apply exec_with_ext.
Qed.

Lemma call_visible_mono outside outside' ps body frame :
  outside ⊆ outside' →
  call outside ps body = Ok frame → call outside' ps body = Ok frame.
Proof.
  intros Ho. unfold call, exec_block.
  destruct (exec_with _ _ _) as [r|] eqn:Hx; simpl; [|done]. intros [= <-].
  erewrite exec_with_ext; [done| |exact Hx].
  apply Forall_forall. intros s _. by apply exec_visible_mono.
Qed.

End execution.

Lemma call_all_visible_mono s :
  ∀ outside outside', outside ⊆ outside' →
  call_all outside s = Ok () → call_all outside' s = Ok ().
Proof.
  induction s as [m ns|ts ls|ls|ls body IH|ds n ps body IH|ls] using stmt_ind';
    intros outside outside' Ho; simpl; try done.
  - rewrite !all_ok_Ok. intros Hb. rewrite list.Forall_forall in IH, Hb.
    apply list.Forall_forall. intros s Hs. by eapply IH, Hb.
  - destruct (call outside ps body) as [frame|] eqn:Hc; simpl; [|done].
    rewrite (call_visible_mono _ _ _ _ _ Ho Hc). simpl.
    rewrite !all_ok_Ok. intros Hb. rewrite list.Forall_forall in IH, Hb.
    apply list.Forall_forall. intros s Hs.
    eapply IH; [done| |by apply Hb]. set_solver.
Qed.

(** ** The program *)

Lemma app_globals_eq :
  app_globals
  = ["app"; "penguins_datagrid"; "penguins_datatable"; "server"; "app_ui";
     "penguins_df"; "plt"; "sns"; "load_penguins"; "px"; "render_widget";
     "output_widget"; "App"; "ui"; "render"; "reactive"].
Proof. reflexivity. Qed.

(** Importing the module raises no [NameError], and these are the
    globals it leaves. *)
Lemma app_py_imports :
  import_module app_py
  = Ok ["app"; "penguins_datagrid"; "penguins_datatable"; "server"; "app_ui";
        "penguins_df"; "plt"; "sns"; "load_penguins"; "px"; "render_widget";
        "output_widget"; "App"; "ui"; "render"; "reactive"].
Proof. reflexivity. Qed.

(** C32. No name the application loads is unbound.  Importing the module
    raises no [NameError]: every name a module-level statement loads has
    been bound by an earlier statement (or is a builtin), up to
    [App(app_ui, server)] at the last line, which binds [app].  And a
    session's call of [server], and every later call of a function
    [server] defined, finds each name it loads: nothing in lines 42-104
    can raise [NameError], whatever further globals are bound. *)
Theorem server_names_resolve (more : list string) :
  (∃ globals, import_module app_py = Ok globals
     ∧ Forall (λ x, x ∈ globals) ["penguins_df"; "app_ui"; "server"; "app"])
  ∧ from_option (call_all (more ++ app_globals ++ builtins)) (Err NameError)
      (find_def "server" app_py)
    = Ok ().
Proof.
  split.
  - eexists. split; [apply app_py_imports|]. compute_done.
  - apply (call_all_visible_mono _ (app_globals ++ builtins)); [set_solver|].
    reflexivity.
Qed.

(** The two functions defined at module level (lines 105-117) cannot
    run: a call raises [NameError], because [filtered_data], which they
    load, is a local of [server], bound in the frame of a call of
    [server] and in no scope they can see.  Their one decorator is
    [@render.data_frame]: they are not decorated [@output]. *)
Lemma module_level_call_NameError (name : string) :
  name ∈ ["penguins_datatable"; "penguins_datagrid"] →
  call_function name = Err NameError
  ∧ ("filtered_data" ∉ app_globals ++ builtins)
  ∧ (∃ frame,
      call (app_globals ++ builtins) ["input"; "output"; "session"]
        (from_option def_body [] (find_def "server" app_py)) = Ok frame
      ∧ "filtered_data" ∈ frame)
  ∧ from_option def_decorators [] (find_def name app_py) = ["render.data_frame"].
Proof.
  intros Hn. split_and!.
  - rewrite !elem_of_cons, elem_of_nil in Hn.
    destruct Hn as [->|[->|[]]]; reflexivity.
  - compute_done.
  - eexists. split; [reflexivity|]. compute_done.
  - rewrite !elem_of_cons, elem_of_nil in Hn.
    destruct Hn as [->|[->|[]]]; reflexivity.
Qed.
