(* ===== verification/Python.v ===== *)
(** * Python values and builtins used by [src/app.py]

    The numbers a numeric widget delivers ([number]: an [int] or a finite
    [float]; [None] is [option number]'s [None]) and the builtin [int]
    applied to them at lines 67 and 82 ([py_int]), with its error case and
    the bounds of its truncation. *)

From stdpp Require Import base tactics option numbers.
From Stdlib Require Import QArith Qcanon.
From S2P Require Import Prelude.

#[local] Set Warnings "-clear-no-such-hyp".

(** ** Numbers *)

(** A Python number as the session receives it from a numeric widget: an
    [int] (unbounded, hence [Z]) or a [float].  A finite float is a
    rational, kept canonical so that equality is Leibniz; [nan] and the
    infinities have no JSON form and are not values of an input. *)
Inductive number : Type :=
| NInt (z : Z)
| NFloat (q : Qc).

#[export] Instance number_eq_dec : EqDecision number.
Proof. solve_decision. Defined.

(** The float whose value is the integer [z], for the integers a float
    holds exactly. *)
Definition float_of_Z (z : Z) : Qc := Q2Qc (inject_Z z).

(** ** The builtin [int] *)

(** Truncation of a float toward zero: [int(3.7) = 3], [int(-3.7) = -3]. *)
Definition trunc (q : Qc) : Z := Z.quot (Qnum q) (Zpos (Qden q)).

(** [int(bins)] (lines 67 and 82): an [int] is returned as it is, a [float]
    is truncated toward zero, and [None] raises [TypeError]. *)
Definition py_int (v : option number) : result Z :=
  match v with
  | None => Err TypeError
  | Some (NInt z) => Ok z
  | Some (NFloat q) => Ok (trunc q)
  end.

(** ** Truncation *)

Lemma trunc_nonneg (q : Qc) :
  (0 <= q)%Qc → (inject_Z (trunc q) <= q)%Q ∧ (q < inject_Z (trunc q + 1))%Q.
Proof.
  destruct q as [[a b] Hc]. unfold trunc, Qcle, Qle, Qlt; simpl. intros Ha.
  pose proof (Z.quot_rem' a (Z.pos b)).
  pose proof (Z.rem_bound_pos a (Z.pos b) ltac:(lia) ltac:(lia)). nia.
Qed.

Lemma trunc_nonpos (q : Qc) :
  (q <= 0)%Qc → (inject_Z (trunc q - 1) < q)%Q ∧ (q <= inject_Z (trunc q))%Q.
Proof.
  destruct q as [[a b] Hc]. unfold trunc, Qcle, Qle, Qlt; simpl. intros Ha.
  pose proof (Z.quot_rem' a (Z.pos b)).
  pose proof (Z.rem_bound_pos_neg a (Z.pos b) ltac:(lia) ltac:(lia)). nia.
Qed.

Lemma trunc_sign (q : Qc) :
  ((0 <= q)%Qc → (0 <= trunc q)%Z) ∧ ((q <= 0)%Qc → (trunc q <= 0)%Z).
Proof.
  destruct q as [[a b] Hc]. unfold trunc, Qcle, Qle; simpl. split; intros Ha.
  - apply Z.quot_pos; lia.
  - rewrite <- (Z.opp_involutive a), Z.quot_opp_l by lia.
    pose proof (Z.quot_pos (- a) (Z.pos b)). lia.
Qed.

Lemma trunc_float_of_Z (z : Z) : trunc (float_of_Z z) = z.
Proof.
  unfold trunc, float_of_Z. simpl.
  rewrite Qred_identity by apply Z.gcd_1_r. apply Z.quot_1_r.
Qed.

(** ** [int] on the values of a numeric input *)

(** [int(v)] raises exactly when the field is empty, and then raises
    [TypeError]: an [int] or a [float] is always converted. *)
Lemma py_int_raises_iff (v : option number) (e : exn) :
  py_int v = Err e ↔ v = None ∧ e = TypeError.
Proof. destruct v as [[z|q]|]; simpl; naive_solver. Qed.

(** C39. [int] truncates a float toward zero: the result lies between zero
    and the float, less than one away from it. *)
Theorem py_int_float_bounds (q : Qc) (n : Z) :
  py_int (Some (NFloat q)) = Ok n →
  ((0 <= q)%Qc → (0 ≤ n)%Z ∧ (inject_Z n <= q)%Q ∧ (q < inject_Z (n + 1))%Q)
  ∧ ((q <= 0)%Qc → (n ≤ 0)%Z ∧ (inject_Z (n - 1) < q)%Q ∧ (q <= inject_Z n)%Q).
Proof.
  intros [= <-]. split; intros Hq.
  - split; [by apply trunc_sign | by apply trunc_nonneg].
  - split; [by apply trunc_sign | by apply trunc_nonpos].
Qed.

Lemma py_int_float_bounds_witness :
  ((0 <= Q2Qc (7 # 2))%Qc →
     (0 ≤ 3)%Z ∧ (inject_Z 3 <= Q2Qc (7 # 2))%Q ∧ (Q2Qc (7 # 2) < inject_Z (3 + 1))%Q)
  ∧ ((Q2Qc (7 # 2) <= 0)%Qc →
     (3 ≤ 0)%Z ∧ (inject_Z (3 - 1) < Q2Qc (7 # 2))%Q ∧ (Q2Qc (7 # 2) <= inject_Z 3)%Q).
Proof. apply (py_int_float_bounds (Q2Qc (7 # 2)) 3). reflexivity. Defined.

(** A float whose value is an integer converts to that integer, and
    [int] leaves an [int] as it is. *)
Lemma py_int_integral (z : Z) :
  py_int (Some (NFloat (float_of_Z z))) = Ok z ∧ py_int (Some (NInt z)) = Ok z.
Proof. split; [|done]. simpl. by rewrite trunc_float_of_Z. Qed.

Example py_int_examples :
  py_int (Some (NFloat (Q2Qc (7 # 2)))) = Ok 3%Z
  ∧ py_int (Some (NFloat (Q2Qc (-7 # 2)))) = Ok (-3)%Z
  ∧ py_int (Some (NInt 50)) = Ok 50%Z
  ∧ py_int None = Err TypeError.
Proof. by vm_compute. Qed.
