(* ===== verification/Dataframe.v ===== *)
(** * The dataset and the pandas expression of line 47

    [penguins_df] (line 9) is a table of [penguin] rows with the columns
    the program names.  Line 47 selects rows with three pandas operations,
    each a definition here: column access [getitem_col], the element-wise
    membership test [isin], and indexing by a boolean mask [getitem_mask];
    [where_isin] composes them as the line does.  [filtered] is the Filter
    Stage's contract, which [where_isin] is proved to implement. *)

From Stdlib Require Import QArith Qcanon.
From stdpp Require Import base tactics option list strings numbers.
From S2P Require Import Prelude.

#[local] Set Warnings "-clear-no-such-hyp".

(** ** Rows and columns *)

(** One row of the table.  A measurement is a float or missing ([NaN]). *)
Record penguin : Type := Penguin {
  species : string;
  bill_length_mm : option Qc;
  bill_depth_mm : option Qc;
  body_mass_g : option Qc;
}.

#[export] Instance penguin_eq_dec : EqDecision penguin.
Proof. solve_decision. Defined.

(** A [DataFrame] with this schema: its rows, in order. *)
Abbreviation dataframe := (list penguin).

(** The value of one cell: a string, or a float that may be missing. *)
Inductive cell : Type :=
| CStr (s : string)
| CNum (x : option Qc).

#[export] Instance cell_eq_dec : EqDecision cell.
Proof. solve_decision. Defined.

(** The column labels, and the accessor each label names. *)
Definition columns : list string :=
  ["species"; "bill_length_mm"; "bill_depth_mm"; "body_mass_g"].

Definition column (c : string) : option (penguin → cell) :=
  if decide (c = "species") then Some (λ r, CStr (species r))
  else if decide (c = "bill_length_mm") then Some (λ r, CNum (bill_length_mm r))
  else if decide (c = "bill_depth_mm") then Some (λ r, CNum (bill_depth_mm r))
  else if decide (c = "body_mass_g") then Some (λ r, CNum (body_mass_g r))
  else None.

(** ** The pandas operations of line 47 *)

(** [df[c]]: the column labelled [c] as a series, [KeyError] for a label
    that is not a column. *)
Definition getitem_col (df : dataframe) (c : string) : result (list cell) :=
  match column c with
  | Some f => Ok (f <$> df)
  | None => Err KeyError
  end.

(** [s.isin(values)]: for each element of the series, whether it is one of
    [values].  The values are strings; a number is never one of them. *)
Definition isin (s : list cell) (values : list string) : list bool :=
  (λ c, bool_decide (c ∈ CStr <$> values)) <$> s.

(** [df[mask]] for a boolean series: the rows at which the mask holds, in
    order.  A mask that does not cover the frame's rows is refused. *)
Definition getitem_mask (df : dataframe) (mask : list bool) : result dataframe :=
  if decide (length mask = length df) then Ok (mask_select df mask)
  else Err IndexingError.

(** [df[df[c].isin(values)]]: line 47, with the frame, the column label
    and the values as parameters. *)
Definition where_isin (df : dataframe) (c : string) (values : list string)
  : result dataframe :=
  result_bind (getitem_col df c) (λ s, getitem_mask df (isin s values)).

(** ** The Filter Stage's contract *)

(** The rows whose species is one of [sel], in the order of the table. *)
Definition filtered (sel : list string) (df : dataframe) : dataframe :=
  filter (λ r, species r ∈ sel) df.

(** How many rows of the table have species [s]. *)
Definition count_species (s : string) (df : dataframe) : nat :=
  length (filter (λ r, species r = s) df).

(** The dataset provider's promise: every row's species is one of [names]. *)
Definition species_within (names : list string) (df : dataframe) : Prop :=
  Forall (λ r, species r ∈ names) df.

#[export] Instance species_within_dec names df : Decision (species_within names df).
Proof. unfold species_within. apply _. Defined.

(** ** A concrete table

    Eight rows in the shape of the dataset (the fourth has its measurements
    missing), on which the theorems are applied and the definitions run. *)

Definition qc (n : Z) (d : positive) : Qc := Q2Qc (Qmake n d).

Definition measured (s : string) (len depth : Z) (mass : Z) : penguin :=
  Penguin s (Some (qc len 10)) (Some (qc depth 10)) (Some (qc mass 1)).

Definition sample_df : dataframe :=
  [ measured "Adelie" 391 187 3750;
    measured "Adelie" 395 174 3800;
    measured "Adelie" 403 180 3250;
    Penguin "Adelie" None None None;
    measured "Gentoo" 461 132 4500;
    measured "Gentoo" 500 163 5700;
    measured "Chinstrap" 465 179 3500;
    measured "Chinstrap" 500 195 3900 ].

(** A table with the published species counts (measurements left out). *)
Definition published_counts_df : dataframe :=
  replicate 152 (Penguin "Adelie" None None None)
  ++ replicate 124 (Penguin "Gentoo" None None None)
  ++ replicate 68 (Penguin "Chinstrap" None None None).

(** ** The operations, one by one *)

Section operations.
Implicit Types (df : dataframe) (sel values : list string) (r : penguin).

Lemma column_is_Some (c : string) : is_Some (column c) ↔ c ∈ columns.
Proof.
  unfold column, columns. rewrite !elem_of_cons, elem_of_nil.
  repeat case_decide; split; intros Hc; eauto 6; [by destruct Hc | tauto].
Qed.

Lemma getitem_col_length df c s : getitem_col df c = Ok s → length s = length df.
Proof.
  unfold getitem_col. destruct (column c); intros [= <-]. apply length_fmap.
Qed.

Lemma isin_length (s : list cell) values : length (isin s values) = length s.
Proof. apply length_fmap. Qed.

Lemma isin_fmap (f : penguin → cell) df values :
  isin (f <$> df) values = (λ r, bool_decide (f r ∈ CStr <$> values)) <$> df.
Proof. unfold isin. by rewrite <- list_fmap_compose. Qed.

Lemma getitem_mask_fmap df (f : penguin → bool) :
  getitem_mask df (f <$> df) = Ok (filter (λ r, f r) df).
Proof.
  unfold getitem_mask. rewrite length_fmap, decide_True by done.
  by rewrite mask_select_fmap.
Qed.

Lemma getitem_mask_length_ne df (m : list bool) :
  length m ≠ length df → getitem_mask df m = Err IndexingError.
Proof. intros. unfold getitem_mask. by rewrite decide_False. Qed.

(** On a column that exists, line 47 is a filter of the rows. *)
Lemma where_isin_column df c (f : penguin → cell) values :
  column c = Some f →
  where_isin df c values = Ok (filter (λ r, f r ∈ CStr <$> values) df).
Proof.
  intros Hc. unfold where_isin, getitem_col. rewrite Hc. simpl.
  rewrite isin_fmap, getitem_mask_fmap. f_equal.
  apply list_filter_iff. intros r. apply bool_decide_spec.
Qed.

End operations.

(** ** Line 47 implements the Filter Stage *)

Section filter_stage.
Implicit Types (df : dataframe) (sel : list string) (r : penguin).

Lemma elem_of_CStr_fmap (s : string) sel : CStr s ∈ CStr <$> sel ↔ s ∈ sel.
Proof.
  rewrite list_elem_of_fmap. split; [by intros (?&[= ->]&?) | eauto].
Qed.

(** Line 47 on the species column is the contract [filtered]. *)
Lemma where_isin_filtered df sel :
  where_isin df "species" sel = Ok (filtered sel df).
Proof.
  rewrite (where_isin_column df "species" (λ r, CStr (species r))) by done.
  f_equal. apply list_filter_iff. intros r. apply elem_of_CStr_fmap.
Qed.

Lemma filtered_nil df : filtered [] df = [].
Proof.
  apply filter_Forall_nil, Forall_forall. intros r _. apply not_elem_of_nil.
Qed.

(** C2. Line 47, [penguins_df[penguins_df["species"].isin(sel)]], stage by
    stage: the column access finds the species column, the mask [isin]
    builds has one entry per row, so the indexing does not raise, and the
    result is the contract [filtered]: a row is in the view exactly when
    it is a row of the table whose species is in [sel], and the view
    keeps the order of the table. *)
Theorem where_isin_species df sel :
  ∃ s d, getitem_col df "species" = Ok s
       ∧ length (isin s sel) = length df
       ∧ getitem_mask df (isin s sel) = Ok d
       ∧ where_isin df "species" sel = Ok d
       ∧ d = filtered sel df
       ∧ (∀ r, r ∈ d ↔ r ∈ df ∧ species r ∈ sel)
       ∧ d `sublist_of` df.
Proof.
  exists ((λ r, CStr (species r)) <$> df), (filtered sel df).
  split_and!; [done | by rewrite isin_length, length_fmap | | | done | |].
  - by rewrite <- where_isin_filtered.
  - apply where_isin_filtered.
  - intros r. unfold filtered. rewrite list_elem_of_filter. tauto.
  - apply sublist_filter.
Qed.


(** With nothing selected the view is empty. *)
Lemma where_isin_nothing_selected df : where_isin df "species" [] = Ok [].
Proof. by rewrite where_isin_filtered, filtered_nil. Qed.

(** C27. The two ends of the selection.  With nothing selected the view
    is empty: not an error, and not every row.  When every species of
    the table is selected the view is the whole table, so its row count
    is the table's. *)
Theorem where_isin_boundary_selections df sel :
  species_within sel df →
  where_isin df "species" [] = Ok [] ∧ where_isin df "species" sel = Ok df.
Proof.
  intros Hall. split; [apply where_isin_nothing_selected|].
  rewrite where_isin_filtered. f_equal. by apply filter_Forall_id.
Qed.

(** A label that is no column raises [KeyError], whatever the values. *)
Lemma where_isin_no_column df c values :
  c ∉ columns → where_isin df c values = Err KeyError.
Proof.
  intros Hc. unfold where_isin, getitem_col.
  destruct (column c) eqn:E; [|done]. destruct Hc. apply column_is_Some; eauto.
Qed.

(** C40. Line 47 with any column label: it raises exactly when the label
    is no column of the table, and then raises [KeyError]; the mask that
    [isin] builds always fits the table, so the indexing never raises. *)
Theorem where_isin_raises_iff df c values e :
  where_isin df c values = Err e ↔ (c ∉ columns) ∧ e = KeyError.
Proof.
  split.
  - destruct (column c) as [f|] eqn:Hc.
    + by rewrite (where_isin_column df c f values Hc).
    + assert (c ∉ columns) as Hn by (rewrite <- column_is_Some, Hc; by intros []).
      rewrite where_isin_no_column by done. by intros [= <-].
  - intros [Hc ->]. by apply where_isin_no_column.
Qed.

(** The selection is read as a set: order and repetition do not matter. *)
#[export] Instance filtered_proper : Proper (same_elements ==> (=) ==> (=)) filtered.
Proof.
  intros sel1 sel2 Hsel df ? <-. apply list_filter_iff. intros r. apply Hsel.
Qed.

Lemma filtered_filtered sel1 sel2 df :
  filtered sel1 (filtered sel2 df) = filtered (list_intersection sel1 sel2) df.
Proof.
  unfold filtered. rewrite list_filter_filter. apply list_filter_iff.
  intros r. by rewrite list_elem_of_intersection.
Qed.

Lemma filtered_length_le sel df : (length (filtered sel df) ≤ length df)%nat.
Proof. apply length_filter. Qed.

(** The size of the view is the number of rows of each selected species. *)
Lemma filtered_length sel df :
  NoDup sel →
  length (filtered sel df) = sum_list_with (λ s, count_species s df) sel.
Proof.
  intros Hsel. unfold filtered, count_species.
  induction df as [|r df IH]; simpl.
  { induction sel; simpl; [done|]. by rewrite <- IHsel by by inversion Hsel. }
  rewrite filter_cons, (sum_list_with_ext _
    (λ s, (if decide (species r = s) then 1 else 0)
          + length (filter (λ r, species r = s) df))).
  - rewrite sum_list_with_add, sum_list_with_indicator, <- IH by done.
    by case_decide.
  - intros s. rewrite filter_cons. by case_decide.
Qed.

(** C29. The published scenario: in a table of 152 Adelie, 124 Gentoo and
    68 Chinstrap rows and no others, selecting only Gentoo yields 124
    rows, all Gentoo, and selecting all three yields all 344. *)
Theorem where_isin_published_counts df :
  species_within ["Adelie"; "Gentoo"; "Chinstrap"] df →
  count_species "Adelie" df = 152 →
  count_species "Gentoo" df = 124 →
  count_species "Chinstrap" df = 68 →
  length df = 344
  ∧ ∃ d, where_isin df "species" ["Gentoo"] = Ok d
         ∧ length d = 124 ∧ Forall (λ r, species r = "Gentoo") d.
Proof.
  intros Hall Ha Hg Hc. split.
  - rewrite <- (filter_Forall_id _ df Hall).
    change (filter _ df) with (filtered ["Adelie"; "Gentoo"; "Chinstrap"] df).
    rewrite filtered_length by compute_done.
    simpl. lia.
  - exists (filtered ["Gentoo"] df). split; [apply where_isin_filtered|]. split.
    + rewrite filtered_length by compute_done. simpl. lia.
    + pose proof (Forall_filter_self (λ r, species r ∈ ["Gentoo"]) df) as Hf.
      eapply list.Forall_impl; [exact Hf|]. intros r. simpl. by rewrite list_elem_of_singleton.
Qed.

Lemma filtered_species sel df : species_within sel (filtered sel df).
Proof. apply (Forall_filter_self (λ r, species r ∈ sel)). Qed.

End filter_stage.

(** ** The theorems on the concrete tables *)

Lemma sample_df_species :
  species_within ["Adelie"; "Gentoo"; "Chinstrap"] sample_df.
Proof. compute_done. Qed.

Lemma where_isin_boundary_selections_witness :
  where_isin sample_df "species" [] = Ok []
  ∧ where_isin sample_df "species" ["Adelie"; "Gentoo"; "Chinstrap"] = Ok sample_df.
Proof. apply where_isin_boundary_selections, sample_df_species. Defined.

Example where_isin_sample_gentoo :
  where_isin sample_df "species" ["Gentoo"]
  = Ok [measured "Gentoo" 461 132 4500; measured "Gentoo" 500 163 5700].
Proof. by vm_compute. Qed.

Lemma where_isin_published_counts_witness :
  length published_counts_df = 344
  ∧ ∃ d, where_isin published_counts_df "species" ["Gentoo"] = Ok d
         ∧ length d = 124 ∧ Forall (λ r, species r = "Gentoo") d.
Proof.
  apply where_isin_published_counts; compute_done.
Defined.


Example where_isin_sample_no_column :
  where_isin sample_df "weight" ["Gentoo"] = Err KeyError.
Proof. by vm_compute. Qed.
