(* ===== verification/Ui.v ===== *)
(** * The user interface ([src/app.py], lines 11-39)

    [app_ui] is a tree of tags; [ui.tag] has one constructor per function
    of [shiny.ui] (and [shinywidgets]) the source calls, with the
    arguments the source passes.  From the tree are read: the input
    widgets with their ids, the value each holds when a session starts
    ([initial_value]) and the values it can send ([accepts]); and the
    output placeholders with their ids and kinds. *)

From stdpp Require Import base tactics option list strings numbers.
From S2P Require Import Prelude Python.

#[local] Set Warnings "-register-all".

(** ** Tags *)

Module ui.

Inductive tag : Type :=
| page_fluid (children : list tag)
| layout_sidebar (side : tag) (main : list tag)
| sidebar (children : list tag)
| h2 (text : string)
| input_selectize (id label : string) (choices : list string)
| input_numeric (id label : string) (value : Z)
| input_slider (id label : string) (min max value : Z)
| input_checkbox_group (id label : string) (choices selected : list string)
    (inline : bool)
| layout_columns (children : list tag)
| output_table (id : string)
| output_widget (id : string)
| output_plot (id : string)
| hr
| a (text href target : string).

End ui.

(** Lines 12-39. *)
Definition app_ui : ui.tag :=
  ui.page_fluid [
    ui.layout_sidebar
      (ui.sidebar [
        ui.h2 "Penguin Sidebar";
        ui.input_selectize "selected_attribute" "Select attribute"
          ["bill_length_mm"; "bill_depth_mm"; "body_mass_g"];
        ui.input_numeric "plotly_bin_count" "Plotly Histogram Bins" 50;
        ui.input_slider "seaborn_bin_count" "Seaborn Histogram Bins" 0 100 50;
        ui.input_checkbox_group "selected_species_list" "Filter Species"
          ["Adelie"; "Gentoo"; "Chinstrap"]
          ["Adelie"; "Gentoo"; "Chinstrap"]
          true
      ])
      [ ui.layout_columns [
          ui.output_table "data_table";
          ui.output_table "data_grid"
        ];
        ui.output_widget "plotly_histogram";
        ui.output_plot "seaborn_histogram";
        ui.output_widget "plotly_scatterplot";
        ui.hr;
        ui.a "GitHub" "https://github.com/amrutu75/cintel-02-pages" "_blank"
      ]
  ].

(** ** Reading the tree *)

(** Every tag of a tree, in document order. *)
Fixpoint tags (t : ui.tag) : list ui.tag :=
  t ::
  match t with
  | ui.page_fluid cs | ui.sidebar cs | ui.layout_columns cs => flat_map tags cs
  | ui.layout_sidebar s m => tags s ++ flat_map tags m
  | _ => []
  end.

(** A value an input widget holds or sends. *)
Inductive value : Type :=
| VStr (s : string)
| VNum (n : option number)
| VTuple (l : list string).

#[export] Instance value_eq_dec : EqDecision value.
Proof. solve_decision. Defined.

(** The id of an input widget. *)
Definition input_id_of (t : ui.tag) : option string :=
  match t with
  | ui.input_selectize id _ _ | ui.input_numeric id _ _
  | ui.input_slider id _ _ _ _ | ui.input_checkbox_group id _ _ _ _ => Some id
  | _ => None
  end.

(** The value an input widget holds when the session starts: a selectize
    with no [selected] argument holds its first choice; the others hold
    the value the source passes. *)
Definition initial_value (t : ui.tag) : option value :=
  match t with
  | ui.input_selectize _ _ choices => VStr <$> head choices
  | ui.input_numeric _ _ v => Some (VNum (Some (NInt v)))
  | ui.input_slider _ _ _ _ v => Some (VNum (Some (NInt v)))
  | ui.input_checkbox_group _ _ _ selected _ => Some (VTuple selected)
  | _ => None
  end.

(** The values an input widget can send: one of a selectize's choices; any
    number, or nothing, from a numeric field; an integer within a slider's
    bounds; the ticked choices of a checkbox group, in the group's order. *)
Definition accepts (t : ui.tag) (v : value) : Prop :=
  match t, v with
  | ui.input_selectize _ _ choices, VStr s => s ∈ choices
  | ui.input_numeric _ _ _, VNum _ => True
  | ui.input_slider _ _ lo hi _, VNum (Some (NInt z)) => (lo ≤ z ≤ hi)%Z
  | ui.input_checkbox_group _ _ choices _ _, VTuple l => sublist l choices
  | _, _ => False
  end.

(** The kind of an output placeholder. *)
Inductive placeholder : Type :=
| ph_table
| ph_widget
| ph_plot.

#[export] Instance placeholder_eq_dec : EqDecision placeholder.
Proof. solve_decision. Defined.

Definition output_of (t : ui.tag) : option (string * placeholder) :=
  match t with
  | ui.output_table id => Some (id, ph_table)
  | ui.output_widget id => Some (id, ph_widget)
  | ui.output_plot id => Some (id, ph_plot)
  | _ => None
  end.

(** The input widgets of a page, by id, and its output placeholders. *)
Definition input_widgets (t : ui.tag) : list (string * ui.tag) :=
  omap (λ w, (λ id, (id, w)) <$> input_id_of w) (tags t).

Definition output_placeholders (t : ui.tag) : list (string * placeholder) :=
  omap output_of (tags t).

(** A message of the client: input [id] now holds [v].  It is valid for a
    page when [id] is one of the page's widgets and the widget can send
    [v]. *)
Definition valid_message (page : ui.tag) (id : string) (v : value) : Prop :=
  Exists (λ iw, iw.1 = id ∧ accepts iw.2 v) (input_widgets page).

(** The values the inputs hold when a session starts. *)
Definition initial_values (page : ui.tag) : list (string * value) :=
  omap (λ '(id, w), (λ v, (id, v)) <$> initial_value w) (input_widgets page).

#[export] Instance accepts_dec t v : Decision (accepts t v).
Proof. destruct t, v as [s|[[z|q]|]|l]; simpl; apply _. Defined.

(** A page is well formed when no two input widgets and no two output
    placeholders share an id, and every input widget starts with a value
    it accepts. *)
Definition page_wf (page : ui.tag) : Prop :=
  NoDup (input_widgets page).*1
  ∧ NoDup (output_placeholders page).*1
  ∧ Forall (λ iw, from_option (accepts iw.2) False (initial_value iw.2))
      (input_widgets page).

#[export] Instance starts_accepted_dec (w : ui.tag) :
  Decision (from_option (accepts w) False (initial_value w)).
Proof. destruct (initial_value w); simpl; apply _. Defined.

#[export] Instance page_wf_dec page : Decision (page_wf page).
Proof. unfold page_wf. apply _. Defined.

#[export] Instance valid_message_dec page id v : Decision (valid_message page id v).
Proof. unfold valid_message. apply _. Defined.

(** ** Well-formed pages *)

Section pages.
Implicit Types (page w : ui.tag) (id : string) (v : value).

Lemma input_widgets_spec page id w :
  (id, w) ∈ input_widgets page ↔ w ∈ tags page ∧ input_id_of w = Some id.
Proof.
  unfold input_widgets. rewrite list_elem_of_omap. split.
  - intros (w' & Hw & Hid). destruct (input_id_of w') eqn:E; naive_solver.
  - intros [Hw Hid]. exists w. by rewrite Hid.
Qed.

Lemma valid_message_spec page id v :
  valid_message page id v ↔ ∃ w, (id, w) ∈ input_widgets page ∧ accepts w v.
Proof.
  unfold valid_message. rewrite list.Exists_exists. split.
  - intros ([id' w] & Hw & <- & Hv). eauto.
  - intros (w & Hw & Hv). by exists (id, w).
Qed.

(** On a well-formed page an id names one widget. *)
Lemma page_wf_widget_unique page id w1 w2 :
  page_wf page →
  (id, w1) ∈ input_widgets page → (id, w2) ∈ input_widgets page → w1 = w2.
Proof. intros (Hnd & _). by apply NoDup_fst_functional. Qed.

Lemma initial_values_spec page id v :
  (id, v) ∈ initial_values page ↔
  ∃ w, (id, w) ∈ input_widgets page ∧ initial_value w = Some v.
Proof.
  unfold initial_values. rewrite list_elem_of_omap. split.
  - intros ([id' w] & Hw & Hv). destruct (initial_value w) eqn:E; naive_solver.
  - intros (w & Hw & Hv). exists (id, w). by rewrite Hv.
Qed.

(** On a well-formed page, the value every input starts with is one its
    widget could have sent. *)
Lemma initial_values_valid page id v :
  page_wf page → (id, v) ∈ initial_values page → valid_message page id v.
Proof.
  intros (_ & _ & Hacc) (w & Hw & Hv)%initial_values_spec.
  apply valid_message_spec. exists w. split; [done|].
  rewrite list.Forall_forall in Hacc. specialize (Hacc _ Hw). simpl in Hacc.
  by rewrite Hv in Hacc.
Qed.

(** On a well-formed page every input has an initial value. *)
Lemma initial_values_ids page :
  page_wf page → (initial_values page).*1 = (input_widgets page).*1.
Proof.
  intros (_ & _ & Hacc). unfold initial_values.
  revert Hacc. generalize (input_widgets page) as l.
  induction 1 as [|[id w] l Hw _ IH]; [done|]. csimpl in *.
  destruct (initial_value w); [|done]. csimpl. by f_equal.
Qed.

Lemma app_ui_page_wf : page_wf app_ui.
Proof. compute_done. Qed.

(** C35. The page of the program is well formed: its four inputs and five
    placeholders have distinct ids, the slider's start value is within
    its bounds and the ticked species are among the choices; every input
    has a start value; and each start value is one the widget can send,
    so that a session starts in a state the client can also reach. *)
Theorem app_ui_wf :
  page_wf app_ui
  ∧ (initial_values app_ui).*1 = (input_widgets app_ui).*1
  ∧ ∀ id v, (id, v) ∈ initial_values app_ui → valid_message app_ui id v.
Proof.
  split_and!; [apply app_ui_page_wf | by apply initial_values_ids, app_ui_page_wf|].
  intros id v. apply initial_values_valid, app_ui_page_wf.
Qed.

Example app_ui_inputs :
  (input_widgets app_ui).*1
  = ["selected_attribute"; "plotly_bin_count"; "seaborn_bin_count";
     "selected_species_list"].
Proof. reflexivity. Qed.

Example app_ui_outputs :
  output_placeholders app_ui
  = [("data_table", ph_table); ("data_grid", ph_table);
     ("plotly_histogram", ph_widget); ("seaborn_histogram", ph_plot);
     ("plotly_scatterplot", ph_widget)].
Proof. reflexivity. Qed.

Example app_ui_initial_values :
  initial_values app_ui
  = [("selected_attribute", VStr "bill_length_mm");
     ("plotly_bin_count", VNum (Some (NInt 50)));
     ("seaborn_bin_count", VNum (Some (NInt 50)));
     ("selected_species_list", VTuple ["Adelie"; "Gentoo"; "Chinstrap"])].
Proof. reflexivity. Qed.

End pages.
