(* ===== verification/Reactive.v ===== *)
(** * The reactive engine, as the program relies on it

    [shiny.reactive] is a library the program only calls; this file models
    the part of its contract the program uses (spec sections 4.3 and 9):
    inputs are reactive values, a [@reactive.calc] is a cached derivation,
    an output is re-executed when something it read has changed, and what
    a function reads is discovered while it runs.

    - [InputStore]: what the engine needs of the session's inputs.
    - [inputE], [readE]: the events of a calc and of an output function.
    - [graph]: what [server] registers (calc bodies, output bodies, order).
    - [run_calc], [eval_out]: the reference semantics, no cache.
    - [session], [set_input], [run_output], [flush]: the engine with its
      caches, dependency sets and pending outputs. *)

From stdpp Require Import base tactics option list strings gmap.
From S2P Require Import Prelude.

#[local] Set Warnings "-clear-no-such-hyp".

(** ** The session's inputs *)

(** Inputs are named by [I]; input [i] holds a value of type [ity i].  The
    engine reads and writes them through this interface only. *)
Class InputStore (I : Type) (ity : I → Type) (Env : Type) : Type := {
  input_get : ∀ i, Env → ity i;
  input_set : ∀ i, ity i → Env → Env;
  input_get_set_eq i v env : input_get i (input_set i v env) = v;
  input_get_set_ne i j v env : i ≠ j → input_get j (input_set i v env) = input_get j env;
}.

(** ** Events *)

(** A calc reads inputs: [input.<i>()]. *)
Inductive inputE {I : Type} (ity : I → Type) : Type → Type :=
| InputE (i : I) : inputE ity (ity i).
Arguments InputE {I ity} i.

(** An output function reads inputs and calls calcs: [input.<i>()], [c()].
    It may also call a library for its effect on a state of the library's
    own; the engine knows nothing of such a call, which is recorded by
    the name of the function called. *)
Inductive readE {I : Type} (ity : I → Type) (C CV : Type) : Type → Type :=
| ReadInput (i : I) : readE ity C CV (ity i)
| ReadCalc (c : C) : readE ity C CV CV
| Effect (name : string) : readE ity C CV unit.
Arguments ReadInput {I ity C CV} i.
Arguments ReadCalc {I ity C CV} c.
Arguments Effect {I ity C CV} name.

(** What [server] registers with the engine: the body of each calc, the
    body of each output, and the outputs in registration order. *)
Record graph {I : Type} (ity : I → Type) (C CV O OV : Type) : Type := Graph {
  calc_body : C → rx (inputE ity) CV;
  out_body : O → rx (readE ity C CV) OV;
  registry : list O;
}.
Arguments Graph {I ity C CV O OV} calc_body out_body registry.
Arguments calc_body {I ity C CV O OV} g c.
Arguments out_body {I ity C CV O OV} g o.
Arguments registry {I ity C CV O OV} g.

(** The cached execution of a calc: its outcome and the inputs it read. *)
Record calc_node (I : Type) `{Countable I} (CV : Type) : Type := CalcNode {
  cn_value : result CV;
  cn_deps : gset I;
}.
Arguments CalcNode {I _ _ CV} cn_value cn_deps.
Arguments cn_value {I _ _ CV} _.
Arguments cn_deps {I _ _ CV} _.

(** The last execution of an output: its outcome, the inputs it read and
    the calcs it called. *)
Record out_node (I C : Type) `{Countable I, Countable C} (OV : Type) : Type := OutNode {
  on_value : result OV;
  on_ideps : gset I;
  on_cdeps : gset C;
}.
Arguments OutNode {I C _ _ _ _ OV} on_value on_ideps on_cdeps.
Arguments on_value {I C _ _ _ _ OV} _.
Arguments on_ideps {I C _ _ _ _ OV} _.
Arguments on_cdeps {I C _ _ _ _ OV} _.

Section engine.
Context {I : Type} {EqI : EqDecision I} {CntI : Countable I}.
Context {ity : I → Type} {Env : Type} {Store : InputStore I ity Env}.
Context {C : Type} {EqC : EqDecision C} {CntC : Countable C} {CV : Type}.
Context {O : Type} {EqO : EqDecision O} {CntO : Countable O} {OV : Type}.
Context (g : graph ity C CV O OV).

(** Two stores agree on a set of inputs. *)
Definition agree_on (D : gset I) (env1 env2 : Env) : Prop :=
  ∀ i, i ∈ D → input_get i env1 = input_get i env2.

(** ** Reference semantics: run a function on the current inputs *)

(** Answer an input read and record it. *)
Definition h_input (env : Env) : handler (inputE ity) (gset I) :=
  λ X ev deps,
    match ev in inputE _ X return gset I * result X with
    | InputE i => ({[i]} ∪ deps, Ok (input_get i env))
    end.

(** One execution of calc [c]: the inputs it read, and its outcome. *)
Definition run_calc (env : Env) (c : C) : gset I * result CV :=
  interp (h_input env) (calc_body g c) ∅.

Definition fresh_node (env : Env) (c : C) : calc_node I CV :=
  CalcNode (run_calc env c).2 (run_calc env c).1.

(** Answer a read with every calc executed afresh; record what is read. *)
Definition h_pure (env : Env) : handler (readE ity C CV) (gset I * gset C) :=
  λ X ev deps,
    match ev in readE _ _ _ X return (gset I * gset C) * result X with
    | ReadInput i => (({[i]} ∪ deps.1, deps.2), Ok (input_get i env))
    | ReadCalc c => ((deps.1, {[c]} ∪ deps.2), (run_calc env c).2)
    | Effect _ => (deps, Ok ())
    end.

(** One execution of output [o] with no cache: what the output is, as a
    function of the inputs alone. *)
Definition eval_out (env : Env) (o : O) : (gset I * gset C) * result OV :=
  interp (h_pure env) (out_body g o) (∅, ∅).

Definition fresh_out (env : Env) (o : O) : out_node I C OV :=
  OutNode (eval_out env o).2 (eval_out env o).1.1 (eval_out env o).1.2.

(** Answer a read as [h_pure] does and log the library calls made for
    their effect, in order. *)
Definition h_effects (env : Env) : handler (readE ity C CV) (list string) :=
  λ X ev log,
    match ev in readE _ _ _ X return list string * result X with
    | ReadInput i => (log, Ok (input_get i env))
    | ReadCalc c => (log, (run_calc env c).2)
    | Effect name => (log ++ [name], Ok ())
    end.

(** The effects of one execution of output [o] on the store [env]: the
    library calls it makes before it returns or raises. *)
Definition out_effects (env : Env) (o : O) : list string :=
  (interp (h_effects env) (out_body g o) []).1.

(** The inputs output [o] depends on when the store is [env]: those it
    reads itself and those the calcs it calls read. *)
Definition out_depends (env : Env) (o : O) : gset I :=
  (eval_out env o).1.1
  ∪ ⋃ ((λ c, (run_calc env c).1) <$> elements (eval_out env o).1.2).

(** ** The engine: caches, dependency sets, pending outputs *)

(** The state of one execution of an output function: the calc cache, the
    inputs and calcs read so far, how often each calc body has run, and
    the library calls made for their effect. *)
Record rstate : Type := RState {
  rs_cache : gmap C (calc_node I CV);
  rs_ideps : gset I;
  rs_cdeps : gset C;
  rs_runs : gmap C nat;
  rs_effects : list string;
}.

(** Execution counters (ghost state: they record recomputation). *)
Definition count_of {K} `{Countable K} (k : K) (m : gmap K nat) : nat :=
  default 0 (m !! k).

Definition bump {K} `{Countable K} (k : K) (m : gmap K nat) : gmap K nat :=
  <[k := S (count_of k m)]> m.

(** Answer a read as the engine does: an input from the store; a calc from
    its cache, or by running its body once and caching the outcome, an
    exception included.  Either way the read is recorded. *)
Definition h_read (env : Env) : handler (readE ity C CV) rstate :=
  λ X ev st,
    match ev in readE _ _ _ X return rstate * result X with
    | ReadInput i =>
        (RState (rs_cache st) ({[i]} ∪ rs_ideps st) (rs_cdeps st) (rs_runs st)
           (rs_effects st),
         Ok (input_get i env))
    | ReadCalc c =>
        match rs_cache st !! c with
        | Some n =>
            (RState (rs_cache st) (rs_ideps st) ({[c]} ∪ rs_cdeps st) (rs_runs st)
               (rs_effects st),
             cn_value n)
        | None =>
            let n := fresh_node env c in
            (RState (<[c := n]> (rs_cache st)) (rs_ideps st) ({[c]} ∪ rs_cdeps st)
               (bump c (rs_runs st)) (rs_effects st),
             cn_value n)
        end
    | Effect name =>
        (RState (rs_cache st) (rs_ideps st) (rs_cdeps st) (rs_runs st)
           (rs_effects st ++ [name]),
         Ok ())
    end.

(** One execution of an output, as the log of a session keeps it: the
    output, the library calls it made for their effect, its outcome. *)
Record execution : Type := Execution {
  ex_output : O;
  ex_effects : list string;
  ex_outcome : result OV;
}.

(** One session.  [calcs] and [outs] hold the executions that are still
    valid: an invalidated calc or output has no entry (the output is then
    pending).  [shown] is what the client displays: the last outcome sent
    for each output, stale while the output is pending.  The counters
    and [log], the executions that have taken place, oldest first, are
    ghost state: nothing the engine does depends on them. *)
Record session : Type := Session {
  inputs : Env;
  calcs : gmap C (calc_node I CV);
  outs : gmap O (out_node I C OV);
  shown : gmap O (result OV);
  calc_runs : gmap C nat;
  out_runs : gmap O nat;
  log : list execution;
}.

(** A new session: nothing has run, every output is pending. *)
Definition init (env : Env) : session := Session env ∅ ∅ ∅ ∅ ∅ [].

Definition pending (s : session) (o : O) : Prop := outs s !! o = None.

(** Input [i] changed: drop every calc that read it, then every output
    that read it or called a dropped calc. *)
Definition invalidate (i : I) (s : session) : session :=
  let calcs' := filter (λ kv, i ∉ cn_deps (kv.2)) (calcs s) in
  let outs' :=
    filter (λ kv, (i ∉ on_ideps (kv.2)) ∧ (on_cdeps (kv.2) ⊆ dom calcs')) (outs s) in
  Session (inputs s) calcs' outs' (shown s) (calc_runs s) (out_runs s) (log s).

(** A write to input [i]: store the value, invalidate what read [i]. *)
Definition set_input (i : I) (v : ity i) (s : session) : session :=
  invalidate i
    (Session (input_set i v (inputs s)) (calcs s) (outs s) (shown s)
       (calc_runs s) (out_runs s) (log s)).

(** Execute output [o]: run its body against the store and the calc
    cache, record what it read, send the outcome to the client. *)
Definition run_output (o : O) (s : session) : session :=
  let '(st, r) :=
    interp (h_read (inputs s)) (out_body g o) (RState (calcs s) ∅ ∅ (calc_runs s) []) in
  Session (inputs s) (rs_cache st)
    (<[o := OutNode r (rs_ideps st) (rs_cdeps st)]> (outs s))
    (<[o := r]> (shown s)) (rs_runs st) (bump o (out_runs s))
    (log s ++ [Execution o (rs_effects st) r]).

(** The execution of output [o] on the store [env], by the reference
    semantics. *)
Definition fresh_execution (env : Env) (o : O) : execution :=
  Execution o (out_effects env o) (eval_out env o).2.

(** A flush executes the pending outputs, in registration order. *)
Definition flush_one (s : session) (o : O) : session :=
  match outs s !! o with
  | Some _ => s
  | None => run_output o s
  end.

Definition flush (s : session) : session := foldl flush_one s (registry g).

(** The session's transitions: the client writes an input, or the engine
    flushes. *)
Inductive step : session → session → Prop :=
| step_set_input i v s : step s (set_input i v s)
| step_flush s : step s (flush s).

(** A history of the session, as a list of events to replay. *)
Inductive event : Type :=
| EvSet (i : I) (v : ity i)
| EvFlush.

Definition apply_event (s : session) (ev : event) : session :=
  match ev with
  | EvSet i v => set_input i v s
  | EvFlush => flush s
  end.

Definition run_events (s : session) (evs : list event) : session :=
  foldl apply_event s evs.

(** The store after the writes of a history. *)
Definition write_event (env : Env) (ev : event) : Env :=
  match ev with
  | EvSet i v => input_set i v env
  | EvFlush => env
  end.

Definition inputs_after (env : Env) (evs : list event) : Env :=
  foldl write_event env evs.

(** ** The invariant: every valid entry is what a fresh execution on the
    current inputs would produce *)

Record coherent (s : session) : Prop := Coherent {
  coh_calc c n : calcs s !! c = Some n → n = fresh_node (inputs s) c;
  coh_out o n : outs s !! o = Some n → n = fresh_out (inputs s) o;
  coh_cdeps o n : outs s !! o = Some n → on_cdeps n ⊆ dom (calcs s);
  coh_shown o n : outs s !! o = Some n → shown s !! o = Some (on_value n);
}.

(** ** Notions the theorems are stated with *)

(** The inputs an output depends on: those it read itself and those read
    by the calcs it called. *)
Definition agree_on_reads (env1 env2 : Env) (dp : gset I * gset C) : Prop :=
  agree_on dp.1 env1 env2 ∧ ∀ c, c ∈ dp.2 → agree_on (run_calc env1 c).1 env1 env2.

(** Every cached calc holds what its body computes on [env]. *)
Definition cache_ok (env : Env) (cache : gmap C (calc_node I CV)) : Prop :=
  ∀ c n, cache !! c = Some n → n = fresh_node env c.

(** The number of times a calc's body runs during one execution: once if
    the execution put it in the cache, never otherwise. *)
Definition newly_cached (c : C) (before after : gmap C (calc_node I CV)) : nat :=
  if decide (c ∈ dom after ∧ c ∉ dom before) then 1 else 0.

(** How often output [o] is executed by a flush over the outputs [l]:
    once if it is among them and pending, never otherwise. *)
Definition executed (o : O) (l : list O) (s : session) : nat :=
  if decide (o ∈ l ∧ o ∉ dom (outs s)) then 1 else 0.

End engine.

(** ** What a function reads determines its outcome *)

Section reads.
Context {I : Type} {EqI : EqDecision I} {CntI : Countable I}.
Context {ity : I → Type} {Env : Type} {Store : InputStore I ity Env}.
Context {C : Type} {EqC : EqDecision C} {CntC : Countable C} {CV : Type}.
Context {O : Type} {EqO : EqDecision O} {CntO : Countable O} {OV : Type}.
Context (g : graph ity C CV O OV).
Implicit Types (env : Env) (D : gset I) (c : C) (o : O) (i : I).

Lemma agree_on_refl D env : agree_on D env env.
Proof. by intros i _. Qed.

Lemma agree_on_mono D D' env1 env2 :
  D' ⊆ D → agree_on D env1 env2 → agree_on D' env1 env2.
Proof. intros HD Ha i Hi. apply Ha. set_solver. Qed.

Lemma agree_on_union D D' env1 env2 :
  agree_on (D ∪ D') env1 env2 ↔ agree_on D env1 env2 ∧ agree_on D' env1 env2.
Proof. unfold agree_on. set_solver. Qed.

(** Writing input [i] leaves every set of inputs without [i] unchanged. *)
Lemma agree_on_input_set D env i (v : ity i) :
  i ∉ D → agree_on D env (input_set i v env).
Proof.
  intros Hi j Hj. rewrite input_get_set_ne; [done|]. intros ->. done.
Qed.

(** The reads of an execution add to the reads before it. *)
Lemma interp_h_input_acc {A} (m : rx (inputE ity) A) env D :
  interp (h_input env) m D
  = (D ∪ (interp (h_input env) m ∅).1, (interp (h_input env) m ∅).2).
Proof.
  revert D; induction m as [a|e|X ev k IH]; intros D; simpl.
  1,2: f_equal; set_solver.
  destruct ev as [i]; simpl. rewrite IH, (IH _ ({[i]} ∪ ∅)). simpl.
  f_equal. set_solver.
Qed.

(** If two stores agree on what an execution reads, it runs alike on both. *)
Lemma interp_h_input_agree {A} (m : rx (inputE ity) A) env1 env2 D :
  agree_on (interp (h_input env1) m D).1 env1 env2 →
  interp (h_input env2) m D = interp (h_input env1) m D.
Proof.
  revert D; induction m as [a|e|X ev k IH]; intros D; simpl; [done..|].
  destruct ev as [i]; simpl. intros Ha.
  rewrite <- (Ha i); [by apply IH|].
  rewrite interp_h_input_acc. simpl. set_solver.
Qed.

Lemma run_calc_agree env1 env2 c :
  agree_on (run_calc g env1 c).1 env1 env2 → run_calc g env2 c = run_calc g env1 c.
Proof. unfold run_calc. apply interp_h_input_agree. Qed.

Lemma fresh_node_agree env1 env2 c :
  agree_on (cn_deps (fresh_node g env1 c)) env1 env2 →
  fresh_node g env2 c = fresh_node g env1 c.
Proof. intros Ha. unfold fresh_node. by rewrite (run_calc_agree env1 env2). Qed.

Lemma interp_h_pure_acc {A} (m : rx (readE ity C CV) A) env (dp : gset I * gset C) :
  interp (h_pure g env) m dp
  = ((dp.1 ∪ (interp (h_pure g env) m (∅, ∅)).1.1,
      dp.2 ∪ (interp (h_pure g env) m (∅, ∅)).1.2),
     (interp (h_pure g env) m (∅, ∅)).2).
Proof.
  revert dp; induction m as [a|e|X ev k IH]; intros [D1 D2]; simpl.
  1,2: do 2 f_equal; set_solver.
  destruct ev as [i|c|name]; simpl.
  - rewrite IH, (IH _ ({[i]} ∪ ∅, ∅)). simpl. do 2 f_equal; set_solver.
  - destruct (run_calc g env c).2 as [x|e]; simpl; [|do 2 f_equal; set_solver].
    rewrite IH, (IH _ (∅, {[c]} ∪ ∅)). simpl. do 2 f_equal; set_solver.
  - apply IH.
Qed.

Lemma interp_h_pure_agree {A} (m : rx (readE ity C CV) A) env1 env2 dp :
  agree_on_reads g env1 env2 (interp (h_pure g env1) m dp).1 →
  interp (h_pure g env2) m dp = interp (h_pure g env1) m dp.
Proof.
  revert dp; induction m as [a|e|X ev k IH]; intros dp; simpl; [done..|].
  destruct ev as [i|c|name]; simpl.
  - intros Ha. rewrite <- (proj1 Ha i); [by apply IH|].
    rewrite interp_h_pure_acc. simpl. set_solver.
  - intros Ha. rewrite (run_calc_agree env1 env2 c).
    + destruct (run_calc g env1 c).2; [by apply IH | done].
    + apply Ha. destruct (run_calc g env1 c).2; simpl; [|set_solver].
      rewrite interp_h_pure_acc. simpl. set_solver.
  - apply IH.
Qed.

(** The log of effects does not change what an execution computes. *)
Lemma interp_h_effects_outcome {A} (m : rx (readE ity C CV) A) env log dp :
  (interp (h_effects g env) m log).2 = (interp (h_pure g env) m dp).2.
Proof.
  revert log dp; induction m as [a|e|X ev k IH]; intros log dp; simpl; [done..|].
  destruct ev as [i|c|name]; simpl; [apply IH| |apply IH].
  destruct (run_calc g env c).2; [apply IH | done].
Qed.

(** The effects of an execution add to the log it starts with. *)
Lemma interp_h_effects_acc {A} (m : rx (readE ity C CV) A) env log :
  interp (h_effects g env) m log
  = (log ++ (interp (h_effects g env) m []).1, (interp (h_effects g env) m []).2).
Proof.
  revert log; induction m as [a|e|X ev k IH]; intros log; simpl.
  1,2: by rewrite app_nil_r.
  destruct ev as [i|c|name]; simpl; [apply IH| |].
  - destruct (run_calc g env c).2; [apply IH | by rewrite app_nil_r].
  - rewrite IH, (IH () [name]). simpl. by rewrite <- app_assoc.
Qed.

(** If two stores agree on what an execution reads, it has the same
    effects on both. *)
Lemma interp_h_effects_agree {A} (m : rx (readE ity C CV) A) env1 env2 log dp :
  agree_on_reads g env1 env2 (interp (h_pure g env1) m dp).1 →
  interp (h_effects g env2) m log = interp (h_effects g env1) m log.
Proof.
  revert log dp; induction m as [a|e|X ev k IH]; intros log dp; simpl; [done..|].
  destruct ev as [i|c|name]; simpl.
  - intros Ha. rewrite <- (proj1 Ha i); [by eapply IH|].
    rewrite interp_h_pure_acc. simpl. set_solver.
  - intros Ha. rewrite (run_calc_agree env1 env2 c).
    + destruct (run_calc g env1 c).2; [by eapply IH | done].
    + apply Ha. destruct (run_calc g env1 c).2; simpl; [|set_solver].
      rewrite interp_h_pure_acc. simpl. set_solver.
  - apply IH.
Qed.

Lemma out_effects_agree env1 env2 o :
  agree_on_reads g env1 env2 (eval_out g env1 o).1 →
  out_effects g env2 o = out_effects g env1 o.
Proof.
  intros Ha. unfold out_effects. by rewrite (interp_h_effects_agree _ env1 env2 [] (∅, ∅)).
Qed.

Lemma eval_out_agree env1 env2 o :
  agree_on_reads g env1 env2 (eval_out g env1 o).1 →
  eval_out g env2 o = eval_out g env1 o.
Proof. unfold eval_out. apply interp_h_pure_agree. Qed.

End reads.

(** ** The cache does not change what a function computes *)

Section cache.
Context {I : Type} {EqI : EqDecision I} {CntI : Countable I}.
Context {ity : I → Type} {Env : Type} {Store : InputStore I ity Env}.
Context {C : Type} {EqC : EqDecision C} {CntC : Countable C} {CV : Type}.
Context {O : Type} {EqO : EqDecision O} {CntO : Countable O} {OV : Type}.
Context (g : graph ity C CV O OV).
Implicit Types (env : Env) (c : C) (o : O) (i : I).
Implicit Types (cache : gmap C (calc_node I CV)) (st : rstate (I:=I) (C:=C) (CV:=CV)).

Lemma cache_ok_empty env : cache_ok g env ∅.
Proof. by intros c n. Qed.

Lemma cache_ok_insert env cache c :
  cache_ok g env cache → cache_ok g env (<[c := fresh_node g env c]> cache).
Proof.
  intros Hok c' n. rewrite lookup_insert. case_decide; [naive_solver | apply Hok].
Qed.

(** An execution against a sound cache computes what the reference
    semantics computes, reads what it reads, and leaves a sound cache that
    extends the one it started from and covers the calcs it called. *)
Lemma interp_h_read_sim {A} (m : rx (readE ity C CV) A) env st st' r :
  cache_ok g env (rs_cache st) →
  interp (h_read g env) m st = (st', r) →
  interp (h_pure g env) m (rs_ideps st, rs_cdeps st) = ((rs_ideps st', rs_cdeps st'), r)
  ∧ cache_ok g env (rs_cache st')
  ∧ rs_cache st ⊆ rs_cache st'
  ∧ (rs_cdeps st ⊆ dom (rs_cache st) → rs_cdeps st' ⊆ dom (rs_cache st')).
Proof.
  revert st; induction m as [a|e|X ev k IH]; intros st Hok; simpl.
  1,2: by intros [= <- <-].
  destruct ev as [i|c|name]; simpl.
  1,3: intros Hrun; by apply IH in Hrun.
  destruct (rs_cache st !! c) as [n|] eqn:Hc.
  - assert ((run_calc g env c).2 = cn_value n) as -> by by rewrite (Hok c n Hc).
    destruct (cn_value n) as [x|e].
    + intros (?&?&?&Hd)%IH; [|done]. simpl in *. split_and!; try done.
      intros Hs. apply Hd. apply elem_of_dom_2 in Hc. set_solver.
    + intros [= <- <-]. simpl. split_and!; try done.
      apply elem_of_dom_2 in Hc. set_solver.
  - assert (rs_cache st ⊆ <[c:=fresh_node g env c]> (rs_cache st))
      by by apply insert_subseteq.
    destruct (run_calc g env c).2 as [x|e].
    + intros (?&?&?&Hd)%IH; [|by apply cache_ok_insert].
      simpl in *. split_and!; try done; [by etrans|].
      intros Hs. apply Hd. rewrite dom_insert. set_solver.
    + intros [= <- <-]. simpl. split_and!; try done; [by apply cache_ok_insert|].
      rewrite dom_insert. set_solver.
Qed.

(** An execution against a sound cache makes the library calls the
    reference semantics makes, in the same order. *)
Lemma interp_h_read_effects {A} (m : rx (readE ity C CV) A) env st st' r :
  cache_ok g env (rs_cache st) →
  interp (h_read g env) m st = (st', r) →
  rs_effects st' = rs_effects st ++ (interp (h_effects g env) m []).1.
Proof.
  revert st; induction m as [a|e|X ev k IH]; intros st Hok; simpl.
  1,2: intros [= <- <-]; by rewrite app_nil_r.
  destruct ev as [i|c|name]; simpl.
  - intros Hrun. by apply IH in Hrun.
  - destruct (rs_cache st !! c) as [n|] eqn:Hc.
    + assert ((run_calc g env c).2 = cn_value n) as -> by by rewrite (Hok c n Hc).
      destruct (cn_value n); [by intros ?%IH | intros [= <- <-]; by rewrite app_nil_r].
    + destruct (run_calc g env c).2.
      * intros Hrun. apply IH in Hrun; [done | by apply cache_ok_insert].
      * intros [= <- <-]. by rewrite app_nil_r.
  - intros Hrun. apply IH in Hrun; [|done]. simpl in Hrun.
    by rewrite Hrun, (interp_h_effects_acc g _ env [name]), <- app_assoc.
Qed.

(** An execution caches nothing but the calcs it calls. *)
Lemma interp_h_read_dom {A} (m : rx (readE ity C CV) A) env st st' r :
  interp (h_read g env) m st = (st', r) →
  rs_cdeps st ⊆ rs_cdeps st'
  ∧ dom (rs_cache st') ⊆ dom (rs_cache st) ∪ rs_cdeps st'.
Proof.
  revert st; induction m as [a|e|X ev k IH]; intros st; simpl.
  1,2: intros [= <- <-]; set_solver.
  destruct ev as [i|c|name]; simpl; [by intros ?%IH| |by intros ?%IH].
  destruct (rs_cache st !! c) as [n|] eqn:Hc.
  - destruct (cn_value n).
    + intros [??]%IH. simpl in *. set_solver.
    + intros [= <- <-]. simpl. set_solver.
  - destruct (run_calc g env c).2.
    + intros [??]%IH. simpl in *. rewrite dom_insert in *. set_solver.
    + intros [= <- <-]. simpl. rewrite dom_insert. set_solver.
Qed.

End cache.

(** ** The engine preserves the invariant *)

Section session.
Context {I : Type} {EqI : EqDecision I} {CntI : Countable I}.
Context {ity : I → Type} {Env : Type} {Store : InputStore I ity Env}.
Context {C : Type} {EqC : EqDecision C} {CntC : Countable C} {CV : Type}.
Context {O : Type} {EqO : EqDecision O} {CntO : Countable O} {OV : Type}.
Context (g : graph ity C CV O OV).
Implicit Types (env : Env) (c : C) (o : O) (i : I).
Implicit Types (s : session (I:=I) (Env:=Env) (C:=C) (CV:=CV) (O:=O) (OV:=OV)).

Lemma init_coherent env : coherent g (init env).
Proof. split; simpl; intros ??; by rewrite lookup_empty. Qed.

(** What one execution of an output does to the session, in terms of the
    reference semantics. *)
Lemma run_output_spec o s :
  coherent g s →
  inputs (run_output g o s) = inputs s
  ∧ outs (run_output g o s) = <[o := fresh_out g (inputs s) o]> (outs s)
  ∧ shown (run_output g o s) = <[o := (eval_out g (inputs s) o).2]> (shown s)
  ∧ cache_ok g (inputs s) (calcs (run_output g o s))
  ∧ calcs s ⊆ calcs (run_output g o s)
  ∧ (eval_out g (inputs s) o).1.2 ⊆ dom (calcs (run_output g o s)).
Proof.
  intros Hs. unfold run_output.
  destruct (interp _ _ _) as [st r] eqn:Hrun.
  apply interp_h_read_sim in Hrun as (Hp & ? & ? & Hd); [|exact (coh_calc g s Hs)].
  simpl in *.
  unfold fresh_out, eval_out. rewrite Hp. split_and!; try done. by apply Hd.
Qed.

(** An execution caches exactly the calcs its output calls, besides those
    that were cached. *)
Lemma run_output_calcs_dom o s :
  coherent g s →
  dom (calcs (run_output g o s)) = dom (calcs s) ∪ (eval_out g (inputs s) o).1.2.
Proof.
  intros Hs. apply set_eq. intros c. split.
  - unfold run_output, eval_out.
    destruct (interp (h_read _ _) _ _) as [st r] eqn:Hrun.
    pose proof Hrun as (Hp & _)%interp_h_read_sim; [|exact (coh_calc g s Hs)].
    apply interp_h_read_dom in Hrun as [_ Hd]. simpl in *. rewrite Hp. simpl.
    intros Hc%Hd. set_solver.
  - destruct (run_output_spec o s Hs) as (_ & _ & _ & _ & Hsub%subseteq_dom & Hd).
    set_solver.
Qed.

Lemma run_output_coherent o s : coherent g s → coherent g (run_output g o s).
Proof.
  intros Hs. destruct (run_output_spec o s Hs) as (Hi & Ho & Hsh & Hok & Hsub & Hd).
  split; rewrite ?Hi, ?Ho, ?Hsh.
  - apply Hok.
  - intros o' n. rewrite lookup_insert. case_decide; [naive_solver | apply Hs].
  - intros o' n. rewrite lookup_insert. case_decide.
    + intros [= <-]. apply Hd.
    + intros Hn%(coh_cdeps g s Hs). apply subseteq_dom in Hsub. set_solver.
  - intros o' n. rewrite !lookup_insert. case_decide.
    + by intros [= <-].
    + apply Hs.
Qed.

Lemma set_input_coherent i (v : ity i) s : coherent g s → coherent g (set_input i v s).
Proof.
  intros Hs. split; simpl.
  - intros c n [Hc Hi]%map_lookup_filter_Some. simpl in Hi.
    rewrite (coh_calc g s Hs c n Hc) in Hi |- *. symmetry.
    by apply fresh_node_agree, agree_on_input_set.
  - intros o n (Ho & Hi & Hd)%map_lookup_filter_Some. simpl in Hi, Hd.
    rewrite (coh_out g s Hs o n Ho) in Hi, Hd |- *. symmetry. unfold fresh_out.
    rewrite (eval_out_agree g (inputs s)); [done|]. split.
    + by apply agree_on_input_set.
    + intros c [n' [Hc Hn']%map_lookup_filter_Some]%Hd%elem_of_dom.
      simpl in Hn'. rewrite (coh_calc g s Hs c n' Hc) in Hn'.
      by apply agree_on_input_set.
  - by intros o n (Ho & Hi & Hd)%map_lookup_filter_Some.
  - intros o n (Ho & _)%map_lookup_filter_Some. by apply Hs.
Qed.

Lemma flush_one_coherent s o : coherent g s → coherent g (flush_one g s o).
Proof.
  intros Hs. unfold flush_one. destruct (outs s !! o); [done|].
  by apply run_output_coherent.
Qed.

Lemma foldl_flush_one_coherent (l : list O) s :
  coherent g s → coherent g (foldl (flush_one g) s l).
Proof.
  revert s; induction l as [|o l IH]; intros s Hs; [done|].
  simpl. by apply IH, flush_one_coherent.
Qed.

Lemma flush_coherent s : coherent g s → coherent g (flush g s).
Proof. apply foldl_flush_one_coherent. Qed.

(** Every reachable session is coherent. *)
Lemma step_coherent s s' : step g s s' → coherent g s → coherent g s'.
Proof.
  destruct 1; [apply set_input_coherent | apply flush_coherent].
Qed.

Lemma reachable_coherent env s : rtc (step g) (init env) s → coherent g s.
Proof.
  apply rtc_invariant; [apply init_coherent | apply step_coherent].
Qed.

End session.

#[export] Hint Resolve init_coherent run_output_coherent set_input_coherent
  flush_one_coherent flush_coherent reachable_coherent : engine.

(** ** After a flush the client shows the reference semantics *)

Section refinement.
Context {I : Type} {EqI : EqDecision I} {CntI : Countable I}.
Context {ity : I → Type} {Env : Type} {Store : InputStore I ity Env}.
Context {C : Type} {EqC : EqDecision C} {CntC : Countable C} {CV : Type}.
Context {O : Type} {EqO : EqDecision O} {CntO : Countable O} {OV : Type}.
Context (g : graph ity C CV O OV).
Implicit Types (env : Env) (c : C) (o : O) (i : I).
Implicit Types (s : session (I:=I) (Env:=Env) (C:=C) (CV:=CV) (O:=O) (OV:=OV)).

Lemma inputs_run_output o s : inputs (run_output g o s) = inputs s.
Proof. unfold run_output. by destruct (interp _ _ _). Qed.

Lemma inputs_flush_one s o : inputs (flush_one g s o) = inputs s.
Proof. unfold flush_one. destruct (outs s !! o); [done | apply inputs_run_output]. Qed.

Lemma inputs_flush s : inputs (flush g s) = inputs s.
Proof.
  unfold flush. generalize (registry g) as l. intros l; revert s.
  induction l as [|o l IH]; intros s; [done|]. simpl. by rewrite IH, inputs_flush_one.
Qed.

Lemma inputs_set_input i (v : ity i) s :
  inputs (set_input i v s) = input_set i v (inputs s).
Proof. done. Qed.

(** An execution adds its output to the valid ones and removes none. *)
Lemma flush_one_dom s o :
  coherent g s → dom (outs (flush_one g s o)) = {[o]} ∪ dom (outs s).
Proof.
  intros Hs. unfold flush_one. destruct (outs s !! o) eqn:Ho.
  - apply elem_of_dom_2 in Ho. set_solver.
  - destruct (run_output_spec g o s Hs) as (_ & -> & _). by rewrite dom_insert_L.
Qed.

Lemma foldl_flush_one_dom (l : list O) s :
  coherent g s →
  dom (outs (foldl (flush_one g) s l)) = list_to_set l ∪ dom (outs s).
Proof.
  revert s; induction l as [|o l IH]; intros s Hs; simpl; [set_solver|].
  rewrite IH by engine_auto.
  rewrite flush_one_dom by done. set_solver.
Qed.

(** ** The log of executions *)

(** An execution adds to the log what the reference semantics says of
    it: the engine's cache changes neither its effects nor its outcome. *)
Lemma log_run_output o s :
  coherent g s → log (run_output g o s) = log s ++ [fresh_execution g (inputs s) o].
Proof.
  intros Hs. unfold run_output, fresh_execution, out_effects, eval_out.
  destruct (interp (h_read _ _) _ _) as [st r] eqn:Hrun.
  pose proof Hrun as He. apply interp_h_read_effects in He; [|exact (coh_calc g s Hs)].
  apply interp_h_read_sim in Hrun as (Hp & _); [|exact (coh_calc g s Hs)].
  simpl in *. by rewrite He, Hp.
Qed.

Lemma log_set_input i (v : ity i) s : log (set_input i v s) = log s.
Proof. done. Qed.

(** What holds of the executions so far and of every execution on the
    current store holds of the executions after a flush. *)
Lemma foldl_flush_one_log_Forall (P : execution → Prop) (l : list O) s :
  coherent g s → (∀ o, P (fresh_execution g (inputs s) o)) →
  Forall P (log s) → Forall P (log (foldl (flush_one g) s l)).
Proof.
  revert s; induction l as [|o l IH]; intros s Hs HP Hlog; [done|].
  simpl. apply IH; [engine_auto | by rewrite inputs_flush_one|].
  unfold flush_one. destruct (outs s !! o); [done|].
  rewrite log_run_output by done. apply Forall_app. by repeat constructor.
Qed.

(** The log only grows. *)
Lemma foldl_flush_one_log_prefix (l : list O) s :
  log s `prefix_of` log (foldl (flush_one g) s l).
Proof.
  revert s; induction l as [|o l IH]; intros s; [done|].
  simpl. etrans; [|apply IH]. unfold flush_one. destruct (outs s !! o); [done|].
  unfold run_output. destruct (interp _ _ _). simpl. by apply prefix_app_r.
Qed.

(** A flush executes every pending output it comes to, on the store of
    the session. *)
Lemma foldl_flush_one_log_elem (l : list O) s o :
  coherent g s → o ∈ l → pending s o →
  fresh_execution g (inputs s) o ∈ log (foldl (flush_one g) s l).
Proof.
  revert s; induction l as [|o' l IH]; intros s Hs Ho Hp; [by apply elem_of_nil in Ho|].
  simpl. destruct (decide (o' = o)) as [->|Hne].
  - eapply elem_of_prefix; [|apply foldl_flush_one_log_prefix].
    unfold flush_one. rewrite Hp, log_run_output by done. set_solver.
  - rewrite <- (inputs_flush_one s o'). apply IH; [engine_auto | set_solver |].
    apply not_elem_of_dom. rewrite flush_one_dom by done.
    apply not_elem_of_dom in Hp. set_solver.
Qed.

Lemma flush_log_Forall (P : execution → Prop) s :
  coherent g s → (∀ o, P (fresh_execution g (inputs s) o)) →
  Forall P (log s) → Forall P (log (flush g s)).
Proof. apply foldl_flush_one_log_Forall. Qed.

Lemma flush_log_elem s o :
  coherent g s → o ∈ registry g → pending s o →
  fresh_execution g (inputs s) o ∈ log (flush g s).
Proof. apply foldl_flush_one_log_elem. Qed.

(** A flush leaves no registered output pending. *)
Lemma flush_no_pending s o :
  coherent g s → o ∈ registry g → ¬ pending (flush g s) o.
Proof.
  intros Hs Ho. unfold pending. rewrite <- not_elem_of_dom.
  unfold flush. rewrite foldl_flush_one_dom by done. set_solver.
Qed.

(** After a flush, each registered output shows its value on the current
    inputs. *)
Lemma flush_shown s o :
  coherent g s → o ∈ registry g →
  shown (flush g s) !! o = Some (eval_out g (inputs s) o).2.
Proof.
  intros Hs Ho. pose proof (flush_coherent g s Hs) as Hf.
  destruct (outs (flush g s) !! o) as [n|] eqn:Hn; [|by destruct (flush_no_pending s o)].
  rewrite (coh_shown g _ Hf o n Hn), (coh_out g _ Hf o n Hn), inputs_flush. done.
Qed.

Lemma run_events_reachable s (evs : list (event (ity:=ity))) :
  rtc (step g) s (run_events g s evs).
Proof.
  revert s; induction evs as [|ev evs IH]; intros s; [done|].
  simpl. eapply rtc_l; [|apply IH]. destruct ev; constructor.
Qed.

Lemma inputs_run_events s (evs : list (event (ity:=ity))) :
  inputs (run_events g s evs) = inputs_after (inputs s) evs.
Proof.
  revert s; induction evs as [|ev evs IH]; intros s; [done|].
  simpl. rewrite IH. by destruct ev; simpl; rewrite ?inputs_flush.
Qed.

(** Whatever the history of writes and flushes, a flush makes the client
    show, for each registered output, the output's value on the inputs the
    writes have produced. *)
Lemma engine_refines_reference env (evs : list (event (ity:=ity))) o :
  o ∈ registry g →
  shown (flush g (run_events g (init env) evs)) !! o
  = Some (eval_out g (inputs_after env evs) o).2.
Proof.
  intros Ho. rewrite flush_shown, inputs_run_events; [done| |done].
  eapply reachable_coherent, run_events_reachable.
Qed.

End refinement.

(** ** What is recomputed, and what is not *)

Section recomputation.
Context {I : Type} {EqI : EqDecision I} {CntI : Countable I}.
Context {ity : I → Type} {Env : Type} {Store : InputStore I ity Env}.
Context {C : Type} {EqC : EqDecision C} {CntC : Countable C} {CV : Type}.
Context {O : Type} {EqO : EqDecision O} {CntO : Countable O} {OV : Type}.
Context (g : graph ity C CV O OV).
Implicit Types (env : Env) (c : C) (o : O) (i : I).
Implicit Types (s : session (I:=I) (Env:=Env) (C:=C) (CV:=CV) (O:=O) (OV:=OV)).
Implicit Types (st : rstate (I:=I) (C:=C) (CV:=CV)).

Lemma not_disjoint_exists (X Y : gset I) : ¬ X ## Y ↔ ∃ i, i ∈ X ∧ i ∈ Y.
Proof.
  split; [|set_solver]. intros Hd.
  destruct (set_choose_or_empty (X ∩ Y)) as [[i Hi]|He]; [set_solver|].
  destruct Hd. set_solver.
Qed.

Lemma count_of_bump {K} `{Countable K} (k k' : K) (m : gmap K nat) :
  count_of k (bump k' m) = if decide (k' = k) then S (count_of k m) else count_of k m.
Proof. unfold count_of at 1, bump. rewrite lookup_insert. case_decide; by subst. Qed.

Lemma newly_cached_refl c (m : gmap C (calc_node I CV)) : newly_cached c m m = 0.
Proof. unfold newly_cached. case_decide as Hd; [by destruct Hd | done]. Qed.

Lemma newly_cached_trans c (m1 m2 m3 : gmap C (calc_node I CV)) :
  m1 ⊆ m2 → m2 ⊆ m3 →
  newly_cached c m1 m2 + newly_cached c m2 m3 = newly_cached c m1 m3.
Proof.
  intros H12%subseteq_dom H23%subseteq_dom. unfold newly_cached.
  repeat case_decide; try done; exfalso; set_solver.
Qed.

Lemma elem_of_out_depends env o i :
  i ∈ out_depends g env o ↔
  i ∈ (eval_out g env o).1.1
  ∨ ∃ c, c ∈ (eval_out g env o).1.2 ∧ i ∈ (run_calc g env c).1.
Proof.
  unfold out_depends. rewrite elem_of_union, elem_of_union_list.
  setoid_rewrite list_elem_of_fmap. setoid_rewrite elem_of_elements. naive_solver.
Qed.

(** Agreement on [out_depends] is agreement on everything read. *)
Lemma agree_on_out_depends env1 env2 o :
  agree_on (out_depends g env1 o) env1 env2 →
  eval_out g env2 o = eval_out g env1 o.
Proof.
  intros Ha. apply eval_out_agree. split.
  - intros i Hi. apply Ha, elem_of_out_depends. by left.
  - intros c Hc i Hi. apply Ha, elem_of_out_depends. right. eauto.
Qed.

Lemma interp_h_read_runs {A} (m : rx (readE ity C CV) A) env st st' r c :
  interp (h_read g env) m st = (st', r) →
  rs_cache st ⊆ rs_cache st'
  ∧ count_of c (rs_runs st')
    = count_of c (rs_runs st) + newly_cached c (rs_cache st) (rs_cache st').
Proof.
  revert st; induction m as [a|e|X ev k IH]; intros st; simpl.
  1,2: intros [= <- <-]; by rewrite newly_cached_refl, Nat.add_0_r.
  destruct ev as [i|c'|name]; simpl; [by intros ?%IH| |by intros ?%IH].
  destruct (rs_cache st !! c') as [n|] eqn:Hc.
  { destruct (cn_value n); [by intros ?%IH|].
    intros [= <- <-]; by rewrite newly_cached_refl, Nat.add_0_r. }
  pose proof (insert_subseteq (rs_cache st) c' (fresh_node g env c') Hc) as Hsub.
  assert (count_of c (bump c' (rs_runs st))
          = count_of c (rs_runs st)
            + newly_cached c (rs_cache st) (<[c':=fresh_node g env c']> (rs_cache st)))
    as Hstep.
  { rewrite count_of_bump. unfold newly_cached. rewrite dom_insert_L.
    apply not_elem_of_dom in Hc. repeat case_decide; try lia; exfalso; set_solver. }
  destruct (run_calc g env c').2.
  - intros [Hsub' ->]%IH. simpl in *. split; [by etrans|].
    rewrite Hstep, <- Nat.add_assoc. f_equal. by apply newly_cached_trans.
  - by intros [= <- <-].
Qed.

(** A write makes pending exactly the valid outputs that depend on the
    written input: those that read it, or called a calc that read it. *)
Lemma set_input_pending_iff i (v : ity i) s o :
  coherent g s →
  pending (set_input i v s) o ↔ pending s o ∨ i ∈ out_depends g (inputs s) o.
Proof.
  intros Hs. unfold pending. simpl. rewrite map_lookup_filter_None.
  destruct (outs s !! o) as [n|] eqn:Ho; [|naive_solver].
  pose proof (coh_cdeps g s Hs o n Ho) as Hdom.
  rewrite (coh_out g s Hs o n Ho) in Hdom |- *. simpl in *.
  rewrite elem_of_out_depends. split.
  - intros [[=]|Hf]. specialize (Hf _ eq_refl). simpl in Hf. right.
    destruct (decide (i ∈ (eval_out g (inputs s) o).1.1)) as [|Hi]; [by left|right].
    apply not_and_l in Hf as [|Hf]; [done|].
    apply not_set_Forall_Exists in Hf as (c & Hc & Hnc); [|apply _]. exists c. split; [done|].
    destruct (calcs s !! c) as [n'|] eqn:Hn'; [|by apply not_elem_of_dom in Hn'; set_solver].
    destruct (decide (i ∈ (run_calc g (inputs s) c).1)) as [|Hic]; [done|].
    destruct Hnc. apply elem_of_dom. exists n'. apply map_lookup_filter_Some. split; [done|].
    simpl. by rewrite (coh_calc g s Hs c n' Hn').
  - intros [[=]|[Hi|(c & Hc & Hi)]]; right; intros ? [= <-] [Hni Hsub]; simpl in *; [done|].
    apply Hsub, elem_of_dom in Hc as [n' [Hn' Hd]%map_lookup_filter_Some].
    simpl in Hd. by rewrite (coh_calc g s Hs c n' Hn') in Hd.
Qed.

(** A write leaves the client's view as it is: stale values stay on
    display until the flush. *)
Lemma shown_set_input i (v : ity i) s : shown (set_input i v s) = shown s.
Proof. done. Qed.

Lemma out_runs_run_output o s o' :
  count_of o' (out_runs (run_output g o s))
  = if decide (o = o') then S (count_of o' (out_runs s)) else count_of o' (out_runs s).
Proof. unfold run_output. destruct (interp _ _ _). simpl. apply count_of_bump. Qed.

Lemma foldl_flush_one_out_runs (l : list O) s o :
  coherent g s →
  count_of o (out_runs (foldl (flush_one g) s l))
  = count_of o (out_runs s) + executed o l s.
Proof.
  revert s; induction l as [|o' l IH]; intros s Hs; simpl.
  { unfold executed. rewrite decide_False; [lia | set_solver]. }
  rewrite IH by engine_auto.
  unfold executed. rewrite flush_one_dom by done.
  unfold flush_one. destruct (outs s !! o') eqn:Ho'.
  - apply elem_of_dom_2 in Ho'. repeat case_decide; try lia; exfalso; set_solver.
  - apply not_elem_of_dom in Ho'. rewrite out_runs_run_output.
    repeat case_decide; try lia; exfalso; set_solver.
Qed.

(** A flush executes each pending registered output once, and no other. *)
Lemma flush_out_runs s o :
  coherent g s →
  count_of o (out_runs (flush g s))
  = count_of o (out_runs s) + executed o (registry g) s.
Proof. apply foldl_flush_one_out_runs. Qed.

Lemma flush_one_calc_runs s o c :
  calcs s ⊆ calcs (flush_one g s o)
  ∧ count_of c (calc_runs (flush_one g s o))
    = count_of c (calc_runs s) + newly_cached c (calcs s) (calcs (flush_one g s o)).
Proof.
  unfold flush_one. destruct (outs s !! o).
  { by rewrite newly_cached_refl, Nat.add_0_r. }
  unfold run_output. destruct (interp _ _ _) as [st r] eqn:Hrun. simpl.
  by apply (interp_h_read_runs _ _ _ _ _ c) in Hrun.
Qed.

Lemma foldl_flush_one_calc_runs (l : list O) s c :
  calcs s ⊆ calcs (foldl (flush_one g) s l)
  ∧ count_of c (calc_runs (foldl (flush_one g) s l))
    = count_of c (calc_runs s)
      + newly_cached c (calcs s) (calcs (foldl (flush_one g) s l)).
Proof.
  revert s; induction l as [|o l IH]; intros s; simpl.
  { by rewrite newly_cached_refl, Nat.add_0_r. }
  destruct (IH (flush_one g s o)) as [Hsub ->].
  destruct (flush_one_calc_runs s o c) as [Hsub1 ->]. split; [by etrans|].
  rewrite <- Nat.add_assoc. f_equal. by apply newly_cached_trans.
Qed.

(** During a flush the body of a calc runs at most once, however many
    outputs call it, and only if it was not cached. *)
Lemma flush_calc_runs s c :
  count_of c (calc_runs (flush g s))
  = count_of c (calc_runs s) + newly_cached c (calcs s) (calcs (flush g s)).
Proof. apply foldl_flush_one_calc_runs. Qed.

(** A write to an input a calc did not read keeps the calc cached. *)
Lemma set_input_keeps_calc i (v : ity i) s c :
  coherent g s → c ∈ dom (calcs s) → i ∉ (run_calc g (inputs s) c).1 →
  c ∈ dom (calcs (set_input i v s)).
Proof.
  intros Hs [n Hn]%elem_of_dom Hi. apply elem_of_dom. exists n. simpl.
  apply map_lookup_filter_Some. split; [done|]. simpl.
  by rewrite (coh_calc g s Hs c n Hn).
Qed.

(** A write to an input a calc read drops the calc from the cache. *)
Lemma set_input_drops_calc i (v : ity i) s c :
  coherent g s → i ∈ (run_calc g (inputs s) c).1 →
  c ∉ dom (calcs (set_input i v s)).
Proof.
  intros Hs Hi [n [Hn Hd]%map_lookup_filter_Some]%elem_of_dom.
  simpl in Hd. by rewrite (coh_calc g s Hs c n Hn) in Hd.
Qed.

(** After a flush, every calc a registered output calls is cached. *)
Lemma flush_caches_called s o c :
  coherent g s → o ∈ registry g → c ∈ (eval_out g (inputs s) o).1.2 →
  c ∈ dom (calcs (flush g s)).
Proof.
  intros Hs Ho Hc. pose proof (flush_coherent g s Hs) as Hf.
  destruct (outs (flush g s) !! o) as [n|] eqn:Hn; [|by destruct (flush_no_pending g s o)].
  apply (coh_cdeps g _ Hf o n Hn).
  by rewrite (coh_out g _ Hf o n Hn), inputs_flush.
Qed.

(** A flush leaves valid outputs as they are: what is shown for an output
    that was not pending does not change. *)
Lemma flush_keeps_shown s o :
  coherent g s → ¬ pending s o → shown (flush g s) !! o = shown s !! o.
Proof.
  intros Hs Hp. unfold flush. generalize (registry g) as l. intros l.
  revert s Hs Hp; induction l as [|o' l IH]; intros s Hs Hp; [done|]. simpl.
  assert (o ∈ dom (outs s)) as Ho by (apply elem_of_dom; by destruct (outs s !! o) eqn:E).
  rewrite IH; [|engine_auto|].
  - unfold flush_one. destruct (outs s !! o') eqn:Ho'; [done|].
    destruct (run_output_spec g o' s Hs) as (_ & _ & -> & _).
    rewrite lookup_insert_ne; [done|]. intros ->. by apply not_elem_of_dom in Ho'.
  - unfold pending. rewrite <- not_elem_of_dom, flush_one_dom by done. set_solver.
Qed.

End recomputation.
