(* ===== verification/Schedule.v ===== *)
(** * The schedule of a flush

    [Reactive.flush] executes the pending outputs in registration order.
    The engine the program runs on is free to take them in another order;
    this file shows that the order cannot be observed.

    - [run_step]: one step of a flush, the execution of any one pending
      registered output; [run_schedule] executes a given list of them.
    - [backlog]: the number of pending registered outputs, the measure by
      which every schedule terminates.
    - [session_equiv]: sessions that show, cache and count the same.
    - [ran E s s']: the specification of "[s'] is [s] after the execution
      of exactly the outputs [E]", which every schedule that executes [E]
      implements and which determines [s'] up to [session_equiv]. *)

From stdpp Require Import base tactics option list relations gmap.
From S2P Require Import Prelude Reactive.

#[local] Set Warnings "-clear-no-such-hyp".

Section definitions.
Context {I : Type} {EqI : EqDecision I} {CntI : Countable I}.
Context {ity : I → Type} {Env : Type} {Store : InputStore I ity Env}.
Context {C : Type} {EqC : EqDecision C} {CntC : Countable C} {CV : Type}.
Context {O : Type} {EqO : EqDecision O} {CntO : Countable O} {OV : Type}.
Context (g : graph ity C CV O OV).
Abbreviation sess := (session (I:=I) (Env:=Env) (C:=C) (CV:=CV) (O:=O) (OV:=OV)).
Implicit Types (s : sess).

(** One step of a flush: some pending registered output is executed. *)
Inductive run_step : relation sess :=
| run_step_output o s :
    o ∈ registry g → pending s o → run_step s (run_output g o s).

(** Execute the outputs of a list in its order; [None] if one of them is
    not registered or not pending when its turn comes. *)
Fixpoint run_schedule (os : list O) s : option sess :=
  match os with
  | [] => Some s
  | o :: os' =>
      if decide (o ∈ registry g ∧ outs s !! o = None)
      then run_schedule os' (run_output g o s)
      else None
  end.

(** The registered outputs that are pending, and how many they are. *)
Definition backlog_set s : gset O := list_to_set (registry g) ∖ dom (outs s).

Definition backlog s : nat := size (backlog_set s).

(** Nothing registered is pending. *)
Definition quiescent s : Prop := ∀ o, o ∈ registry g → ¬ pending s o.

(** Two sessions are equivalent when they hold the same inputs, caches
    and displayed values, have executed every function equally often
    and have made the same executions, in whatever order.  (The counters
    are compared by what they count: a missing entry counts as zero.) *)
Record session_equiv s1 s2 : Prop := SessionEquiv {
  eq_inputs : inputs s1 = inputs s2;
  eq_calcs : calcs s1 = calcs s2;
  eq_outs : outs s1 = outs s2;
  eq_shown : shown s1 = shown s2;
  eq_calc_runs c : count_of c (calc_runs s1) = count_of c (calc_runs s2);
  eq_out_runs o : count_of o (out_runs s1) = count_of o (out_runs s2);
  eq_log : log s1 ≡ₚ log s2;
}.

(** [s'] is [s] after the execution of exactly the outputs [E], which
    were pending in [s]: the specification of a partial flush. *)
Record ran (E : gset O) s s' : Prop := Ran {
  ran_registered : E ⊆ list_to_set (registry g);
  ran_pending : E ## dom (outs s);
  ran_inputs : inputs s' = inputs s;
  ran_coherent : coherent g s';
  ran_outs : dom (outs s') = dom (outs s) ∪ E;
  ran_shown o : o ∉ E → shown s' !! o = shown s !! o;
  ran_calcs_sub : calcs s ⊆ calcs s';
  ran_calcs c :
    c ∈ dom (calcs s') ↔
    c ∈ dom (calcs s) ∨ ∃ o, o ∈ E ∧ c ∈ (eval_out g (inputs s) o).1.2;
  ran_out_runs o :
    count_of o (out_runs s')
    = count_of o (out_runs s) + (if decide (o ∈ E) then 1 else 0);
  ran_calc_runs c :
    count_of c (calc_runs s')
    = count_of c (calc_runs s) + newly_cached c (calcs s) (calcs s');
  ran_log : log s' ≡ₚ log s ++ (fresh_execution g (inputs s) <$> elements E);
}.

End definitions.

Infix "≡ₛ" := session_equiv (at level 70, no associativity).

(** ** Equivalent sessions *)

Section equiv.
Context {I : Type} {EqI : EqDecision I} {CntI : Countable I}.
Context {ity : I → Type} {Env : Type} {Store : InputStore I ity Env}.
Context {C : Type} {EqC : EqDecision C} {CntC : Countable C} {CV : Type}.
Context {O : Type} {EqO : EqDecision O} {CntO : Countable O} {OV : Type}.
Context (g : graph ity C CV O OV).
Abbreviation sess := (session (I:=I) (Env:=Env) (C:=C) (CV:=CV) (O:=O) (OV:=OV)).
Implicit Types (s : sess) (o : O) (c : C).

#[export] Instance session_equiv_equivalence :
  Equivalence (session_equiv : relation sess).
Proof.
  split.
  - by intros s.
  - intros s1 s2 []. by split.
  - intros s1 s2 s3 [] []. split; intros; etrans; eauto.
Qed.

(** What is pending, and so the backlog, is the same in equivalent
    sessions. *)
#[export] Instance pending_proper :
  Proper (session_equiv ==> (=) ==> iff) (pending : sess → O → Prop).
Proof. intros s1 s2 Hs o ? <-. unfold pending. by rewrite (eq_outs _ _ Hs). Qed.

#[export] Instance backlog_proper : Proper (session_equiv ==> (=)) (backlog g : sess → nat).
Proof. intros s1 s2 Hs. unfold backlog, backlog_set. by rewrite (eq_outs _ _ Hs). Qed.

#[export] Instance quiescent_proper : Proper (session_equiv ==> iff) (quiescent g : sess → Prop).
Proof. intros s1 s2 Hs. unfold quiescent. by setoid_rewrite Hs. Qed.

End equiv.

(** ** Every schedule terminates *)

Section termination.
Context {I : Type} {EqI : EqDecision I} {CntI : Countable I}.
Context {ity : I → Type} {Env : Type} {Store : InputStore I ity Env}.
Context {C : Type} {EqC : EqDecision C} {CntC : Countable C} {CV : Type}.
Context {O : Type} {EqO : EqDecision O} {CntO : Countable O} {OV : Type}.
Context (g : graph ity C CV O OV).
Abbreviation sess := (session (I:=I) (Env:=Env) (C:=C) (CV:=CV) (O:=O) (OV:=OV)).
Implicit Types (s : sess) (o : O) (c : C).

Lemma outs_run_output_dom o s :
  dom (outs (run_output g o s)) = {[o]} ∪ dom (outs s).
Proof. unfold run_output. destruct (interp _ _ _). simpl. by rewrite dom_insert_L. Qed.

Lemma elem_of_backlog_set o s :
  o ∈ backlog_set g s ↔ o ∈ registry g ∧ pending s o.
Proof.
  unfold backlog_set, pending.
  by rewrite elem_of_difference, elem_of_list_to_set, not_elem_of_dom.
Qed.

Lemma backlog_set_run_output o s :
  backlog_set g (run_output g o s) = backlog_set g s ∖ {[o]}.
Proof. unfold backlog_set. rewrite outs_run_output_dom. set_solver. Qed.

(** A step takes one output off the backlog. *)
Lemma run_step_backlog s s' : run_step g s s' → backlog g s = S (backlog g s').
Proof.
  destruct 1 as [o s Ho Hp]. unfold backlog. rewrite backlog_set_run_output.
  assert (o ∈ backlog_set g s) as Hin by by apply elem_of_backlog_set.
  rewrite (union_difference_singleton_L o (backlog_set g s)) at 1 by done.
  rewrite size_union, size_singleton by set_solver. done.
Qed.

(** Every sequence of steps ends. *)
Lemma run_step_sn s : sn (run_step g) s.
Proof.
  apply (sn_measure _ (backlog g)). intros x y Hxy.
  rewrite (run_step_backlog x y Hxy). lia.
Qed.

(** A sequence of [n] steps executes [n] outputs of the backlog. *)
Lemma nsteps_run_step n s s' :
  nsteps (run_step g) n s s' → backlog g s = n + backlog g s'.
Proof. apply nsteps_measure, run_step_backlog. Qed.

Lemma quiescent_backlog s : quiescent g s ↔ backlog g s = 0.
Proof.
  unfold backlog. rewrite size_empty_iff. unfold quiescent. split.
  - intros Hq o. rewrite elem_of_backlog_set. set_solver.
  - intros He o Ho Hp. assert (o ∈ backlog_set g s) by by apply elem_of_backlog_set.
    set_solver.
Qed.

(** The engine stops exactly when nothing registered is pending. *)
Lemma nf_run_step s : nf (run_step g) s ↔ quiescent g s.
Proof.
  split.
  - intros Hnf o Ho Hp. apply Hnf. eexists. by constructor.
  - intros Hq [s' Hs']. destruct Hs' as [o s Ho Hp]. by apply (Hq o).
Qed.

(** While something registered is pending, a step is possible. *)
Lemma run_step_progress s : backlog g s ≠ 0 → red (run_step g) s.
Proof.
  intros Hb. destruct (size_pos_elem_of (backlog_set g s)) as [o Ho].
  { unfold backlog in Hb. lia. }
  apply elem_of_backlog_set in Ho as [Ho Hp]. eexists. by constructor.
Qed.

End termination.

(** ** Every schedule implements the specification *)

Section specification.
Context {I : Type} {EqI : EqDecision I} {CntI : Countable I}.
Context {ity : I → Type} {Env : Type} {Store : InputStore I ity Env}.
Context {C : Type} {EqC : EqDecision C} {CntC : Countable C} {CV : Type}.
Context {O : Type} {EqO : EqDecision O} {CntO : Countable O} {OV : Type}.
Context (g : graph ity C CV O OV).
Abbreviation sess := (session (I:=I) (Env:=Env) (C:=C) (CV:=CV) (O:=O) (OV:=OV)).
Implicit Types (s : sess) (o : O) (c : C) (E : gset O).

Lemma ran_refl s : coherent g s → ran g ∅ s s.
Proof.
  intros Hs. split.
  - set_solver.
  - set_solver.
  - done.
  - done.
  - set_solver.
  - done.
  - done.
  - intros c. set_solver.
  - intros o. rewrite decide_False by set_solver. lia.
  - intros c. by rewrite newly_cached_refl, Nat.add_0_r.
  - by rewrite elements_empty, app_nil_r.
Qed.

(** The outputs executed are those that became valid. *)
Lemma ran_executed E s s' : ran g E s s' → E = dom (outs s') ∖ dom (outs s).
Proof. intros [_ Hp _ _ Hd _ _ _ _ _ _]. set_solver. Qed.

Lemma calc_runs_run_output o s c :
  pending s o →
  calcs s ⊆ calcs (run_output g o s)
  ∧ count_of c (calc_runs (run_output g o s))
    = count_of c (calc_runs s) + newly_cached c (calcs s) (calcs (run_output g o s)).
Proof.
  intros Hp. pose proof (flush_one_calc_runs g s o c) as H.
  unfold flush_one, pending in *. rewrite Hp in H. exact H.
Qed.

(** One more execution, one more output in the set executed. *)
Lemma ran_run_output E s s1 o :
  ran g E s s1 → o ∈ registry g → pending s1 o →
  ran g ({[o]} ∪ E) s (run_output g o s1).
Proof.
  intros [Hr Hp Hi Hc Hd Hsh Hsub Hcs Hor Hcr Hlog] Ho Hpo.
  assert (o ∉ dom (outs s1)) as Hno by by apply not_elem_of_dom.
  destruct (run_output_spec g o s1 Hc) as (Hi' & _ & Hsh' & _ & Hsub' & _).
  split.
  - set_solver.
  - set_solver.
  - by rewrite Hi'.
  - by apply run_output_coherent.
  - rewrite outs_run_output_dom, Hd. set_solver.
  - intros o' Ho'. rewrite Hsh', lookup_insert_ne by set_solver. apply Hsh. set_solver.
  - by etrans.
  - intros c. rewrite run_output_calcs_dom, elem_of_union, Hcs, Hi by done.
    set_solver.
  - intros o'. rewrite out_runs_run_output, Hor.
    repeat case_decide; try lia; exfalso; set_solver.
  - intros c. destruct (calc_runs_run_output o s1 c Hpo) as [_ ->].
    rewrite Hcr, <- Nat.add_assoc. f_equal. by apply newly_cached_trans.
  - rewrite log_run_output, Hlog, Hi by done.
    rewrite elements_union_singleton by set_solver.
    rewrite fmap_cons, <- app_assoc. apply Permutation_app_head.
    symmetry. apply Permutation_cons_append.
Qed.

Lemma run_steps_ran s s' :
  coherent g s → rtc (run_step g) s s' → ∃ E, ran g E s s'.
Proof.
  intros Hs. apply (rtc_invariant _ (λ s', ∃ E, ran g E s s')).
  - exists ∅. by apply ran_refl.
  - intros s1 s2 [o s1' Ho Hp] [E HE]. exists ({[o]} ∪ E). by apply ran_run_output.
Qed.

(** The specification determines the session, up to equivalence. *)
Lemma ran_equiv E s s1 s2 : ran g E s s1 → ran g E s s2 → s1 ≡ₛ s2.
Proof.
  intros [_ _ Hi1 Hc1 Hd1 Hsh1 Hsub1 Hcs1 Hor1 Hcr1 Hl1]
    [_ _ Hi2 Hc2 Hd2 Hsh2 Hsub2 Hcs2 Hor2 Hcr2 Hl2].
  assert (outs s1 = outs s2) as Houts.
  { apply map_eq. intros o.
    destruct (outs s1 !! o) as [n1|] eqn:H1, (outs s2 !! o) as [n2|] eqn:H2; try done.
    - by rewrite (coh_out g s1 Hc1 o n1 H1), (coh_out g s2 Hc2 o n2 H2), Hi1, Hi2.
    - apply elem_of_dom_2 in H1. apply not_elem_of_dom in H2. set_solver.
    - apply elem_of_dom_2 in H2. apply not_elem_of_dom in H1. set_solver. }
  assert (calcs s1 = calcs s2) as Hcalcs.
  { apply map_eq. intros c.
    destruct (calcs s1 !! c) as [n1|] eqn:H1, (calcs s2 !! c) as [n2|] eqn:H2; try done.
    - by rewrite (coh_calc g s1 Hc1 c n1 H1), (coh_calc g s2 Hc2 c n2 H2), Hi1, Hi2.
    - apply elem_of_dom_2, Hcs1, Hcs2 in H1. by apply not_elem_of_dom in H2.
    - apply elem_of_dom_2, Hcs2, Hcs1 in H2. by apply not_elem_of_dom in H1. }
  split; try done.
  - by rewrite Hi1, Hi2.
  - apply map_eq. intros o. destruct (decide (o ∈ E)) as [Ho|Ho].
    + assert (is_Some (outs s1 !! o)) as [n Hn] by (apply elem_of_dom; set_solver).
      rewrite (coh_shown g s1 Hc1 o n Hn). rewrite Houts in Hn.
      by rewrite (coh_shown g s2 Hc2 o n Hn).
    + by rewrite Hsh1, Hsh2.
  - intros c. by rewrite Hcr1, Hcr2, Hcalcs.
  - intros o. by rewrite Hor1, Hor2.
  - by rewrite Hl1, Hl2.
Qed.

(** A schedule that has come to its end has executed the whole backlog. *)
Lemma ran_quiescent E s s' : ran g E s s' → quiescent g s' → E = backlog_set g s.
Proof.
  intros HE Hq. pose proof HE as [Hr Hp _ _ Hd _ _ _ _ _].
  apply set_eq. intros o. rewrite elem_of_backlog_set. split.
  - intros Ho. split; [set_solver|]. apply not_elem_of_dom. set_solver.
  - intros [Ho Hpo]. apply not_elem_of_dom in Hpo.
    destruct (decide (o ∈ E)) as [|Hn]; [done|]. destruct (Hq o Ho).
    apply not_elem_of_dom. set_solver.
Qed.

(** Any two schedules that run to their end leave equivalent sessions. *)
Lemma schedule_unique s s1 s2 :
  coherent g s →
  rtc (run_step g) s s1 → nf (run_step g) s1 →
  rtc (run_step g) s s2 → nf (run_step g) s2 →
  s1 ≡ₛ s2.
Proof.
  intros Hs [E1 H1]%run_steps_ran Hq1%nf_run_step [E2 H2]%run_steps_ran Hq2%nf_run_step;
    try done.
  rewrite (ran_quiescent _ _ _ H1 Hq1) in H1. rewrite (ran_quiescent _ _ _ H2 Hq2) in H2.
  by eapply ran_equiv.
Qed.

End specification.

(** ** The flush in registration order is one schedule among others *)

Section flush.
Context {I : Type} {EqI : EqDecision I} {CntI : Countable I}.
Context {ity : I → Type} {Env : Type} {Store : InputStore I ity Env}.
Context {C : Type} {EqC : EqDecision C} {CntC : Countable C} {CV : Type}.
Context {O : Type} {EqO : EqDecision O} {CntO : Countable O} {OV : Type}.
Context (g : graph ity C CV O OV).
Abbreviation sess := (session (I:=I) (Env:=Env) (C:=C) (CV:=CV) (O:=O) (OV:=OV)).
Implicit Types (s : sess) (o : O) (c : C) (E : gset O).

Lemma foldl_flush_one_run_steps (l : list O) s :
  l ⊆ registry g → rtc (run_step g) s (foldl (flush_one g) s l).
Proof.
  revert s; induction l as [|o l IH]; intros s Hl; simpl; [done|].
  etrans; [|apply IH; set_solver]. unfold flush_one.
  destruct (outs s !! o) eqn:Ho; [done|]. apply rtc_once. constructor; [set_solver|done].
Qed.

Lemma flush_run_steps s : rtc (run_step g) s (flush g s).
Proof. by apply foldl_flush_one_run_steps. Qed.

Lemma flush_quiescent s : coherent g s → quiescent g (flush g s).
Proof. intros Hs o Ho. by apply flush_no_pending. Qed.

(** A schedule is a list of outputs: the steps it takes. *)
Lemma run_schedule_nsteps (os : list O) s s' :
  run_schedule g os s = Some s' → nsteps (run_step g) (length os) s s'.
Proof.
  revert s; induction os as [|o os IH]; intros s; simpl.
  - intros [= <-]. constructor.
  - case_decide as Ho; [|done]. destruct Ho as [Ho Hp]. intros Hrun%IH.
    econstructor; [|done]. by constructor.
Qed.

Lemma nsteps_run_schedule n s s' :
  nsteps (run_step g) n s s' → ∃ os, length os = n ∧ run_schedule g os s = Some s'.
Proof.
  induction 1 as [s|n s1 s2 s3 Hstep _ (os & Hlen & Hrun)]; [by exists []|].
  destruct Hstep as [o s1 Ho Hp]. exists (o :: os). simpl.
  rewrite decide_True by done. by rewrite Hlen.
Qed.

(** The flush implements the specification for the whole backlog. *)
Lemma flush_ran s : coherent g s → ran g (backlog_set g s) s (flush g s).
Proof.
  intros Hs. destruct (run_steps_ran g s (flush g s) Hs (flush_run_steps s)) as [E HE].
  by rewrite <- (ran_quiescent g E s (flush g s) HE (flush_quiescent s Hs)).
Qed.

(** In whatever order the engine executes the pending outputs, it ends in
    a session equivalent to the one the flush in registration order
    gives. *)
Lemma schedule_equiv_flush s s' :
  coherent g s → rtc (run_step g) s s' → nf (run_step g) s' → s' ≡ₛ flush g s.
Proof.
  intros Hs Hrun Hnf. apply (schedule_unique g s); try done.
  - apply flush_run_steps.
  - by apply nf_run_step, flush_quiescent.
Qed.

(** A schedule that has begun can be completed, in exactly as many steps
    as outputs are pending, and however it began it ends as the flush. *)
Lemma schedule_completes s s1 :
  coherent g s → rtc (run_step g) s s1 →
  ∃ s', nsteps (run_step g) (backlog g s1) s1 s' ∧ quiescent g s' ∧ s' ≡ₛ flush g s.
Proof.
  intros Hs Hrun. destruct (run_steps_ran g s s1 Hs Hrun) as [E HE].
  pose proof (ran_coherent g E s s1 HE) as Hs1.
  pose proof (flush_quiescent s1 Hs1) as Hq.
  destruct (rtc_nsteps_1 _ _ (flush_run_steps s1)) as [n Hn].
  exists (flush g s1). split_and!; [|done|].
  - pose proof (nsteps_run_step g _ _ _ Hn) as Hb.
    apply quiescent_backlog in Hq. rewrite Hq, Nat.add_0_r in Hb. by rewrite Hb.
  - apply schedule_equiv_flush; [done| |by apply nf_run_step].
    etrans; [done|]. apply flush_run_steps.
Qed.

(** An output that is not pending shows its value on the current
    inputs, whatever else is pending. *)
Lemma not_pending_shown s o :
  coherent g s → ¬ pending s o → shown s !! o = Some (eval_out g (inputs s) o).2.
Proof.
  intros Hs Hp. destruct (outs s !! o) as [n|] eqn:Hn; [|done].
  by rewrite (coh_shown g s Hs o n Hn), (coh_out g s Hs o n Hn).
Qed.

(** In a quiescent session every registered output does. *)
Lemma quiescent_shown s o :
  coherent g s → quiescent g s → o ∈ registry g →
  shown s !! o = Some (eval_out g (inputs s) o).2.
Proof. intros Hs Hq Ho. by apply not_pending_shown, Hq. Qed.

End flush.
