(* ===== verification/Update.v ===== *)
(** * Client updates

    A client message carries the new values of one or several inputs; the
    session stores them all and then flushes ([receive]).  This file
    shows what a batch of writes invalidates ([write_all]), so that the
    flush executes each dependent output once however many of the inputs
    it read were written, and that a write of the value an input already
    holds cannot be observed in what is shown, so that an engine may skip
    it ([set_input_changed], and [write_all_changed] for a batch): the
    relation [skips] holds between the session of an engine that skips
    and the session of one that does not, is kept by every write, and
    makes the two show the same after the flush. *)

From stdpp Require Import base tactics option list relations gmap.
From S2P Require Import Prelude Reactive Schedule.

#[local] Set Warnings "-clear-no-such-hyp".

Section definitions.
Context {I : Type} {EqI : EqDecision I} {CntI : Countable I}.
Context {ity : I → Type} {Env : Type} {Store : InputStore I ity Env}.
Context {C : Type} {EqC : EqDecision C} {CntC : Countable C} {CV : Type}.
Context {O : Type} {EqO : EqDecision O} {CntO : Countable O} {OV : Type}.
Context (g : graph ity C CV O OV).
Abbreviation sess := (session (I:=I) (Env:=Env) (C:=C) (CV:=CV) (O:=O) (OV:=OV)).
Implicit Types (s : sess) (ws : list (sigT ity)).

(** Store the values of a batch, in its order; each write invalidates
    what read its input. *)
Definition write_all ws s : sess :=
  foldl (λ s w, set_input (projT1 w) (projT2 w) s) s ws.

(** The store after the writes of a batch. *)
Definition store_all ws (env : Env) : Env :=
  foldl (λ env w, input_set (projT1 w) (projT2 w) env) env ws.

(** The inputs a batch writes. *)
Definition written ws : gset I := list_to_set (projT1 <$> ws).

(** The handling of a client message: store its values, then flush. *)
Definition receive ws s : sess := flush g (write_all ws s).

(** A write that leaves the session as it is when the input already
    holds the value. *)
Definition set_input_changed `{!∀ i, EqDecision (ity i)} (i : I) (v : ity i) s : sess :=
  if decide (input_get i (inputs s) = v) then s else set_input i v s.

(** The writes of a batch by an engine that skips unchanged values. *)
Definition write_all_changed `{!∀ i, EqDecision (ity i)} ws s : sess :=
  foldl (λ s w, set_input_changed (projT1 w) (projT2 w) s) s ws.

(** Two stores in which every input reads the same. *)
Definition same_inputs (env1 env2 : Env) : Prop :=
  ∀ i, input_get i env1 = input_get i env2.

(** What relates the session of the engine that skips to the session of
    the engine that does not, after the same writes: both are coherent,
    their inputs read the same, they show and have executed the same,
    and whatever is pending in the first is pending in the second. *)
Record skips s1 s2 : Prop := Skips {
  skips_coherent1 : coherent g s1;
  skips_coherent2 : coherent g s2;
  skips_inputs : same_inputs (inputs s1) (inputs s2);
  skips_shown : shown s1 = shown s2;
  skips_out_runs : out_runs s1 = out_runs s2;
  skips_pending o : pending s1 o → pending s2 o;
}.

End definitions.

(** ** Batches of writes *)

Section batches.
Context {I : Type} {EqI : EqDecision I} {CntI : Countable I}.
Context {ity : I → Type} {Env : Type} {Store : InputStore I ity Env}.
Context {C : Type} {EqC : EqDecision C} {CntC : Countable C} {CV : Type}.
Context {O : Type} {EqO : EqDecision O} {CntO : Countable O} {OV : Type}.
Context (g : graph ity C CV O OV).
Abbreviation sess := (session (I:=I) (Env:=Env) (C:=C) (CV:=CV) (O:=O) (OV:=OV)).
Implicit Types (s : sess) (ws : list (sigT ity)) (env : Env) (i : I) (o : O) (c : C).

Lemma write_all_coherent ws s : coherent g s → coherent g (write_all ws s).
Proof.
  revert s; induction ws as [|[i v] ws IH]; intros s Hs; [done|].
  simpl. by apply IH, set_input_coherent.
Qed.

#[local] Hint Resolve write_all_coherent : engine.

Lemma inputs_write_all ws s :
  inputs (write_all ws s) = store_all ws (inputs s).
Proof. revert s; induction ws as [|[i v] ws IH]; intros s; [done|]. simpl. by rewrite IH. Qed.

(** A batch shows nothing and executes nothing: that is the flush's. *)
Lemma write_all_shown ws s :
  shown (write_all ws s) = shown s
  ∧ out_runs (write_all ws s) = out_runs s ∧ calc_runs (write_all ws s) = calc_runs s.
Proof.
  revert s; induction ws as [|[i v] ws IH]; intros s; [done|].
  simpl. by destruct (IH (set_input i v s)) as (-> & -> & ->).
Qed.

Lemma log_write_all ws s : log (write_all ws s) = log s.
Proof. revert s; induction ws as [|[i v] ws IH]; intros s; [done|]. simpl. by rewrite IH. Qed.

Lemma elem_of_written_nil i : i ∉ written (ity:=ity) [].
Proof. unfold written. set_solver. Qed.

Lemma elem_of_written_cons i j (v : ity j) ws :
  i ∈ written (existT j v :: ws) ↔ i = j ∨ i ∈ written ws.
Proof. unfold written. set_solver. Qed.

(** The inputs a calc reads are the same after a write to another input. *)
Lemma run_calc_input_set env i (v : ity i) c :
  i ∉ (run_calc g env c).1 → run_calc g (input_set i v env) c = run_calc g env c.
Proof. intros Hi. by apply run_calc_agree, agree_on_input_set. Qed.

(** So are the inputs an output depends on. *)
Lemma out_depends_input_set env i (v : ity i) o :
  i ∉ out_depends g env o →
  out_depends g (input_set i v env) o = out_depends g env o.
Proof.
  intros Hi. unfold out_depends.
  rewrite (agree_on_out_depends g env) by by apply agree_on_input_set.
  f_equal. f_equal. apply list_fmap_ext. intros _ c Hc%list_elem_of_lookup_2.
  rewrite run_calc_input_set; [done|]. intros Hic. apply Hi, elem_of_out_depends.
  right. exists c. split; [by apply elem_of_elements|done].
Qed.

(** A batch makes pending exactly the outputs that depend on an input it
    writes. *)
Lemma write_all_pending_iff ws s o :
  coherent g s →
  pending (write_all ws s) o ↔
  pending s o ∨ ∃ i, i ∈ written ws ∧ i ∈ out_depends g (inputs s) o.
Proof.
  revert s; induction ws as [|[i v] ws IH]; intros s Hs; simpl.
  { pose proof elem_of_written_nil. naive_solver. }
  rewrite IH by engine_auto. rewrite set_input_pending_iff by done.
  setoid_rewrite elem_of_written_cons. simpl.
  destruct (decide (i ∈ out_depends g (inputs s) o)) as [Hi|Hi].
  - split; intros _; [right; exists i; split; [by left|done] | left; by right].
  - rewrite out_depends_input_set by done. naive_solver.
Qed.

(** A batch drops from the cache exactly the calcs that read an input it
    writes. *)
Lemma write_all_cached_iff ws s c :
  coherent g s →
  c ∈ dom (calcs (write_all ws s)) ↔
  c ∈ dom (calcs s) ∧ ∀ i, i ∈ written ws → i ∉ (run_calc g (inputs s) c).1.
Proof.
  revert s; induction ws as [|[i v] ws IH]; intros s Hs; simpl.
  { pose proof elem_of_written_nil. naive_solver. }
  rewrite IH by engine_auto.
  setoid_rewrite elem_of_written_cons. simpl.
  destruct (decide (i ∈ (run_calc g (inputs s) c).1)) as [Hi|Hi].
  - split; [|naive_solver]. intros [Hc _].
    by apply (set_input_drops_calc g i v s c Hs) in Hi.
  - rewrite run_calc_input_set by done. split.
    + intros [Hc Hws]. split; [|naive_solver].
      simpl in Hc. apply elem_of_dom in Hc as [n [Hn _]%map_lookup_filter_Some].
      by apply elem_of_dom_2 in Hn.
    + intros [Hc Hws]. split; [by apply (set_input_keeps_calc g i v) | naive_solver].
Qed.

(** Handling a message executes each registered output at most once:
    once if it was pending or depends on an input of the batch, not at
    all otherwise. *)
Lemma receive_out_runs ws s o :
  coherent g s →
  count_of o (out_runs (receive g ws s))
  = count_of o (out_runs s)
    + (if decide (o ∈ registry g ∧ pending (write_all ws s) o) then 1 else 0).
Proof.
  intros Hs. unfold receive. rewrite flush_out_runs by engine_auto.
  destruct (write_all_shown ws s) as (_ & -> & _). unfold executed, pending.
  f_equal. apply decide_ext. by rewrite not_elem_of_dom.
Qed.

(** After the message is handled, every registered output shows its
    value on the inputs the batch has produced. *)
Lemma receive_shown ws s o :
  coherent g s → o ∈ registry g →
  shown (receive g ws s) !! o = Some (eval_out g (inputs (write_all ws s)) o).2.
Proof. intros Hs Ho. apply flush_shown; engine_auto. Qed.

End batches.

#[export] Hint Resolve write_all_coherent : engine.

(** ** Writes of an unchanged value *)

Section unchanged.
Context {I : Type} {EqI : EqDecision I} {CntI : Countable I}.
Context {ity : I → Type} {Env : Type} {Store : InputStore I ity Env}.
Context {C : Type} {EqC : EqDecision C} {CntC : Countable C} {CV : Type}.
Context {O : Type} {EqO : EqDecision O} {CntO : Countable O} {OV : Type}.
Context {EqV : ∀ i, EqDecision (ity i)}.
Context (g : graph ity C CV O OV).
Abbreviation sess := (session (I:=I) (Env:=Env) (C:=C) (CV:=CV) (O:=O) (OV:=OV)).
Implicit Types (s : sess) (env : Env) (i : I) (o : O) (c : C).

(** Writing the value an input holds leaves every input as it reads. *)
Lemma agree_on_input_set_same D env i :
  agree_on D env (input_set i (input_get i env) env).
Proof.
  intros j _. destruct (decide (i = j)) as [<-|Hij].
  - by rewrite input_get_set_eq.
  - by rewrite input_get_set_ne.
Qed.

Lemma eval_out_input_set_same env i o :
  eval_out g (input_set i (input_get i env) env) o = eval_out g env o.
Proof. apply agree_on_out_depends, agree_on_input_set_same. Qed.

(** A flush does not touch what is shown for an output that is not
    registered. *)
Lemma flush_shown_unregistered s o :
  coherent g s → o ∉ registry g → shown (flush g s) !! o = shown s !! o.
Proof.
  intros Hs Ho. apply (ran_shown g _ _ _ (flush_ran g s Hs)).
  rewrite elem_of_backlog_set. tauto.
Qed.

(** After the flush, a write of the value the input already held shows
    what no write would have shown. *)
Lemma unchanged_write_shown i s :
  coherent g s →
  shown (flush g (set_input i (input_get i (inputs s)) s)) = shown (flush g s).
Proof.
  intros Hs. apply map_eq. intros o. destruct (decide (o ∈ registry g)) as [Ho|Ho].
  - rewrite !flush_shown by engine_auto. simpl. by rewrite eval_out_input_set_same.
  - rewrite !flush_shown_unregistered by engine_auto. by rewrite shown_set_input.
Qed.

Lemma set_input_changed_coherent i (v : ity i) s :
  coherent g s → coherent g (set_input_changed i v s).
Proof.
  intros Hs. unfold set_input_changed. case_decide; engine_auto.
Qed.

#[local] Hint Resolve set_input_changed_coherent : engine.

(** Skipping the writes of unchanged values cannot be seen in what the
    session shows. *)
Lemma set_input_changed_shown i (v : ity i) s :
  coherent g s →
  shown (flush g (set_input_changed i v s)) = shown (flush g (set_input i v s)).
Proof.
  intros Hs. unfold set_input_changed. case_decide as Hv; [|done].
  subst v. symmetry. by apply unchanged_write_shown.
Qed.

(** It can only save executions. *)
Lemma set_input_changed_out_runs i (v : ity i) s o :
  coherent g s →
  count_of o (out_runs (flush g (set_input_changed i v s)))
  ≤ count_of o (out_runs (flush g (set_input i v s))).
Proof.
  intros Hs. unfold set_input_changed. case_decide as Hv; [|done].
  rewrite !flush_out_runs by engine_auto.
  apply Nat.add_le_mono_l. unfold executed.
  destruct (decide (o ∈ registry g ∧ o ∉ dom (outs s))) as [[Ho Hp]|]; [|lia].
  rewrite decide_True; [done|]. split; [done|].
  apply not_elem_of_dom, (set_input_pending_iff g); [done|]. left. by apply not_elem_of_dom.
Qed.

(** ** Batches in which unchanged values are skipped *)

Lemma same_inputs_agree_on D env1 env2 : same_inputs env1 env2 → agree_on D env1 env2.
Proof. intros Ha i _. apply Ha. Qed.

Lemma same_inputs_eval_out env1 env2 o :
  same_inputs env1 env2 → eval_out g env2 o = eval_out g env1 o.
Proof. intros Ha. by apply agree_on_out_depends, same_inputs_agree_on. Qed.

Lemma same_inputs_out_depends env1 env2 o :
  same_inputs env1 env2 → out_depends g env2 o = out_depends g env1 o.
Proof.
  intros Ha. unfold out_depends. rewrite (same_inputs_eval_out env1 env2) by done.
  f_equal. f_equal. apply list_fmap_ext. intros _ c _.
  by rewrite (run_calc_agree g env1 env2 c) by by apply same_inputs_agree_on.
Qed.

(** A skipped write leaves the inputs the invalidating write leaves. *)
Lemma inputs_set_input_changed i (v : ity i) s :
  same_inputs (inputs (set_input_changed i v s)) (inputs (set_input i v s)).
Proof.
  unfold set_input_changed. case_decide as Hv; [|done]. subst v. intros j.
  rewrite inputs_set_input. apply (agree_on_input_set_same {[j]}). set_solver.
Qed.

Lemma skips_refl s : coherent g s → skips g s s.
Proof. by split. Qed.

Lemma skips_write i (v : ity i) s1 s2 :
  skips g s1 s2 → skips g (set_input_changed i v s1) (set_input i v s2).
Proof.
  intros Hk. destruct Hk as [H1 H2 Hin Hsh Hru Hp]. split; try engine_auto.
  - intros j. etrans; [apply inputs_set_input_changed|].
    rewrite !inputs_set_input. destruct (decide (i = j)) as [<-|Hne].
    + by rewrite !input_get_set_eq.
    + rewrite !input_get_set_ne by done. by apply Hin.
  - rewrite shown_set_input. unfold set_input_changed. case_decide; [done|].
    by rewrite shown_set_input.
  - unfold set_input_changed. by case_decide.
  - intros o. rewrite (set_input_pending_iff g i v s2) by done.
    unfold set_input_changed. case_decide as Hv; [by left; apply Hp|].
    rewrite (set_input_pending_iff g i v s1) by done.
    rewrite (same_inputs_out_depends (inputs s1) (inputs s2)) by done.
    intros [?|?]; [left; by apply Hp|by right].
Qed.

Lemma skips_write_all ws s1 s2 :
  skips g s1 s2 → skips g (write_all_changed ws s1) (write_all ws s2).
Proof.
  revert s1 s2; induction ws as [|[i v] ws IH]; intros s1 s2 Hk; [done|].
  simpl. by apply IH, skips_write.
Qed.

(** After the flush the two engines show the same, and the one that
    skips has executed no more. *)
Lemma skips_flush_shown s1 s2 : skips g s1 s2 → shown (flush g s1) = shown (flush g s2).
Proof.
  intros Hk. destruct Hk as [H1 H2 Hin Hsh Hru Hp].
  apply map_eq. intros o. destruct (decide (o ∈ registry g)) as [Ho|Ho].
  - rewrite !flush_shown by done. by rewrite (same_inputs_eval_out (inputs s1) (inputs s2)).
  - rewrite !flush_shown_unregistered by done. by rewrite Hsh.
Qed.

Lemma skips_flush_out_runs s1 s2 o :
  skips g s1 s2 → count_of o (out_runs (flush g s1)) ≤ count_of o (out_runs (flush g s2)).
Proof.
  intros Hk. destruct Hk as [H1 H2 Hin Hsh Hru Hp].
  rewrite !flush_out_runs, Hru by done. apply Nat.add_le_mono_l. unfold executed.
  destruct (decide (o ∈ registry g ∧ o ∉ dom (outs s1))) as [[Ho Hd]|]; [|lia].
  rewrite decide_True; [done|]. split; [done|].
  apply not_elem_of_dom, Hp. by apply not_elem_of_dom.
Qed.

End unchanged.

#[export] Hint Resolve set_input_changed_coherent : engine.
