(* ===== verification/Server.v ===== *)
(** * The server function ([src/app.py], lines 42-104)

    [server(input, output, session)] registers one [@reactive.calc],
    [filtered_data], and five outputs.  Each is a definition here with the
    name it has in the source, written in the monad [rx]: a read
    [input.<id>()] is [input <id>], a call [filtered_data()] is
    [call_filtered_data], and a Python expression that can raise is bound
    with [try!].  [server] is the graph the engine runs.

    The plotting libraries are called, not modelled: a chart is the record
    of the call that builds it ([px_histogram], [px_scatter]), and a
    matplotlib figure is the state its axes are left in.  The one call
    with an effect beyond its result is [plt.subplots()], which opens a
    figure that pyplot keeps until it is closed: it is an [Effect] of
    the function that makes it. *)

From Stdlib Require Import QArith Qcanon.
From stdpp Require Import base tactics option list strings gmap.
From S2P Require Import Prelude Python Dataframe Reactive.

#[local] Set Warnings "-clear-no-such-hyp".

(** ** The session's inputs (declared at lines 16-27, read by [server]) *)

Inductive input_id : Type :=
| selected_attribute
| plotly_bin_count
| seaborn_bin_count
| selected_species_list.

#[export] Instance input_id_eq_dec : EqDecision input_id.
Proof. solve_decision. Defined.

#[export] Instance input_id_countable : Countable input_id.
Proof.
  refine (inj_countable'
    (λ i, match i with
          | selected_attribute => 0 | plotly_bin_count => 1
          | seaborn_bin_count => 2 | selected_species_list => 3
          end)
    (λ n, match n with
          | 0 => selected_attribute | 1 => plotly_bin_count
          | 2 => seaborn_bin_count | _ => selected_species_list
          end) _).
  by intros [].
Defined.

(** The Python type of each input's value: a selectize yields a [str], a
    numeric widget a number or [None], a checkbox group a tuple of [str]. *)
Definition input_type (i : input_id) : Type :=
  match i with
  | selected_attribute => string
  | plotly_bin_count => option number
  | seaborn_bin_count => option number
  | selected_species_list => list string
  end.

(** The values of the four inputs of one session. *)
Record inputs_state : Type := Inputs {
  in_selected_attribute : string;
  in_plotly_bin_count : option number;
  in_seaborn_bin_count : option number;
  in_selected_species_list : list string;
}.

Definition inputs_get (i : input_id) (env : inputs_state) : input_type i :=
  match i with
  | selected_attribute => in_selected_attribute env
  | plotly_bin_count => in_plotly_bin_count env
  | seaborn_bin_count => in_seaborn_bin_count env
  | selected_species_list => in_selected_species_list env
  end.

Definition inputs_set (i : input_id) : input_type i → inputs_state → inputs_state :=
  match i with
  | selected_attribute => λ v env,
      Inputs v (in_plotly_bin_count env) (in_seaborn_bin_count env)
        (in_selected_species_list env)
  | plotly_bin_count => λ v env,
      Inputs (in_selected_attribute env) v (in_seaborn_bin_count env)
        (in_selected_species_list env)
  | seaborn_bin_count => λ v env,
      Inputs (in_selected_attribute env) (in_plotly_bin_count env) v
        (in_selected_species_list env)
  | selected_species_list => λ v env,
      Inputs (in_selected_attribute env) (in_plotly_bin_count env)
        (in_seaborn_bin_count env) v
  end.

Lemma inputs_get_set_eq i v env : inputs_get i (inputs_set i v env) = v.
Proof. by destruct i. Qed.

Lemma inputs_get_set_ne i j v env :
  i ≠ j → inputs_get j (inputs_set i v env) = inputs_get j env.
Proof. by destruct i, j. Qed.

(** Writing the value an input holds leaves the store as it is. *)
Lemma inputs_set_get i env : inputs_set i (inputs_get i env) env = env.
Proof. by destruct i, env. Qed.

(** A store is determined by what its inputs read. *)
Lemma inputs_ext env1 env2 :
  (∀ i, inputs_get i env1 = inputs_get i env2) → env1 = env2.
Proof.
  intros H. destruct env1, env2.
  pose proof (H selected_attribute). pose proof (H plotly_bin_count).
  pose proof (H seaborn_bin_count). pose proof (H selected_species_list).
  simpl in *. congruence.
Qed.

#[export] Instance input_type_eq_dec i : EqDecision (input_type i).
Proof. destruct i; simpl; apply _. Defined.

#[export] Instance inputs_store : InputStore input_id input_type inputs_state :=
  {| input_get := inputs_get; input_set := inputs_set;
     input_get_set_eq := inputs_get_set_eq; input_get_set_ne := inputs_get_set_ne |}.

(** ** Calcs and outputs registered by [server] *)

Inductive calc_id : Type :=
| calc_filtered_data.

#[export] Instance calc_id_eq_dec : EqDecision calc_id.
Proof. solve_decision. Defined.

#[export] Instance calc_id_countable : Countable calc_id.
Proof. refine (inj_countable' (λ _, ()) (λ _, calc_filtered_data) _). by intros []. Defined.

Inductive output_id : Type :=
| out_data_table
| out_data_grid
| out_plotly_histogram
| out_seaborn_histogram
| out_plotly_scatterplot.

#[export] Instance output_id_eq_dec : EqDecision output_id.
Proof. solve_decision. Defined.

#[export] Instance output_id_countable : Countable output_id.
Proof.
  refine (inj_countable'
    (λ o, match o with
          | out_data_table => 0 | out_data_grid => 1 | out_plotly_histogram => 2
          | out_seaborn_histogram => 3 | out_plotly_scatterplot => 4
          end)
    (λ n, match n with
          | 0 => out_data_table | 1 => out_data_grid | 2 => out_plotly_histogram
          | 3 => out_seaborn_histogram | _ => out_plotly_scatterplot
          end) _).
  by intros [].
Defined.

(** The name an output is registered under: the name of its function. *)
Definition output_name (o : output_id) : string :=
  match o with
  | out_data_table => "data_table"
  | out_data_grid => "data_grid"
  | out_plotly_histogram => "plotly_histogram"
  | out_seaborn_histogram => "seaborn_histogram"
  | out_plotly_scatterplot => "plotly_scatterplot"
  end.

(** The decorator each output function carries. *)
Inductive renderer : Type :=
| render_table
| render_widget
| render_plot.

#[export] Instance renderer_eq_dec : EqDecision renderer.
Proof. solve_decision. Defined.

Definition output_renderer (o : output_id) : renderer :=
  match o with
  | out_data_table | out_data_grid => render_table
  | out_plotly_histogram | out_plotly_scatterplot => render_widget
  | out_seaborn_histogram => render_plot
  end.

(** The decorator as the source writes it. *)
Definition renderer_decorator (r : renderer) : string :=
  match r with
  | render_table => "render.table"
  | render_widget => "render_widget"
  | render_plot => "render.plot"
  end.

(** ** What the outputs return *)

(** [px.histogram(data_frame, x=, nbins=, color=, title=)] (lines 64-70). *)
Record px_histogram : Type := PxHistogram {
  pxh_data_frame : dataframe;
  pxh_x : string;
  pxh_nbins : Z;
  pxh_color : string;
  pxh_title : string;
}.

(** [px.scatter(data_frame, x=, y=, color=, symbol=, labels=, title=)]
    (lines 92-103). *)
Record px_scatter : Type := PxScatter {
  pxs_data_frame : dataframe;
  pxs_x : string;
  pxs_y : string;
  pxs_color : string;
  pxs_symbol : string;
  pxs_labels : gmap string string;
  pxs_title : string;
}.

(** What [sns.histplot(data=, x=, bins=, hue=, ax=ax)] draws on [ax]
    (lines 79-85). *)
Record histplot : Type := Histplot {
  hp_data : dataframe;
  hp_x : string;
  hp_bins : Z;
  hp_hue : string;
}.

(** The figure of [plt.subplots()] with its one [Axes]: what has been
    drawn on the axes, and the axes' title.  [fig] and [ax] of line 78
    name the same object, so a call on [ax] changes what [fig] is. *)
Record mpl_figure : Type := Figure {
  ax_artists : list histplot;
  ax_title : string;
}.

(** The value an output function returns to its renderer. *)
Inductive artifact : Type :=
| ATable (df : dataframe)
| AHistogram (fig : px_histogram)
| AScatter (fig : px_scatter)
| APlot (fig : mpl_figure).

(** The renderer that accepts an artifact. *)
Definition artifact_renderer (a : artifact) : renderer :=
  match a with
  | ATable _ => render_table
  | AHistogram _ | AScatter _ => render_widget
  | APlot _ => render_plot
  end.

(** The data an artifact presents. *)
Definition artifact_data (a : artifact) : list dataframe :=
  match a with
  | ATable df => [df]
  | AHistogram fig => [pxh_data_frame fig]
  | AScatter fig => [pxs_data_frame fig]
  | APlot fig => hp_data <$> ax_artists fig
  end.

(** The column labels an artifact names. *)
Definition artifact_columns (a : artifact) : list string :=
  match a with
  | ATable _ => []
  | AHistogram fig => [pxh_x fig; pxh_color fig]
  | AScatter fig => [pxs_x fig; pxs_y fig; pxs_color fig; pxs_symbol fig]
  | APlot fig => ax_artists fig ≫= λ h, [hp_x h; hp_hue h]
  end.

(** [sns.histplot(..., ax=ax)] (lines 79-85) draws on the axes. *)
Definition sns_histplot (data : dataframe) (x : string) (bins : Z) (hue : string)
    (fig : mpl_figure) : mpl_figure :=
  Figure (ax_artists fig ++ [Histplot data x bins hue]) (ax_title fig).

(** [ax.set_title(t)] (line 86) replaces the axes' title. *)
Definition ax_set_title (t : string) (fig : mpl_figure) : mpl_figure :=
  Figure (ax_artists fig) t.

(** ** The reactive functions *)

Abbreviation calc_rx := (rx (inputE input_type)).
Abbreviation server_rx := (rx (readE input_type calc_id dataframe)).

(** [input.<i>()] inside an output function. *)
Definition input (i : input_id) : server_rx (input_type i) :=
  trigger (ReadInput i).

(** [filtered_data()] inside an output function. *)
Definition call_filtered_data : server_rx dataframe :=
  trigger (ReadCalc calc_filtered_data).

(** [plt.subplots()] (line 78): pyplot opens a new figure, which it
    keeps among its open figures until the figure is closed, and returns
    it with its one [Axes]: nothing drawn, no title. *)
Definition plt_subplots : server_rx mpl_figure :=
  (let! _ := trigger (Effect "plt.subplots") in
   return! (Figure [] ""))%rx.

(** ** Figures

    The figures an execution opened with pyplot, and the figures it
    handed to its renderer: the one it returned, if it returned one.  A
    figure that is opened and not returned is held by nobody, and is not
    closed. *)

Abbreviation server_execution := (execution (O:=output_id) (OV:=artifact)).

Definition ex_opened (e : server_execution) : nat :=
  length (filter (λ name, name = "plt.subplots") (ex_effects e)).

Definition ex_returned (e : server_execution) : nat :=
  match ex_outcome e with
  | Ok (APlot _) => 1
  | _ => 0
  end.

(** An execution that returned every figure it opened. *)
Definition figures_accounted (e : server_execution) : Prop :=
  ex_returned e = ex_opened e.

#[export] Instance figures_accounted_dec e : Decision (figures_accounted e).
Proof. unfold figures_accounted. apply _. Defined.

Section server.
Context (penguins_df : dataframe).

(** Lines 45-47: the rows of the table whose species is selected. *)
Definition filtered_data : calc_rx dataframe :=
  (let! selected := trigger (InputE selected_species_list) in
   try! df := where_isin penguins_df "species" selected in
   return! df)%rx.

(** Lines 49-52. *)
Definition data_table : server_rx artifact :=
  (let! df := call_filtered_data in
   return! (ATable df))%rx.

(** Lines 54-57. *)
Definition data_grid : server_rx artifact :=
  (let! df := call_filtered_data in
   return! (ATable df))%rx.

(** Lines 59-71.  The arguments of [px.histogram] are evaluated left to
    right: [filtered_data()] is called before [int(bins)] can raise. *)
Definition plotly_histogram : server_rx artifact :=
  (let! col := input selected_attribute in
   let! bins := input plotly_bin_count in
   let! df := call_filtered_data in
   try! nbins := py_int bins in
   return! (AHistogram
     (PxHistogram df col nbins "species" ("Plotly Histogram of " +:+ col))))%rx.

(** Lines 73-87. *)
Definition seaborn_histogram : server_rx artifact :=
  (let! col := input selected_attribute in
   let! bins := input seaborn_bin_count in
   let! fig := plt_subplots in
   let! df := call_filtered_data in
   try! nbins := py_int bins in
   let fig := sns_histplot df col nbins "species" fig in
   let fig := ax_set_title ("Seaborn Histogram of " +:+ col) fig in
   return! (APlot fig))%rx.

(** Lines 89-104. *)
Definition plotly_scatterplot : server_rx artifact :=
  (let! df := call_filtered_data in
   return! (AScatter
     (PxScatter df "bill_depth_mm" "bill_length_mm" "species" "species"
        (list_to_map [("bill_depth_mm", "Bill Depth (mm)");
                      ("bill_length_mm", "Bill Length (mm)")])
        "Bill Depth vs. Bill Length by Penguin Species")))%rx.

(** Lines 42-104: what [server] registers, in the order of the source. *)
Definition server : graph input_type calc_id dataframe output_id artifact :=
  Graph
    (λ c, match c with calc_filtered_data => filtered_data end)
    (λ o, match o with
          | out_data_table => data_table
          | out_data_grid => data_grid
          | out_plotly_histogram => plotly_histogram
          | out_seaborn_histogram => seaborn_histogram
          | out_plotly_scatterplot => plotly_scatterplot
          end)
    [out_data_table; out_data_grid; out_plotly_histogram;
     out_seaborn_histogram; out_plotly_scatterplot].

(** The Render Stage's contract: each output as a function of the inputs. *)
Definition render (env : inputs_state) (o : output_id) : result artifact :=
  let df := filtered (in_selected_species_list env) penguins_df in
  let col := in_selected_attribute env in
  match o with
  | out_data_table | out_data_grid => Ok (ATable df)
  | out_plotly_histogram =>
      result_map
        (λ n, AHistogram
           (PxHistogram df col n "species" ("Plotly Histogram of " +:+ col)))
        (py_int (in_plotly_bin_count env))
  | out_seaborn_histogram =>
      result_map
        (λ n, APlot
           (Figure [Histplot df col n "species"] ("Seaborn Histogram of " +:+ col)))
        (py_int (in_seaborn_bin_count env))
  | out_plotly_scatterplot =>
      Ok (AScatter
        (PxScatter df "bill_depth_mm" "bill_length_mm" "species" "species"
           (list_to_map [("bill_depth_mm", "Bill Depth (mm)");
                         ("bill_length_mm", "Bill Length (mm)")])
           "Bill Depth vs. Bill Length by Penguin Species"))
  end.

(** The figures an execution of output [o] on the store [env] opens and
    returns. *)
Definition figures_opened (env : inputs_state) (o : output_id) : nat :=
  ex_opened (fresh_execution server env o).

Definition figures_returned (env : inputs_state) (o : output_id) : nat :=
  ex_returned (fresh_execution server env o).

(** The inputs each output function reads itself. *)
Definition output_reads (o : output_id) : gset input_id :=
  match o with
  | out_data_table | out_data_grid | out_plotly_scatterplot => ∅
  | out_plotly_histogram => {[selected_attribute; plotly_bin_count]}
  | out_seaborn_histogram => {[selected_attribute; seaborn_bin_count]}
  end.

(** The inputs each output depends on, directly or through [filtered_data]. *)
Definition output_inputs (o : output_id) : gset input_id :=
  match o with
  | out_data_table | out_data_grid | out_plotly_scatterplot =>
      {[selected_species_list]}
  | out_plotly_histogram =>
      {[selected_attribute; plotly_bin_count; selected_species_list]}
  | out_seaborn_histogram =>
      {[selected_attribute; seaborn_bin_count; selected_species_list]}
  end.

End server.

(** Two stores that hold the same values, the species selection read as
    a set: the order and the repetitions of its entries apart. *)
Definition inputs_equiv (env1 env2 : inputs_state) : Prop :=
  in_selected_attribute env1 = in_selected_attribute env2
  ∧ in_plotly_bin_count env1 = in_plotly_bin_count env2
  ∧ in_seaborn_bin_count env1 = in_seaborn_bin_count env2
  ∧ same_elements (in_selected_species_list env1) (in_selected_species_list env2).

(** The inputs of a session that has just started. *)
Definition example_inputs : inputs_state :=
  Inputs "bill_length_mm" (Some (NInt 50)) (Some (NInt 50))
    ["Adelie"; "Gentoo"; "Chinstrap"].

(** Use an agreement of two stores on the inputs it names. *)
Ltac agree_input Ha i :=
  try (let H := fresh in
       assert (inputs_get i _ = inputs_get i _) as H by (apply Ha; set_solver);
       simpl in H; rewrite ?H; clear H).

Ltac agree_inputs Ha :=
  simpl in Ha;
  agree_input Ha selected_attribute; agree_input Ha plotly_bin_count;
  agree_input Ha seaborn_bin_count; agree_input Ha selected_species_list.

(** ** What the functions compute *)

Section server_facts.
Context (penguins_df : dataframe).
Implicit Types (env : inputs_state) (o : output_id) (a : artifact).

(** The node [filtered_data] of the graph, run on a store. *)
Lemma run_calc_filtered_data env :
  run_calc (server penguins_df) env calc_filtered_data
  = ({[selected_species_list]},
     Ok (filtered (in_selected_species_list env) penguins_df)).
Proof. unfold run_calc. simpl. rewrite where_isin_filtered. simpl. by f_equal. Qed.

Lemma filtered_data_reads env :
  (run_calc (server penguins_df) env calc_filtered_data).1 = {[selected_species_list]}.
Proof. by rewrite run_calc_filtered_data. Qed.

(** Each output of the graph, run on a store. *)
Lemma eval_out_server env o :
  eval_out (server penguins_df) env o
  = ((output_reads o, {[calc_filtered_data]}), render penguins_df env o).
Proof.
  unfold eval_out. destruct o; simpl; rewrite run_calc_filtered_data; simpl.
  3,4: match goal with |- context [py_int ?b] => destruct (py_int b) end; simpl.
  all: f_equal; f_equal; set_solver.
Qed.

(** The library calls each output function makes for their effect: the
    seaborn histogram opens a figure, on every path; the others make
    none. *)
Lemma out_effects_server env o :
  out_effects (server penguins_df) env o
  = if decide (o = out_seaborn_histogram) then ["plt.subplots"] else [].
Proof.
  unfold out_effects. destruct o; simpl; rewrite run_calc_filtered_data; simpl.
  3,4: match goal with |- context [py_int ?b] => destruct (py_int b) end.
  all: done.
Qed.

Lemma figures_opened_eq env o :
  figures_opened penguins_df env o = if decide (o = out_seaborn_histogram) then 1 else 0.
Proof.
  unfold figures_opened, ex_opened. simpl. rewrite out_effects_server. by case_decide.
Qed.

(** The figure is returned unless [int(bins)] raises, after the figure
    has been opened. *)
Lemma figures_returned_eq env o :
  figures_returned penguins_df env o
  = if decide (o = out_seaborn_histogram ∧ in_seaborn_bin_count env ≠ None) then 1 else 0.
Proof.
  unfold figures_returned, ex_returned. simpl. rewrite eval_out_server. case_decide as H.
  - destruct H as [-> Hn]. simpl. by destruct (in_seaborn_bin_count env) as [[z|q]|].
  - destruct o; simpl; try done; [by destruct (py_int _)|].
    destruct (in_seaborn_bin_count env) as [[z|q]|]; simpl; [by destruct H..|done].
Qed.

(** An execution leaves a figure that nobody holds exactly when it is the
    seaborn histogram's and the bin count is empty. *)
Lemma figure_orphaned_iff env o :
  figures_returned penguins_df env o < figures_opened penguins_df env o
  ↔ o = out_seaborn_histogram ∧ in_seaborn_bin_count env = None.
Proof.
  rewrite figures_returned_eq, figures_opened_eq.
  destruct (in_seaborn_bin_count env) as [n|]; repeat case_decide; naive_solver lia.
Qed.

(** Unless the seaborn bin count is empty, an execution returns every
    figure it opens. *)
Lemma fresh_execution_accounted env o :
  in_seaborn_bin_count env ≠ None →
  figures_accounted (fresh_execution (server penguins_df) env o).
Proof.
  intros Hn. unfold figures_accounted.
  pose proof (figure_orphaned_iff env o) as Ho.
  pose proof (figures_returned_eq env o). pose proof (figures_opened_eq env o).
  unfold figures_returned, figures_opened in *. repeat case_decide; naive_solver lia.
Qed.

(** The exceptions of the contract: [int(None)] in a histogram. *)
Lemma render_raises_iff env o e :
  render penguins_df env o = Err e ↔
  e = TypeError ∧
  (o = out_plotly_histogram ∧ in_plotly_bin_count env = None
   ∨ o = out_seaborn_histogram ∧ in_seaborn_bin_count env = None).
Proof.
  destruct o; simpl.
  1,2,5: naive_solver.
  - destruct (in_plotly_bin_count env) as [[]|]; simpl; naive_solver.
  - destruct (in_seaborn_bin_count env) as [[]|]; simpl; naive_solver.
Qed.

(** The artifacts of the contract: of the renderer's kind, presenting
    the filtered view. *)
Lemma render_artifact_renderer env o a :
  render penguins_df env o = Ok a → artifact_renderer a = output_renderer o.
Proof.
  destruct o; simpl; try (by intros [= <-]);
    destruct (py_int _); simpl; by intros [= <-].
Qed.

Lemma render_artifact_data env o a :
  render penguins_df env o = Ok a →
  artifact_data a = [filtered (in_selected_species_list env) penguins_df].
Proof.
  destruct o; simpl; try (by intros [= <-]);
    destruct (py_int _); simpl; by intros [= <-].
Qed.


(** C1. Each output function computes the Render Stage's contract
    [render], on every branch: the value when [int(bins)] succeeds and the
    exception when it raises; and it reads the same inputs and calls
    [filtered_data] either way. *)
Theorem server_computes_render env o :
  (eval_out (server penguins_df) env o).2 = render penguins_df env o
  ∧ (eval_out (server penguins_df) env o).1 = (output_reads o, {[calc_filtered_data]}).
Proof. by rewrite eval_out_server. Qed.

(** C10. An output is determined by the inputs in [output_inputs]: two
    stores that agree on them give the same outcome and the same reads.
    In particular the tables and the scatterplot do not depend on the
    selected column or on either bin count. *)
Theorem output_depends_only_on env1 env2 o :
  agree_on (output_inputs o) env1 env2 →
  eval_out (server penguins_df) env2 o = eval_out (server penguins_df) env1 o.
Proof.
  intros Ha. rewrite !eval_out_server. f_equal.
  destruct o; unfold render; by agree_inputs Ha.
Qed.

(** C6. The only exception an output can raise is the [TypeError] of
    [int(None)]: a histogram whose bin count input is empty.  The tables
    and the scatterplot never raise. *)
Theorem output_raises_iff env o e :
  (eval_out (server penguins_df) env o).2 = Err e ↔
  e = TypeError ∧
  (o = out_plotly_histogram ∧ in_plotly_bin_count env = None
   ∨ o = out_seaborn_histogram ∧ in_seaborn_bin_count env = None).
Proof. rewrite eval_out_server. apply render_raises_iff. Qed.

(** C30. Every artifact an output function returns is well formed: it is
    of the kind the function's renderer accepts (a table for
    [@render.table], a plotly figure for [@render_widget], a matplotlib
    figure for [@render.plot]), and it presents the filtered view and no
    other data. *)
Theorem output_artifact_wf env o a :
  (eval_out (server penguins_df) env o).2 = Ok a →
  artifact_renderer a = output_renderer o
  ∧ artifact_data a = [filtered (in_selected_species_list env) penguins_df].
Proof.
  rewrite eval_out_server. simpl. intros Hr.
  split; [by eapply render_artifact_renderer | by eapply render_artifact_data].
Qed.


(** Whether an output raises does not depend on the selection: an empty
    view is rendered like any other. *)
Lemma output_ok_any_selection env sel o :
  is_ok (eval_out (server penguins_df) (inputs_set selected_species_list sel env) o).2
  = is_ok (eval_out (server penguins_df) env o).2.
Proof.
  rewrite !eval_out_server. simpl.
  destruct o; simpl; try done; by destruct (py_int _).
Qed.

#[export] Instance inputs_equiv_equivalence : Equivalence inputs_equiv.
Proof.
  split.
  - by intros env.
  - intros env1 env2 (?&?&?&?). by split_and!.
  - intros env1 env2 env3 (?&?&?&?) (?&?&?&?). split_and!; by etrans.
Qed.

(** The Render Stage reads the selection as a set. *)
#[export] Instance render_proper :
  Proper (inputs_equiv ==> (=) ==> (=)) (render penguins_df).
Proof.
  intros env1 env2 (Ha & Hp & Hs & Hsel) o ? <-. unfold render.
  assert (filtered (in_selected_species_list env1) penguins_df
          = filtered (in_selected_species_list env2) penguins_df) as ->
    by by rewrite Hsel.
  by rewrite Ha, Hp, Hs.
Qed.

(** The outputs read the species selection as a set: two stores whose
    selections have the same elements give every output function the
    same outcome and the same reads. *)
Lemma output_selection_as_set env1 env2 o :
  inputs_equiv env1 env2 →
  eval_out (server penguins_df) env1 o = eval_out (server penguins_df) env2 o.
Proof. intros He. rewrite !eval_out_server. by rewrite He. Qed.

(** C11. Every output is a pure function of the filtered view and of
    the scalar inputs its function reads: two stores that give the same
    view and agree on those inputs give the output the same outcome and
    the same reads, whatever else differs, the selection itself
    included. *)
Theorem output_pure_in_view env1 env2 o :
  filtered (in_selected_species_list env1) penguins_df
  = filtered (in_selected_species_list env2) penguins_df →
  agree_on (output_reads o) env1 env2 →
  eval_out (server penguins_df) env1 o = eval_out (server penguins_df) env2 o.
Proof.
  intros Hview Ha. rewrite !eval_out_server. f_equal.
  destruct o; unfold render; rewrite Hview; by agree_inputs Ha.
Qed.

(** The columns an artifact names are columns of the table, provided the
    selected attribute is one. *)
Lemma output_columns_exist env o a :
  in_selected_attribute env ∈ columns →
  (eval_out (server penguins_df) env o).2 = Ok a →
  artifact_columns a ⊆ columns.
Proof.
  intros Hcol. rewrite eval_out_server. simpl.
  destruct o; simpl; try (intros [= <-]; simpl; set_solver).
  - destruct (py_int _); simpl; [|done]. intros [= <-]. simpl. set_solver.
  - destruct (py_int _); simpl; [|done]. intros [= <-]. simpl. set_solver.
Qed.

(** The inputs an output depends on are the same in every store: the
    functions do not branch on what they read. *)
Lemma server_out_depends env o :
  out_depends (server penguins_df) env o = output_inputs o.
Proof.
  unfold out_depends. rewrite eval_out_server. simpl.
  rewrite elements_singleton. simpl. rewrite run_calc_filtered_data. simpl.
  destruct o; set_solver.
Qed.

End server_facts.

(** ** The theorems at concrete inputs *)

Lemma output_depends_only_on_witness :
  eval_out (server sample_df)
    (Inputs "body_mass_g" None (Some (NInt 7)) ["Adelie"; "Gentoo"; "Chinstrap"])
    out_plotly_scatterplot
  = eval_out (server sample_df) example_inputs out_plotly_scatterplot.
Proof.
  apply output_depends_only_on. intros i Hi. simpl in Hi.
  apply elem_of_singleton in Hi. by subst i.
Defined.

Lemma output_artifact_wf_witness :
  artifact_renderer (ATable sample_df) = output_renderer out_data_grid
  ∧ artifact_data (ATable sample_df)
    = [filtered (in_selected_species_list example_inputs) sample_df].
Proof.
  apply (output_artifact_wf sample_df example_inputs out_data_grid).
  rewrite eval_out_server. by vm_compute.
Defined.


Lemma output_pure_in_view_witness :
  eval_out (server sample_df)
    (Inputs "body_mass_g" None (Some (NInt 7)) ["Gentoo"; "Emperor"]) out_seaborn_histogram
  = eval_out (server sample_df)
      (Inputs "body_mass_g" (Some (NInt 3)) (Some (NInt 7)) ["Gentoo"])
      out_seaborn_histogram.
Proof.
  apply output_pure_in_view; [by vm_compute|].
  intros i Hi. simpl in Hi. apply elem_of_union in Hi as [Hi|Hi];
    apply elem_of_singleton in Hi; by subst i.
Defined.
