(* ===== verification/App.v ===== *)
(** * The application: [App(app_ui, server)] ([src/app.py], line 119)

    The page and the server meet in a session: the client sends
    [(id, value)] messages for the page's widgets, the session stores them
    as the inputs [server] reads, and each registered output is shown in
    the placeholder of its name.  This file states what makes the two
    fit, and what a session of the application then guarantees. *)

From Stdlib Require Import QArith Qcanon.
From stdpp Require Import base tactics option list strings gmap.
From S2P Require Import Prelude Scope Python Dataframe Ui Reactive Server.

#[local] Set Warnings "-clear-no-such-hyp".

(** ** Client messages and server inputs *)

(** The attribute of [input] under which [server] reads each input. *)
Definition input_name (i : input_id) : string :=
  match i with
  | selected_attribute => "selected_attribute"
  | plotly_bin_count => "plotly_bin_count"
  | seaborn_bin_count => "seaborn_bin_count"
  | selected_species_list => "selected_species_list"
  end.

Definition all_inputs : list input_id :=
  [selected_attribute; plotly_bin_count; seaborn_bin_count; selected_species_list].

Definition input_of_name (id : string) : option input_id :=
  list_find (λ i, input_name i = id) all_inputs ≫= λ p, Some p.2.

(** A widget's value at the type the server reads it at. *)
Definition typed_value (i : input_id) : value → option (input_type i) :=
  match i with
  | selected_attribute => λ v, match v with VStr s => Some s | _ => None end
  | plotly_bin_count => λ v, match v with VNum n => Some n | _ => None end
  | seaborn_bin_count => λ v, match v with VNum n => Some n | _ => None end
  | selected_species_list => λ v, match v with VTuple l => Some l | _ => None end
  end.

Definition untyped_value (i : input_id) : input_type i → value :=
  match i with
  | selected_attribute => VStr
  | plotly_bin_count => VNum
  | seaborn_bin_count => VNum
  | selected_species_list => VTuple
  end.

Abbreviation app_event := (event (ity:=input_type)).
Abbreviation app_session :=
  (session (I:=input_id) (Env:=inputs_state) (C:=calc_id) (CV:=dataframe)
     (O:=output_id) (OV:=artifact)).

(** A client message as the write it causes, if it names an input of the
    server and carries a value of that input's type. *)
Definition decode (id : string) (v : value) : option app_event :=
  i ← input_of_name id; x ← typed_value i v; Some (EvSet i x).

(** The store of a new session, from the values the client reports for
    the page's widgets. *)
Definition session_inputs (msg : list (string * value)) : option inputs_state :=
  let m : gmap string value := list_to_map msg in
  a ← m !! "selected_attribute" ≫= typed_value selected_attribute;
  p ← m !! "plotly_bin_count" ≫= typed_value plotly_bin_count;
  s ← m !! "seaborn_bin_count" ≫= typed_value seaborn_bin_count;
  l ← m !! "selected_species_list" ≫= typed_value selected_species_list;
  Some (Inputs a p s l).

(** The message with which a client reports the values of a store: one
    pair for each input of the page. *)
Definition encode_inputs (env : inputs_state) : list (string * value) :=
  (λ i, (input_name i, untyped_value i (inputs_get i env))) <$> all_inputs.

(** The store a session of the application starts with. *)
Definition initial_inputs : inputs_state :=
  default (Inputs "" None None []) (session_inputs (initial_values app_ui)).

(** The store holds, for every input, a value the page's widget of that
    name can send. *)
Definition inputs_valid (env : inputs_state) : Prop :=
  ∀ i, valid_message app_ui (input_name i) (untyped_value i (inputs_get i env)).

(** The placeholder a renderer fills. *)
Definition placeholder_of (r : renderer) : placeholder :=
  match r with
  | render_table => ph_table
  | render_widget => ph_widget
  | render_plot => ph_plot
  end.

(** ** Sessions of the application *)

Section app.
Context (penguins_df : dataframe).

(** The transitions of a session that is driven through the page: a
    message the page can send is stored, or the engine flushes.  (What
    the server does with a message the page cannot send is in
    [Session] and [Process]: it stores it all the same.) *)
Inductive app_step : relation app_session :=
| app_message id v ev s :
    valid_message app_ui id v → decode id v = Some ev →
    app_step s (apply_event (server penguins_df) s ev)
| app_flush s :
    app_step s (flush (server penguins_df) s).

Definition app_reachable (s : app_session) : Prop :=
  rtc app_step (init initial_inputs) s.

(** What a user does with the page, as data: a widget sends a message,
    or the engine flushes.  A [Send] of a value the page cannot send is
    no action of the page, and is skipped. *)
Inductive client_action : Type :=
| Send (id : string) (v : value)
| Flush.

Definition act (s : app_session) (a : client_action) : app_session :=
  match a with
  | Send id v =>
      if decide (valid_message app_ui id v)
      then from_option (apply_event (server penguins_df) s) s (decode id v)
      else s
  | Flush => flush (server penguins_df) s
  end.

(** The session after a sequence of actions, from its start. *)
Definition play (acts : list client_action) : app_session :=
  foldl act (init initial_inputs) acts.

End app.

(** A session over [sample_df]: the first flush, then the client empties
    the plotly bin count, selects Gentoo only, and tries a slider value
    out of bounds, which the page cannot send. *)
Definition demo_session : app_session :=
  play sample_df
    [Flush;
     Send "plotly_bin_count" (VNum None);
     Send "selected_species_list" (VTuple ["Gentoo"]);
     Send "seaborn_bin_count" (VNum (Some (NInt 200)))].

(** ** The page and the server fit *)

Section fit.
Implicit Types (id : string) (v : value) (i : input_id) (env : inputs_state).

(** The valid messages of the page, widget by widget. *)
Lemma valid_message_app_ui id v :
  valid_message app_ui id v ↔
  (id = "selected_attribute" ∧ ∃ s, v = VStr s
     ∧ s ∈ ["bill_length_mm"; "bill_depth_mm"; "body_mass_g"])
  ∨ (id = "plotly_bin_count" ∧ ∃ n, v = VNum n)
  ∨ (id = "seaborn_bin_count" ∧ ∃ z, v = VNum (Some (NInt z)) ∧ (0 ≤ z ≤ 100)%Z)
  ∨ (id = "selected_species_list" ∧ ∃ l, v = VTuple l
       ∧ l `sublist_of` ["Adelie"; "Gentoo"; "Chinstrap"]).
Proof.
  rewrite valid_message_spec.
  change (input_widgets app_ui) with
    [("selected_attribute",
       ui.input_selectize "selected_attribute" "Select attribute"
         ["bill_length_mm"; "bill_depth_mm"; "body_mass_g"]);
     ("plotly_bin_count",
       ui.input_numeric "plotly_bin_count" "Plotly Histogram Bins" 50);
     ("seaborn_bin_count",
       ui.input_slider "seaborn_bin_count" "Seaborn Histogram Bins" 0 100 50);
     ("selected_species_list",
       ui.input_checkbox_group "selected_species_list" "Filter Species"
         ["Adelie"; "Gentoo"; "Chinstrap"] ["Adelie"; "Gentoo"; "Chinstrap"] true)].
  split.
  - intros (w & Hw & Hv). rewrite !elem_of_cons, elem_of_nil in Hw.
    destruct Hw as [[= -> ->]|[[= -> ->]|[[= -> ->]|[[= -> ->]|[]]]]];
      destruct v as [s|[[z|q]|]|l]; simpl in Hv; try done; eauto 10.
  - intros [(-> & s & -> & ?)|[(-> & n & ->)|[(-> & z & -> & ?)|(-> & l & -> & ?)]]];
      eexists; (split; [repeat first [left; reflexivity | right] | done]).
Qed.

(** A message that decodes is the write of its value to the input of its
    name: decoding loses nothing. *)
Lemma decode_Some_inv id v (ev : app_event) :
  decode id v = Some ev →
  ∃ i x, ev = EvSet i x ∧ input_name i = id ∧ untyped_value i x = v.
Proof.
  unfold decode, input_of_name. intros Hd.
  destruct (list_find _ all_inputs) as [[n i]|] eqn:Hf; [|done]. simpl in Hd.
  apply list_find_Some in Hf as (_ & Hi & _).
  destruct (typed_value i v) as [x|] eqn:Hx; [|done]. injection Hd as <-.
  exists i, x. split; [done|]. split; [done|].
  destruct i, v; simpl in Hx; by simplify_eq.
Qed.

(** C33. Every message the page can send names an input the server reads
    and carries a value of the type the server reads it at: the decoding
    never fails on a valid message, and loses nothing. *)
Theorem decode_valid_message id v :
  valid_message app_ui id v →
  ∃ i x, decode id v = Some (EvSet i x) ∧ input_name i = id ∧ untyped_value i x = v.
Proof.
  rewrite valid_message_app_ui.
  intros [(-> & s & -> & ?)|[(-> & n & ->)|[(-> & z & -> & ?)|(-> & l & -> & ?)]]].
  - by exists selected_attribute, s.
  - by exists plotly_bin_count, n.
  - by exists seaborn_bin_count, (Some (NInt z)).
  - by exists selected_species_list, l.
Qed.

Lemma typed_untyped_value i (x : input_type i) :
  typed_value i (untyped_value i x) = Some x.
Proof. by destruct i. Qed.

Lemma input_of_name_input_name i : input_of_name (input_name i) = Some i.
Proof. by destruct i. Qed.


(** C23. The graph [server] agrees with the text of the source and with
    the page.  The functions decorated [@output] are the registered
    outputs, in order, each with the decorator of its renderer; the
    placeholders of [app_ui] are these outputs, under the same names, in
    the same order, each of the kind its renderer fills; the one
    [@reactive.calc] is [filtered_data], whose body reads
    [input.selected_species_list]; and the body of each output function
    loads exactly the inputs the model reads, and calls
    [filtered_data]. *)
Theorem source_matches_graph (penguins_df : dataframe) :
  decorated "output" = output_name <$> registry (server penguins_df)
  ∧ output_placeholders app_ui
    = (λ o, (output_name o, placeholder_of (output_renderer o)))
        <$> registry (server penguins_df)
  ∧ decorated "reactive.calc" = ["filtered_data"]
  ∧ input_reads "filtered_data" = [input_name selected_species_list]
  ∧ ∀ o : output_id,
      decorators_of (output_name o)
      = ["output"; renderer_decorator (output_renderer o)]
      ∧ (∀ i, input_name i ∈ input_reads (output_name o) ↔ i ∈ output_reads o)
      ∧ Forall (λ x, x ∈ input_name <$> all_inputs) (input_reads (output_name o))
      ∧ "filtered_data" ∈ body_loads (output_name o).
Proof.
  split_and!; try reflexivity. intros o. split_and!.
  - by destruct o.
  - intros i. destruct o, i; compute_done.
  - destruct o; compute_done.
  - destruct o; compute_done.
Qed.

(** C24. The two render functions defined at module level (lines
    105-117) are dead code.  A call of either raises [NameError]:
    [filtered_data], which they load, is bound in the frame of a call of
    [server] and in no scope they can see.  And nothing calls them: they
    carry [@render.data_frame] and not [@output], [server] registers no
    output of their name, and [app_ui] has no placeholder of their
    name. *)
Theorem module_level_render_NameError (penguins_df : dataframe) (name : string) :
  name ∈ ["penguins_datatable"; "penguins_datagrid"] →
  call_function name = Err NameError
  ∧ ("filtered_data" ∉ app_globals ++ builtins)
  ∧ (∃ frame,
      call (app_globals ++ builtins) ["input"; "output"; "session"]
        (from_option def_body [] (find_def "server" app_py)) = Ok frame
      ∧ "filtered_data" ∈ frame)
  ∧ from_option def_decorators [] (find_def name app_py) = ["render.data_frame"]
  ∧ (name ∉ output_name <$> registry (server penguins_df))
  ∧ name ∉ (output_placeholders app_ui).*1.
Proof.
  intros Hn. destruct (module_level_call_NameError name Hn) as (Hcall & Hg & Hf & Hd).
  split_and!; try done;
    rewrite !elem_of_cons, elem_of_nil in Hn; destruct Hn as [->|[->|[]]]; compute_done.
Qed.

Lemma module_level_render_NameError_witness :
  call_function "penguins_datatable" = Err NameError
  ∧ ("filtered_data" ∉ app_globals ++ builtins)
  ∧ (∃ frame,
      call (app_globals ++ builtins) ["input"; "output"; "session"]
        (from_option def_body [] (find_def "server" app_py)) = Ok frame
      ∧ "filtered_data" ∈ frame)
  ∧ from_option def_decorators [] (find_def "penguins_datatable" app_py)
    = ["render.data_frame"]
  ∧ ("penguins_datatable" ∉ output_name <$> registry (server sample_df))
  ∧ "penguins_datatable" ∉ (output_placeholders app_ui).*1.
Proof.
  apply (module_level_render_NameError sample_df "penguins_datatable"). compute_done.
Defined.

(** The session starts with the values the page declares. *)
Lemma initial_inputs_eq :
  initial_inputs
  = Inputs "bill_length_mm" (Some (NInt 50)) (Some (NInt 50))
      ["Adelie"; "Gentoo"; "Chinstrap"].
Proof. reflexivity. Qed.

End fit.

(** ** What a session guarantees *)

Section sessions.
Context (penguins_df : dataframe).
Implicit Types (s : app_session) (o : output_id) (i : input_id) (env : inputs_state).

Abbreviation srv := (server penguins_df).

(** The valid stores, field by field. *)
Lemma inputs_valid_iff env :
  inputs_valid env ↔
  in_selected_attribute env ∈ ["bill_length_mm"; "bill_depth_mm"; "body_mass_g"]
  ∧ (∃ z, in_seaborn_bin_count env = Some (NInt z) ∧ (0 ≤ z ≤ 100)%Z)
  ∧ in_selected_species_list env `sublist_of` ["Adelie"; "Gentoo"; "Chinstrap"].
Proof.
  unfold inputs_valid. setoid_rewrite valid_message_app_ui. split.
  - intros Hv. split_and!.
    + destruct (Hv selected_attribute); naive_solver.
    + destruct (Hv seaborn_bin_count); naive_solver.
    + destruct (Hv selected_species_list); naive_solver.
  - intros (?&(z&Hz&?)&?) []; simpl; rewrite ?Hz; eauto 10.
Qed.

Lemma initial_inputs_valid : inputs_valid initial_inputs.
Proof.
  apply inputs_valid_iff. rewrite initial_inputs_eq. simpl. split_and!.
  - set_solver.
  - exists 50%Z. split; [done | lia].
  - done.
Qed.

(** Storing a valid message keeps the store valid. *)
Lemma write_event_valid id v ev env :
  valid_message app_ui id v → decode id v = Some ev →
  inputs_valid env → inputs_valid (write_event env ev).
Proof.
  intros Hm Hd Henv. destruct (decode_Some_inv id v ev Hd) as (i & x & -> & <- & <-).
  intros j. simpl.
  destruct (decide (i = j)) as [<-|Hij].
  - by rewrite inputs_get_set_eq.
  - rewrite inputs_get_set_ne by done. apply Henv.
Qed.

Lemma inputs_apply_event s (ev : app_event) :
  inputs (apply_event srv s ev) = write_event (inputs s) ev.
Proof. destruct ev; simpl; [done | apply inputs_flush]. Qed.

Lemma app_step_step s s' : app_step penguins_df s s' → step srv s s'.
Proof. destruct 1 as [id v [i x|] s|s]; constructor. Qed.

(** What every reachable state satisfies. *)
Lemma app_reachable_inv s :
  app_reachable penguins_df s → coherent srv s ∧ inputs_valid (inputs s).
Proof.
  apply (rtc_invariant _ (λ s, coherent srv s ∧ inputs_valid (inputs s))).
  - split; [apply init_coherent | apply initial_inputs_valid].
  - intros s1 s2 Hstep [Hc Hv]. split.
    + eapply step_coherent; [by apply app_step_step | done].
    + destruct Hstep; [|by rewrite inputs_flush].
      rewrite inputs_apply_event. by eapply write_event_valid.
Qed.

Lemma app_reachable_coherent s : app_reachable penguins_df s → coherent srv s.
Proof. by intros [? _]%app_reachable_inv. Qed.

(** Every output of the program is registered. *)
Lemma server_registered o : o ∈ registry srv.
Proof. destruct o; set_solver. Qed.

#[local] Hint Resolve app_reachable_coherent server_registered : engine.

(** After a flush every placeholder shows the contract's value. *)
Lemma app_flush_shown s o :
  app_reachable penguins_df s →
  shown (flush srv s) !! o = Some (render penguins_df (inputs s) o).
Proof.
  intros Hs. by rewrite flush_shown, eval_out_server by engine_auto.
Qed.

Lemma flushed_not_pending s o : app_reachable penguins_df s → ¬ pending (flush srv s) o.
Proof.
  intros Hs. apply flush_no_pending; engine_auto.
Qed.

(** C5. In every state a session can reach, the engine's caches are
    coherent with the inputs and the inputs hold values their widgets can
    send: the selected attribute is one of the three choices, the seaborn
    bin count is an integer within the slider's bounds, and the selected
    species are among the three choices. *)
Theorem app_reachable_invariant s :
  app_reachable penguins_df s →
  coherent srv s
  ∧ in_selected_attribute (inputs s) ∈ ["bill_length_mm"; "bill_depth_mm"; "body_mass_g"]
  ∧ (∃ z, in_seaborn_bin_count (inputs s) = Some (NInt z) ∧ (0 ≤ z ≤ 100)%Z)
  ∧ in_selected_species_list (inputs s) `sublist_of` ["Adelie"; "Gentoo"; "Chinstrap"].
Proof. intros [Hc Hv]%app_reachable_inv. split; [done|]. by apply inputs_valid_iff. Qed.

(** C3. Whatever the client has sent, after a flush every placeholder
    shows the Render Stage's value for the current inputs and no output
    is left pending: none is stale, none is missing, and none depends on
    the history. *)
Theorem app_shows_render s o :
  app_reachable penguins_df s →
  shown (flush srv s) !! o = Some (render penguins_df (inputs s) o)
  ∧ ¬ pending (flush srv s) o.
Proof. intros Hs. split; [by apply app_flush_shown | by apply flushed_not_pending]. Qed.

Lemma act_reachable s a :
  app_reachable penguins_df s → app_reachable penguins_df (act penguins_df s a).
Proof.
  intros Hs. destruct a as [id v|]; simpl.
  - case_decide as Hv; [|done]. destruct (decode id v) as [ev|] eqn:Hd; [|done].
    eapply rtc_r; [done|]. by econstructor.
  - eapply rtc_r; [done|]. constructor.
Qed.

Lemma play_reachable acts : app_reachable penguins_df (play penguins_df acts).
Proof.
  unfold play. induction acts as [|a acts IH] using rev_ind; [apply rtc_refl|].
  rewrite foldl_app. by apply act_reachable.
Qed.

(** The executable replay and the step relation describe the same
    sessions. *)
Lemma app_reachable_play s :
  app_reachable penguins_df s ↔ ∃ acts, s = play penguins_df acts.
Proof.
  split; [|intros [acts ->]; apply play_reachable].
  apply (rtc_invariant _ (λ s, ∃ acts, s = play penguins_df acts)).
  - by exists [].
  - intros s1 s2 Hstep [acts ->]. inversion_clear Hstep as [id v ev ? Hv Hd|].
    + exists (acts ++ [Send id v]). unfold play. rewrite foldl_app. simpl.
      by rewrite decide_True, Hd.
    + exists (acts ++ [Flush]). unfold play. by rewrite foldl_app.
Qed.

(** C7. In a reachable state the only output that can show an exception
    is the plotly histogram, and it does exactly when its numeric field
    is empty: [int(None)] raises [TypeError] inside the function.  The
    seaborn histogram, whose slider always holds an integer, the tables
    and the scatterplot never raise. *)
Theorem app_output_raises_iff s o e :
  app_reachable penguins_df s →
  shown (flush srv s) !! o = Some (Err e) ↔
  e = TypeError ∧ o = out_plotly_histogram ∧ in_plotly_bin_count (inputs s) = None.
Proof.
  intros Hs. rewrite app_flush_shown by done.
  apply app_reachable_inv in Hs as [_ (_ & (z & Hz & _) & _)%inputs_valid_iff].
  pose proof (render_raises_iff penguins_df (inputs s) o e) as Hr.
  split; [intros [= He]; apply Hr in He | intros He; f_equal; apply Hr];
    naive_solver.
Qed.

(** C36. The seaborn histogram is always drawn with an integer number of
    bins between 0 and 100, the slider's bounds, on a figure that holds
    this one histogram and the title of the selected column. *)
Theorem seaborn_histogram_bins s :
  app_reachable penguins_df s →
  ∃ z, (0 ≤ z ≤ 100)%Z ∧
    shown (flush srv s) !! out_seaborn_histogram
    = Some (Ok (APlot (Figure
        [Histplot (filtered (in_selected_species_list (inputs s)) penguins_df)
           (in_selected_attribute (inputs s)) z "species"]
        ("Seaborn Histogram of " +:+ in_selected_attribute (inputs s))))).
Proof.
  intros Hs. rewrite app_flush_shown by done.
  apply app_reachable_inv in Hs as [_ (_ & (z & Hz & ?) & _)%inputs_valid_iff].
  exists z. split; [done|]. simpl. by rewrite Hz.
Qed.

(** Every execution that has taken place in a session driven through
    the page returned the figures it opened. *)
Lemma app_reachable_log s :
  app_reachable penguins_df s → Forall figures_accounted (log s).
Proof.
  intros Hs. enough (app_reachable penguins_df s ∧ Forall figures_accounted (log s)) by tauto.
  revert Hs. apply (rtc_invariant _
    (λ s, app_reachable penguins_df s ∧ Forall figures_accounted (log s)));
    [split; [apply rtc_refl | constructor]|].
  intros x y Hxy [Hx Hlog]. split; [by eapply rtc_r|].
  assert (Forall figures_accounted (log (flush srv x))) as Hflush.
  { apply flush_log_Forall; [engine_auto| |done]. intros o.
    apply app_reachable_inv in Hx as [_ (_ & (z & Hz & _) & _)%inputs_valid_iff].
    apply fresh_execution_accounted. by rewrite Hz. }
  destruct Hxy as [id v [i x'|] x Hv Hd|x]; done.
Qed.

(** C9. No session driven through the page leaves a figure behind.
    [plt.subplots()] (line 78) opens a figure before [int(bins)] (line
    82) can raise; an execution that raises returns no figure, and the
    one it opened is held by nobody, while pyplot keeps it open.  The
    seaborn histogram opens one figure at every execution and no other
    output opens any; the figure is left behind exactly when the seaborn
    bin count is empty.  In a session driven through the page it never
    is: every execution that has taken place returned the figures it
    opened, and so will the next. *)
Theorem no_figure_orphaned s o :
  app_reachable penguins_df s →
  Forall figures_accounted (log s)
  ∧ figures_returned penguins_df (inputs s) o = figures_opened penguins_df (inputs s) o
  ∧ figures_opened penguins_df (inputs s) o
    = (if decide (o = out_seaborn_histogram) then 1 else 0)
  ∧ ∀ env, figures_returned penguins_df env o < figures_opened penguins_df env o
           ↔ o = out_seaborn_histogram ∧ in_seaborn_bin_count env = None.
Proof.
  intros Hs. split; [by apply app_reachable_log|].
  apply app_reachable_inv in Hs as [_ (_ & (z & Hz & _) & _)%inputs_valid_iff].
  split_and!; [|apply figures_opened_eq|intros env; apply figure_orphaned_iff].
  rewrite figures_returned_eq, figures_opened_eq, Hz. repeat case_decide; naive_solver.
Qed.

(** C37. The bin counts are not constrained to positive integers.  Zero
    bins can be asked of seaborn: the slider's lower bound is 0 and
    [int(bins)] passes it on.  And any integer can be asked of plotly,
    zero and the negative ones included: the numeric field has no
    bounds. *)
Theorem nonpositive_bins_reachable :
  (∃ s, app_reachable penguins_df s ∧
     ∃ fig h, shown (flush srv s) !! out_seaborn_histogram = Some (Ok (APlot fig))
       ∧ ax_artists fig = [h] ∧ hp_bins h = 0%Z)
  ∧ ∀ z : Z, ∃ s, app_reachable penguins_df s ∧
      ∃ fig, shown (flush srv s) !! out_plotly_histogram = Some (Ok (AHistogram fig))
        ∧ pxh_nbins fig = z.
Proof.
  split.
  - exists (play penguins_df [Send "seaborn_bin_count" (VNum (Some (NInt 0)))]).
    split; [apply play_reachable|].
    rewrite app_flush_shown by apply play_reachable. simpl. eauto.
  - intros z. exists (play penguins_df [Send "plotly_bin_count" (VNum (Some (NInt z)))]).
    split; [apply play_reachable|].
    rewrite app_flush_shown by apply play_reachable. simpl. eauto.
Qed.

(** C38. Every chart names columns the table has. *)
Theorem app_columns_exist s o a :
  app_reachable penguins_df s →
  shown (flush srv s) !! o = Some (Ok a) → artifact_columns a ⊆ columns.
Proof.
  intros Hs. rewrite app_flush_shown by done. intros [= Ha].
  apply app_reachable_inv in Hs as [_ (Hcol & _)%inputs_valid_iff].
  apply (output_columns_exist penguins_df (inputs s) o).
  - unfold columns. set_solver.
  - by rewrite eval_out_server.
Qed.

(** C31. The data grid duplicates the data table.  Both functions carry
    [@render.table], both placeholders are [ui.output_table], and in
    every session the two show the same: the same table, in the same
    presentation. *)
Theorem data_grid_duplicates_data_table s :
  app_reachable penguins_df s →
  output_renderer out_data_grid = output_renderer out_data_table
  ∧ (∃ k, (output_name out_data_table, k) ∈ output_placeholders app_ui
          ∧ (output_name out_data_grid, k) ∈ output_placeholders app_ui)
  ∧ shown (flush srv s) !! out_data_grid = shown (flush srv s) !! out_data_table.
Proof.
  intros Hs. split_and!; [done| |by rewrite !app_flush_shown].
  exists ph_table. split; compute_done.
Qed.

(** C14. A write makes pending exactly the outputs that depend on the
    written input: the tables and the scatterplot on the species
    selection only, each histogram also on the selected column and on its
    own bin count. *)
Theorem app_write_pending_iff s i (v : input_type i) o :
  app_reachable penguins_df s →
  pending (set_input i v s) o ↔ pending s o ∨ i ∈ output_inputs o.
Proof.
  intros Hs. by rewrite (set_input_pending_iff srv), server_out_depends by engine_auto.
Qed.

(** C12. Changing a bin count or the selected column does not recompute
    the tables or the scatterplot: their functions are not executed by
    the next flush, and what they show stays. *)
Theorem unrelated_write_keeps_output s i (v : input_type i) o :
  app_reachable penguins_df s → i ∉ output_inputs o →
  count_of o (out_runs (flush srv (set_input i v (flush srv s))))
  = count_of o (out_runs (flush srv s))
  ∧ shown (flush srv (set_input i v (flush srv s))) !! o = shown (flush srv s) !! o.
Proof.
  intros Hs Hi.
  assert (¬ pending (set_input i v (flush srv s)) o) as Hp.
  { rewrite (set_input_pending_iff srv), server_out_depends by engine_auto.
    by intros [?%flushed_not_pending|]. }
  split.
  - rewrite flush_out_runs by engine_auto. unfold executed. rewrite decide_False; [done|].
    intros [_ Hd]. by apply not_elem_of_dom in Hd.
  - by rewrite flush_keeps_shown by engine_auto.
Qed.

(** After a flush [filtered_data] is cached: the tables call it. *)
Lemma flush_caches_filtered_data s :
  coherent srv s → calc_filtered_data ∈ dom (calcs (flush srv s)).
Proof.
  intros Hs. apply (flush_caches_called srv s out_data_table); [done|set_solver|].
  rewrite eval_out_server. set_solver.
Qed.

(** C13. [filtered_data] is memoized: between two flushes its body runs
    once if the species selection was written, and not at all after a
    write to any other input, although five outputs call it. *)
Theorem filtered_data_memoized s i (v : input_type i) :
  app_reachable penguins_df s →
  count_of calc_filtered_data
    (calc_runs (flush srv (set_input i v (flush srv s))))
  = count_of calc_filtered_data (calc_runs (flush srv s))
    + (if decide (i = selected_species_list) then 1 else 0).
Proof.
  intros Hs. pose proof flush_caches_filtered_data as Hin.
  rewrite flush_calc_runs. f_equal. unfold newly_cached.
  rewrite (decide_ext _ (i = selected_species_list)); [by case_decide|].
  split.
  - intros [_ Hd]. destruct (decide (i = selected_species_list)) as [|Hne]; [done|].
    destruct Hd. apply (set_input_keeps_calc srv); [engine_auto|apply Hin; engine_auto|].
    rewrite run_calc_filtered_data. set_solver.
  - intros ->. split; [apply Hin; engine_auto|].
    apply (set_input_drops_calc srv); [engine_auto|].
    rewrite run_calc_filtered_data. set_solver.
Qed.

(** In a new session the first flush runs [filtered_data] once. *)
Lemma filtered_data_first_flush :
  count_of calc_filtered_data (calc_runs (flush srv (init initial_inputs))) = 1.
Proof.
  rewrite flush_calc_runs. unfold newly_cached. rewrite decide_True; [done|].
  split; [|set_solver]. apply flush_caches_filtered_data, init_coherent.
Qed.

End sessions.

#[export] Hint Resolve app_reachable_coherent act_reachable play_reachable
  server_registered : engine.

(** ** The theorems at a concrete session *)

Lemma decode_valid_message_witness :
  ∃ i x, decode "seaborn_bin_count" (VNum (Some (NInt 0))) = Some (EvSet i x)
    ∧ input_name i = "seaborn_bin_count" ∧ untyped_value i x = VNum (Some (NInt 0)).
Proof. apply decode_valid_message. compute_done. Defined.

Lemma app_reachable_invariant_witness :
  coherent (server sample_df) demo_session
  ∧ in_selected_attribute (inputs demo_session)
    ∈ ["bill_length_mm"; "bill_depth_mm"; "body_mass_g"]
  ∧ (∃ z, in_seaborn_bin_count (inputs demo_session) = Some (NInt z) ∧ (0 ≤ z ≤ 100)%Z)
  ∧ in_selected_species_list (inputs demo_session)
    `sublist_of` ["Adelie"; "Gentoo"; "Chinstrap"].
Proof. apply app_reachable_invariant, play_reachable. Defined.

Lemma app_shows_render_witness :
  shown (flush (server sample_df) demo_session) !! out_plotly_scatterplot
  = Some (render sample_df (inputs demo_session) out_plotly_scatterplot)
  ∧ ¬ pending (flush (server sample_df) demo_session) out_plotly_scatterplot.
Proof. apply app_shows_render, play_reachable. Defined.

Lemma app_output_raises_iff_witness :
  shown (flush (server sample_df) demo_session) !! out_plotly_histogram
  = Some (Err TypeError) ↔
  TypeError = TypeError ∧ out_plotly_histogram = out_plotly_histogram
  ∧ in_plotly_bin_count (inputs demo_session) = None.
Proof. apply app_output_raises_iff, play_reachable. Defined.

Lemma seaborn_histogram_bins_witness :
  ∃ z, (0 ≤ z ≤ 100)%Z ∧
    shown (flush (server sample_df) demo_session) !! out_seaborn_histogram
    = Some (Ok (APlot (Figure
        [Histplot (filtered (in_selected_species_list (inputs demo_session)) sample_df)
           (in_selected_attribute (inputs demo_session)) z "species"]
        ("Seaborn Histogram of " +:+ in_selected_attribute (inputs demo_session))))).
Proof. apply seaborn_histogram_bins, play_reachable. Defined.

Lemma no_figure_orphaned_witness :
  Forall figures_accounted (log demo_session)
  ∧ figures_returned sample_df (inputs demo_session) out_seaborn_histogram
  = figures_opened sample_df (inputs demo_session) out_seaborn_histogram
  ∧ figures_opened sample_df (inputs demo_session) out_seaborn_histogram
    = (if decide (out_seaborn_histogram = out_seaborn_histogram) then 1 else 0)
  ∧ ∀ env, figures_returned sample_df env out_seaborn_histogram
             < figures_opened sample_df env out_seaborn_histogram
           ↔ out_seaborn_histogram = out_seaborn_histogram
             ∧ in_seaborn_bin_count env = None.
Proof. apply no_figure_orphaned, play_reachable. Defined.

Lemma app_columns_exist_witness :
  artifact_columns
    (AScatter
       (PxScatter (filtered ["Gentoo"] sample_df) "bill_depth_mm" "bill_length_mm"
          "species" "species"
          (list_to_map [("bill_depth_mm", "Bill Depth (mm)");
                        ("bill_length_mm", "Bill Length (mm)")])
          "Bill Depth vs. Bill Length by Penguin Species"))
  ⊆ columns.
Proof.
  apply (app_columns_exist sample_df demo_session out_plotly_scatterplot);
    [apply play_reachable|].
  rewrite app_flush_shown by apply play_reachable. reflexivity.
Defined.

Lemma data_grid_duplicates_data_table_witness :
  output_renderer out_data_grid = output_renderer out_data_table
  ∧ (∃ k, (output_name out_data_table, k) ∈ output_placeholders app_ui
          ∧ (output_name out_data_grid, k) ∈ output_placeholders app_ui)
  ∧ shown (flush (server sample_df) demo_session) !! out_data_grid
    = shown (flush (server sample_df) demo_session) !! out_data_table.
Proof. apply data_grid_duplicates_data_table, play_reachable. Defined.

Lemma app_write_pending_iff_witness :
  pending (set_input plotly_bin_count (Some (NInt 10)) demo_session) out_data_table
  ↔ pending demo_session out_data_table
    ∨ plotly_bin_count ∈ output_inputs out_data_table.
Proof. apply (app_write_pending_iff sample_df), play_reachable. Defined.

Lemma unrelated_write_keeps_output_witness :
  count_of out_data_table
    (out_runs (flush (server sample_df)
       (set_input plotly_bin_count (Some (NInt 10))
          (flush (server sample_df) demo_session))))
  = count_of out_data_table (out_runs (flush (server sample_df) demo_session))
  ∧ shown (flush (server sample_df)
       (set_input plotly_bin_count (Some (NInt 10))
          (flush (server sample_df) demo_session))) !! out_data_table
    = shown (flush (server sample_df) demo_session) !! out_data_table.
Proof.
  apply unrelated_write_keeps_output; [apply play_reachable|].
  simpl. intros Hi%elem_of_singleton. discriminate Hi.
Defined.

Lemma filtered_data_memoized_witness :
  count_of calc_filtered_data
    (calc_runs (flush (server sample_df)
       (set_input selected_species_list ["Adelie"]
          (flush (server sample_df) demo_session))))
  = count_of calc_filtered_data (calc_runs (flush (server sample_df) demo_session))
    + (if decide (selected_species_list = selected_species_list) then 1 else 0).
Proof. apply filtered_data_memoized, play_reachable. Defined.

Example demo_session_runs :
  inputs demo_session = Inputs "bill_length_mm" None (Some (NInt 50)) ["Gentoo"]
  ∧ shown demo_session !! out_data_table = Some (Ok (ATable sample_df))
  ∧ shown (flush (server sample_df) demo_session) !! out_data_table
    = Some (Ok (ATable (filtered ["Gentoo"] sample_df)))
  ∧ shown (flush (server sample_df) demo_session) !! out_plotly_histogram
    = Some (Err TypeError)
  ∧ count_of calc_filtered_data (calc_runs (flush (server sample_df) demo_session)) = 2.
Proof. by vm_compute. Qed.
