(* ===== verification/Session.v ===== *)
(** * A session of the application at work

    What the engine does between two client messages, for the graph of
    this program: the handling of a message that carries several values
    ([handle_update]), which stores what arrives whether or not the page
    could have sent it ([page_message]), the order in which the engine
    executes the pending outputs ([Schedule.run_step] at [server]), and
    the writes of values that have not changed. *)

From Stdlib Require Import QArith Qcanon.
From stdpp Require Import base tactics option list strings relations gmap.
From S2P Require Import Prelude Python Dataframe Ui Reactive Schedule Update Server App.

#[local] Set Warnings "-clear-no-such-hyp".

(** ** Client messages with several values *)

(** The write a pair [(id, value)] of a message causes: the value is
    stored under the input the pair names.  Nothing is checked against
    the widget of that name: neither the program nor the framework
    validates what arrives.  A pair that names no input of [server]
    writes nothing an output reads, and is left out. *)
Definition decode_write (m : string * value) : option (sigT input_type) :=
  i ← input_of_name m.1; x ← typed_value i m.2; Some (existT i x).

(** The writes of a message, in its order. *)
Definition decode_all (msg : list (string * value)) : list (sigT input_type) :=
  omap decode_write msg.

(** A message the page can send: each pair is a value of one of its
    widgets. *)
Definition page_message (msg : list (string * value)) : Prop :=
  Forall (λ m, valid_message app_ui m.1 m.2) msg.

#[export] Instance page_message_dec msg : Decision (page_message msg).
Proof. unfold page_message. apply _. Defined.

Section session.
Context (penguins_df : dataframe).

(** The session handles a message: it stores the values, then flushes. *)
Definition handle_update (msg : list (string * value)) (s : app_session) : app_session :=
  receive (server penguins_df) (decode_all msg) s.

(** The same by an engine that skips the values that have not changed. *)
Definition handle_update_changed (msg : list (string * value)) (s : app_session)
  : app_session :=
  flush (server penguins_df) (write_all_changed (decode_all msg) s).

(** One step of a flush of a session of the application: the engine
    executes one of its pending outputs, whichever. *)
Definition executes : relation app_session := run_step (server penguins_df).

End session.

(** A session that has one pending output less than [demo_session], and
    one in which the engine took the outputs in the reverse order. *)
Definition demo_started : app_session :=
  run_output (server sample_df) out_plotly_scatterplot demo_session.

Definition demo_reversed : app_session :=
  default demo_session
    (run_schedule (server sample_df)
       [out_plotly_scatterplot; out_seaborn_histogram; out_plotly_histogram;
        out_data_grid; out_data_table]
       demo_session).

(** ** Messages *)

Section messages.
Context (penguins_df : dataframe).
Implicit Types (s : app_session) (o : output_id) (i : input_id).
Abbreviation srv := (server penguins_df).

Lemma decode_write_Some m i (x : input_type i) :
  decode_write m = Some (existT i x) → decode m.1 m.2 = Some (EvSet i x).
Proof.
  unfold decode_write, decode.
  destruct (input_of_name m.1) as [j|]; [|done]. simpl.
  destruct (typed_value j m.2) as [y|]; [|done]. simpl. intros. by simplify_eq.
Qed.

(** The writes of a message of the page are steps of the session. *)
Lemma write_all_reachable msg s :
  page_message msg → app_reachable penguins_df s →
  app_reachable penguins_df (write_all (decode_all msg) s).
Proof.
  intros Hmsg. revert s. induction Hmsg as [|m msg Hv _ IH]; intros s Hs; [done|].
  unfold decode_all. simpl. destruct (decode_write m) as [[i x]|] eqn:Hm; [|by apply IH].
  simpl. apply IH. apply decode_write_Some in Hm.
  eapply rtc_r; [exact Hs|]. by apply (app_message penguins_df m.1 m.2 (EvSet i x)).
Qed.

(** The writes of a message of the page keep the store one the page can
    produce. *)
Lemma store_all_valid msg env :
  page_message msg → inputs_valid env → inputs_valid (store_all (decode_all msg) env).
Proof.
  intros Hmsg. revert env. induction Hmsg as [|m msg Hv _ IH]; intros env Henv; [done|].
  unfold decode_all. simpl. destruct (decode_write m) as [[i x]|] eqn:Hm; [|by apply IH].
  simpl. apply IH. apply decode_write_Some in Hm.
  by apply (write_event_valid m.1 m.2 (EvSet i x)).
Qed.

Lemma handle_update_reachable msg s :
  page_message msg → app_reachable penguins_df s →
  app_reachable penguins_df (handle_update penguins_df msg s).
Proof.
  intros Hmsg Hs. eapply rtc_r; [by apply write_all_reachable|]. apply app_flush.
Qed.

End messages.

#[export] Hint Resolve write_all_reachable handle_update_reachable : engine.

(** ** The order of the flush *)

Section schedule.
Context (penguins_df : dataframe).
Implicit Types (s : app_session) (o : output_id) (i : input_id).
Abbreviation srv := (server penguins_df).

(** At most the five outputs of the program are pending. *)
Lemma server_backlog_le s : backlog srv s ≤ 5.
Proof.
  unfold backlog, backlog_set.
  etrans; [apply (subseteq_size _ (list_to_set (registry srv))); set_solver|].
  by vm_compute.
Qed.


(** C16. Every pending output is eventually shown: however far a flush
    has come, and in whatever order, it can go on, it ends after exactly
    as many executions as outputs are pending, and then nothing is
    pending and every placeholder shows the Render Stage's value for the
    current inputs. *)
Theorem pending_outputs_eventually_shown s s1 :
  app_reachable penguins_df s → rtc (executes penguins_df) s s1 →
  ∃ s2, nsteps (executes penguins_df) (backlog srv s1) s1 s2
        ∧ ∀ o, ¬ pending s2 o
               ∧ shown s2 !! o = Some (render penguins_df (inputs s) o).
Proof.
  intros Hs Hrun. pose proof Hs as [Hc _]%app_reachable_inv.
  destruct (schedule_completes srv s s1 Hc Hrun) as (s2 & Hn & Hq & He).
  exists s2. split; [done|]. intros o. split.
  - apply Hq, server_registered.
  - by rewrite (eq_shown _ _ He), app_flush_shown.
Qed.

(** C15. The order in which the engine executes the pending outputs
    cannot be observed: every schedule that runs to its end leaves the
    session the flush in registration order leaves, with the same caches,
    the same values shown, every function executed as often, and the
    same executions made, with the same effects, in another order at
    most. *)
Theorem schedule_order_unobservable s s' :
  app_reachable penguins_df s →
  rtc (executes penguins_df) s s' → nf (executes penguins_df) s' →
  s' ≡ₛ flush srv s.
Proof.
  intros [Hc _]%app_reachable_inv. by apply schedule_equiv_flush.
Qed.

End schedule.

(** ** Messages with several values, and values that have not changed *)

Section updates.
Context (penguins_df : dataframe).
Implicit Types (s : app_session) (o : output_id) (i : input_id).
Abbreviation srv := (server penguins_df).

(** C18. A message that changes several inputs at once executes each
    output at most once: after a flush, handling the message executes
    exactly the outputs that depend on an input the message writes, runs
    the body of [filtered_data] once if the message writes the species
    selection and not at all otherwise, and leaves every placeholder
    showing the value for the inputs the message has produced. *)
Theorem update_executes_dependents_once msg s o :
  app_reachable penguins_df s →
  count_of o (out_runs (handle_update penguins_df msg (flush srv s)))
  = count_of o (out_runs (flush srv s))
    + (if decide (written (decode_all msg) ## output_inputs o) then 0 else 1)
  ∧ count_of calc_filtered_data
      (calc_runs (handle_update penguins_df msg (flush srv s)))
    = count_of calc_filtered_data (calc_runs (flush srv s))
      + (if decide (selected_species_list ∈ written (decode_all msg)) then 1 else 0)
  ∧ shown (handle_update penguins_df msg (flush srv s)) !! o
    = Some (render penguins_df
              (inputs (write_all (decode_all msg) (flush srv s))) o).
Proof.
  intros Hs. assert (coherent srv (flush srv s)) as Hc by engine_auto.
  assert (coherent srv (write_all (decode_all msg) (flush srv s))) as Hw by engine_auto.
  unfold handle_update. split_and!.
  - rewrite receive_out_runs by done. f_equal.
    rewrite (decide_ext _ (¬ written (decode_all msg) ## output_inputs o)).
    { by destruct (decide (_ ## _)); [rewrite decide_False by tauto | rewrite decide_True]. }
    rewrite write_all_pending_iff, not_disjoint_exists by done.
    setoid_rewrite server_out_depends.
    pose proof (flushed_not_pending penguins_df s o Hs). pose proof (server_registered penguins_df o).
    tauto.
  - unfold receive. rewrite flush_calc_runs.
    destruct (write_all_shown (decode_all msg) (flush srv s)) as (_ & _ & ->). f_equal.
    unfold newly_cached. apply decide_ext.
    rewrite write_all_cached_iff by done.
    pose proof (flush_caches_filtered_data penguins_df _ Hw) as Hin'.
    assert (calc_filtered_data ∈ dom (calcs (flush srv s))) as Hin
      by (apply flush_caches_filtered_data; engine_auto).
    setoid_rewrite filtered_data_reads. setoid_rewrite elem_of_singleton. split.
    + intros [_ Hn]. destruct (decide (selected_species_list ∈ written (decode_all msg)));
        [done|]. destruct Hn. split; [done|]. by intros i Hi ->.
    + intros Hsel. split; [done|]. intros [_ Hall]. by apply (Hall _ Hsel).
  - by rewrite receive_shown, eval_out_server by engine_auto.
Qed.

(** C19. Writes of values the inputs already hold cannot be observed.
    An engine that skips them when it handles a message leaves the
    inputs, and after the flush every value shown, as the engine that
    invalidates on every write does; skipping only saves executions. *)
Theorem unchanged_write_unobservable msg s :
  app_reachable penguins_df s →
  shown (handle_update_changed penguins_df msg s) = shown (handle_update penguins_df msg s)
  ∧ inputs (handle_update_changed penguins_df msg s)
    = inputs (handle_update penguins_df msg s)
  ∧ ∀ o, count_of o (out_runs (handle_update_changed penguins_df msg s))
         ≤ count_of o (out_runs (handle_update penguins_df msg s)).
Proof.
  intros Hs.
  assert (skips srv (write_all_changed (decode_all msg) s) (write_all (decode_all msg) s))
    as Hk by (apply skips_write_all, skips_refl; engine_auto).
  unfold handle_update_changed, handle_update, receive. split_and!.
  - by apply skips_flush_shown.
  - rewrite !inputs_flush. apply inputs_ext, (skips_inputs _ _ _ Hk).
  - intros o. by apply skips_flush_out_runs.
Qed.

End updates.

(** ** The theorems at a concrete session *)

Lemma pending_outputs_eventually_shown_witness :
  ∃ s2, nsteps (executes sample_df)
          (backlog (server sample_df) demo_started) demo_started s2
        ∧ ∀ o, ¬ pending s2 o
               ∧ shown s2 !! o = Some (render sample_df (inputs demo_session) o).
Proof.
  apply pending_outputs_eventually_shown; [apply play_reachable|].
  apply rtc_once. constructor; [apply server_registered | by vm_compute].
Defined.

Lemma schedule_order_unobservable_witness :
  demo_reversed ≡ₛ flush (server sample_df) demo_session.
Proof.
  apply schedule_order_unobservable; [apply play_reachable| |].
  - eapply rtc_nsteps_2, run_schedule_nsteps. unfold demo_reversed.
    apply Some_default. compute_done.
  - apply nf_run_step, quiescent_backlog. by vm_compute.
Defined.

Lemma update_executes_dependents_once_witness :
  count_of out_plotly_histogram
    (out_runs (handle_update sample_df
       [("plotly_bin_count", VNum (Some (NInt 10)));
        ("selected_attribute", VStr "body_mass_g")]
       (flush (server sample_df) demo_session)))
  = count_of out_plotly_histogram (out_runs (flush (server sample_df) demo_session))
    + (if decide (written (decode_all
                    [("plotly_bin_count", VNum (Some (NInt 10)));
                     ("selected_attribute", VStr "body_mass_g")])
                  ## output_inputs out_plotly_histogram) then 0 else 1)
  ∧ count_of calc_filtered_data
      (calc_runs (handle_update sample_df
         [("plotly_bin_count", VNum (Some (NInt 10)));
          ("selected_attribute", VStr "body_mass_g")]
         (flush (server sample_df) demo_session)))
    = count_of calc_filtered_data (calc_runs (flush (server sample_df) demo_session))
      + (if decide (selected_species_list
                    ∈ written (decode_all
                        [("plotly_bin_count", VNum (Some (NInt 10)));
                         ("selected_attribute", VStr "body_mass_g")])) then 1 else 0)
  ∧ shown (handle_update sample_df
       [("plotly_bin_count", VNum (Some (NInt 10)));
        ("selected_attribute", VStr "body_mass_g")]
       (flush (server sample_df) demo_session)) !! out_plotly_histogram
    = Some (render sample_df
              (inputs (write_all
                 (decode_all
                    [("plotly_bin_count", VNum (Some (NInt 10)));
                     ("selected_attribute", VStr "body_mass_g")])
                 (flush (server sample_df) demo_session))) out_plotly_histogram).
Proof. apply update_executes_dependents_once, play_reachable. Defined.

Lemma unchanged_write_unobservable_witness :
  shown (handle_update_changed sample_df
           [("seaborn_bin_count", VNum (Some (NInt 50)));
            ("selected_species_list", VTuple ["Adelie"])] demo_session)
  = shown (handle_update sample_df
             [("seaborn_bin_count", VNum (Some (NInt 50)));
              ("selected_species_list", VTuple ["Adelie"])] demo_session)
  ∧ inputs (handle_update_changed sample_df
              [("seaborn_bin_count", VNum (Some (NInt 50)));
               ("selected_species_list", VTuple ["Adelie"])] demo_session)
    = inputs (handle_update sample_df
                [("seaborn_bin_count", VNum (Some (NInt 50)));
                 ("selected_species_list", VTuple ["Adelie"])] demo_session)
  ∧ ∀ o, count_of o (out_runs (handle_update_changed sample_df
                        [("seaborn_bin_count", VNum (Some (NInt 50)));
                         ("selected_species_list", VTuple ["Adelie"])] demo_session))
         ≤ count_of o (out_runs (handle_update sample_df
                          [("seaborn_bin_count", VNum (Some (NInt 50)));
                           ("selected_species_list", VTuple ["Adelie"])] demo_session)).
Proof. apply unchanged_write_unobservable, play_reachable. Defined.

(** The session run: the reversed schedule and the registration order
    show the same; a message with two values executes the plotly
    histogram once and the tables not at all. *)
Example demo_schedules_run :
  shown demo_reversed = shown (flush (server sample_df) demo_session)
  ∧ backlog (server sample_df) demo_session = 5
  ∧ backlog (server sample_df) demo_started = 4
  ∧ count_of out_plotly_histogram
      (out_runs (handle_update sample_df
         [("plotly_bin_count", VNum (Some (NInt 10)));
          ("selected_attribute", VStr "body_mass_g")]
         (flush (server sample_df) demo_session)))
    = S (count_of out_plotly_histogram
           (out_runs (flush (server sample_df) demo_session)))
  ∧ count_of out_data_table
      (out_runs (handle_update sample_df
         [("plotly_bin_count", VNum (Some (NInt 10)));
          ("selected_attribute", VStr "body_mass_g")]
         (flush (server sample_df) demo_session)))
    = count_of out_data_table (out_runs (flush (server sample_df) demo_session)).
Proof. by vm_compute. Qed.
