(* ===== verification/Process.v ===== *)
(** * The process: one table, one session per client

    Importing [src/app.py] loads the table once (line 9) and builds the
    application object (line 119); the framework then calls [server]
    (line 42) for every client that connects, so that each client has a
    calc [filtered_data] and five outputs of its own, over the one table
    they all read.  This file models the process as the table and the
    sessions of the connected clients ([process]), its start ([start]),
    and the requests it serves ([handle], [serve]).  It shows that what
    a client has is what it would have were it alone ([replay] of its
    own requests), that the table is the one loaded at the start, and
    that between two requests every client is shown the Render Stage's
    value for its own inputs, whatever the clients send.  What the page
    can send is [page_request]: a client that keeps to it has a session
    of [App]; one that does not can reach any store. *)

From Stdlib Require Import QArith Qcanon.
From stdpp Require Import base tactics option list strings relations gmap.
From S2P Require Import Prelude Python Dataframe Ui Reactive Schedule Update Server App Session.

#[local] Set Warnings "-clear-no-such-hyp".

(** ** The process *)

(** The running application: the module global [penguins_df] (line 9)
    and, for each connected client, the session [server] was called
    for. *)
Record process : Type := Process {
  penguins_df : dataframe;
  sessions : gmap nat app_session;
}.

(** What the clients ask of the process: a client connects, sends a
    message with new values of its widgets, or disconnects. *)
Inductive request : Type :=
| Connect (c : nat)
| Message (c : nat) (msg : list (string * value))
| Disconnect (c : nat).

Definition client (r : request) : nat :=
  match r with Connect c | Message c _ | Disconnect c => c end.

(** The import of the module, as to the table: line 9 calls the loader
    once; if it raises, the import is aborted and there is no
    application. *)
Definition start (load_penguins : result dataframe) : result process :=
  result_map (λ df, Process df ∅) load_penguins.

(** A new session: [server] is called for it over the table (line 42),
    the inputs hold what the page declares, and the outputs are executed
    for the first time. *)
Definition connect (df : dataframe) : app_session :=
  flush (server df) (init initial_inputs).

(** One request.  A client that is connected is not connected again; a
    message to a client that is not connected is dropped. *)
Definition handle (p : process) (r : request) : process :=
  match r with
  | Connect c =>
      match sessions p !! c with
      | Some _ => p
      | None => Process (penguins_df p) (<[c := connect (penguins_df p)]> (sessions p))
      end
  | Message c msg =>
      Process (penguins_df p) (alter (handle_update (penguins_df p) msg) c (sessions p))
  | Disconnect c => Process (penguins_df p) (delete c (sessions p))
  end.

(** The process serves the requests in the order they arrive. *)
Definition serve (p : process) (rs : list request) : process := foldl handle p rs.

(** ** One client alone *)

(** What a request does to the session of its client, if it has one. *)
Definition session_step (df : dataframe) (r : request) (s : option app_session)
  : option app_session :=
  match r with
  | Connect _ => Some (default (connect df) s)
  | Message _ msg => handle_update df msg <$> s
  | Disconnect _ => None
  end.

(** The session of a client that is served alone. *)
Definition replay (df : dataframe) (rs : list request) : option app_session :=
  foldl (λ s r, session_step df r s) None rs.

(** The requests of client [c] among those that arrive. *)
Definition requests_of (c : nat) (rs : list request) : list request :=
  filter (λ r, client r = c) rs.

(** ** The dashboard the process implements

    What the application is meant to be: each client has a store of
    input values, a function of the start values of the page and of the
    messages that client sent; what it is shown at each placeholder is
    the Render Stage's value for that store.  No cache, no pending
    output, no other client. *)

(** The store of a client's inputs after a request of that client. *)
Definition store_step (r : request) (env : option inputs_state) : option inputs_state :=
  match r with
  | Connect _ => Some (default initial_inputs env)
  | Message _ msg =>
      store_all (decode_all msg) <$> env
  | Disconnect _ => None
  end.

Definition store_of (rs : list request) : option inputs_state :=
  foldl (λ env r, store_step r env) None rs.

(** What client [c] is shown at placeholder [o] after the requests [rs]
    of all clients: nothing if it is not connected. *)
Definition dashboard (df : dataframe) (rs : list request) (c : nat) (o : output_id)
  : option (result artifact) :=
  (λ env, render df env o) <$> store_of (requests_of c rs).

(** A session at rest, between two requests: what it holds is coherent
    and no output is pending. *)
Definition at_rest (df : dataframe) (s : app_session) : Prop :=
  coherent (server df) s ∧ ∀ o, ¬ pending s o.

(** A request the page can cause: its message, if it has one, is one
    the page can send. *)
Definition page_request (r : request) : Prop :=
  match r with
  | Message _ msg => page_message msg
  | Connect _ | Disconnect _ => True
  end.

#[export] Instance page_request_dec r : Decision (page_request r).
Proof. destruct r; simpl; apply _. Defined.

(** Two clients over [sample_df]: the first selects Gentoo, the second
    empties its plotly bin count, the first leaves. *)
Definition demo_requests : list request :=
  [Connect 1; Connect 2;
   Message 1 [("selected_species_list", VTuple ["Gentoo"])];
   Message 2 [("plotly_bin_count", VNum None)];
   Message 3 [("selected_attribute", VStr "body_mass_g")];
   Disconnect 1].

(** ** Requests, one by one *)

Section requests.
Implicit Types (p : process) (r : request) (rs : list request) (c : nat)
  (s : app_session) (df : dataframe).

(** A request is a step of its client's session and of no other. *)
Lemma sessions_handle p r :
  sessions (handle p r)
  = partial_alter (session_step (penguins_df p) r) (client r) (sessions p).
Proof.
  destruct r as [c|c msg|c]; simpl.
  - apply map_eq. intros c'. destruct (sessions p !! c) as [s|] eqn:Hc; simpl.
    + destruct (decide (c = c')) as [<-|Hne];
        [by rewrite lookup_partial_alter_eq, Hc | by rewrite lookup_partial_alter_ne].
    + destruct (decide (c = c')) as [<-|Hne].
      * by rewrite lookup_insert_eq, lookup_partial_alter_eq, Hc.
      * by rewrite lookup_insert_ne, lookup_partial_alter_ne.
  - done.
  - done.
Qed.

Lemma handle_own p r :
  sessions (handle p r) !! client r
  = session_step (penguins_df p) r (sessions p !! client r).
Proof. by rewrite sessions_handle, lookup_partial_alter_eq. Qed.

Lemma handle_other p r c :
  client r ≠ c → sessions (handle p r) !! c = sessions p !! c.
Proof. intros Hc. by rewrite sessions_handle, lookup_partial_alter_ne. Qed.

(** No request changes the table. *)
Lemma penguins_df_handle p r : penguins_df (handle p r) = penguins_df p.
Proof. destruct r; simpl; [by destruct (sessions p !! c)|done..]. Qed.

Lemma penguins_df_serve p rs : penguins_df (serve p rs) = penguins_df p.
Proof.
  revert p; induction rs as [|r rs IH]; intros p; [done|].
  simpl. by rewrite IH, penguins_df_handle.
Qed.

Lemma serve_snoc p rs r : serve p (rs ++ [r]) = handle (serve p rs) r.
Proof. unfold serve. by rewrite foldl_app. Qed.

Lemma replay_snoc df rs r : replay df (rs ++ [r]) = session_step df r (replay df rs).
Proof. unfold replay. by rewrite foldl_app. Qed.

(** The session of a client in the process is the session of that client
    served alone, from where it stood. *)
Lemma serve_lookup p rs c :
  sessions (serve p rs) !! c
  = foldl (λ os r, session_step (penguins_df p) r os) (sessions p !! c) (requests_of c rs).
Proof.
  induction rs as [|r rs IH] using rev_ind; [done|].
  unfold requests_of in *. rewrite serve_snoc, filter_app, foldl_app.
  destruct (decide (client r = c)) as [<-|Hne].
  - rewrite (filter_cons_True _ r) by done. simpl.
    by rewrite handle_own, penguins_df_serve, IH.
  - rewrite (filter_cons_False _ r) by done. simpl.
    by rewrite handle_other, IH.
Qed.

(** From the start, it is the session of that client served alone. *)
Lemma serve_start_lookup df rs c :
  sessions (serve (Process df ∅) rs) !! c = replay df (requests_of c rs).
Proof. by rewrite serve_lookup. Qed.

End requests.

(** ** What every client is shown *)

Section clients.
Context (df : dataframe).
Implicit Types (p : process) (r : request) (rs : list request) (c : nat)
  (s : app_session) (o : output_id).
Abbreviation srv := (server df).

Lemma flush_at_rest s : coherent srv s → at_rest df (flush srv s).
Proof.
  intros Hs. split; [engine_auto|]. intros o.
  apply flush_no_pending; [done | apply server_registered].
Qed.

Lemma connect_at_rest : at_rest df (connect df).
Proof. apply flush_at_rest, init_coherent. Qed.

(** Whatever the message: the server stores what arrives and flushes. *)
Lemma handle_update_at_rest msg s :
  at_rest df s → at_rest df (handle_update df msg s).
Proof. intros [Hs _]. apply flush_at_rest. engine_auto. Qed.

Lemma session_step_at_rest r (os : option app_session) :
  from_option (at_rest df) True os → from_option (at_rest df) True (session_step df r os).
Proof.
  destruct r as [c|c msg|c], os as [s|]; simpl; try done.
  - intros _. apply connect_at_rest.
  - apply handle_update_at_rest.
Qed.

Lemma replay_at_rest rs : from_option (at_rest df) True (replay df rs).
Proof.
  induction rs as [|r rs IH] using rev_ind; [done|].
  rewrite replay_snoc. by apply session_step_at_rest.
Qed.

(** A client whose requests the page can cause has a session the
    single-session application can reach. *)
Lemma connect_reachable : app_reachable df (connect df).
Proof. apply rtc_once, app_flush. Qed.

Lemma session_step_reachable r (os : option app_session) :
  page_request r →
  from_option (app_reachable df) True os →
  from_option (app_reachable df) True (session_step df r os).
Proof.
  destruct r as [c|c msg|c], os as [s|]; simpl; try done.
  - intros _ _. apply connect_reachable.
  - apply handle_update_reachable.
Qed.

Lemma replay_reachable rs :
  Forall page_request rs → from_option (app_reachable df) True (replay df rs).
Proof.
  induction rs as [|r rs IH] using rev_ind; [done|].
  intros [Hrs [Hr _]%Forall_cons]%Forall_app.
  rewrite replay_snoc. apply session_step_reachable; auto.
Qed.

(** The inputs of a client's session are the store of the dashboard. *)
Lemma inputs_handle_update msg s :
  inputs (handle_update df msg s)
  = store_all (decode_all msg) (inputs s).
Proof. unfold handle_update, receive. by rewrite inputs_flush, inputs_write_all. Qed.

Lemma inputs_session_step r (os : option app_session) :
  inputs <$> session_step df r os = store_step r (inputs <$> os).
Proof.
  destruct r as [c|c msg|c], os as [s|]; simpl; try reflexivity.
  - unfold connect. by rewrite inputs_flush.
  - f_equal. apply inputs_handle_update.
Qed.

Lemma inputs_replay rs : inputs <$> replay df rs = store_of rs.
Proof.
  induction rs as [|r rs IH] using rev_ind; [done|].
  unfold store_of. rewrite replay_snoc, foldl_app, inputs_session_step. simpl.
  by rewrite IH.
Qed.

(** A session at rest shows the Render Stage's value for its inputs, and
    has nothing pending. *)
Lemma at_rest_shown s o :
  at_rest df s → shown s !! o = Some (render df (inputs s) o) ∧ ¬ pending s o.
Proof.
  intros [Hs Hp]. split; [|done].
  by rewrite (not_pending_shown srv s o Hs (Hp o)), eval_out_server.
Qed.

(** What a client is shown, from the start, is the dashboard's value. *)
Lemma serve_shown rs c o :
  sessions (serve (Process df ∅) rs) !! c ≫= (λ s, shown s !! o) = dashboard df rs c o.
Proof.
  rewrite serve_start_lookup. unfold dashboard. rewrite <- inputs_replay.
  pose proof (replay_at_rest (requests_of c rs)) as Hr.
  destruct (replay df (requests_of c rs)) as [s|]; simpl in *; [|done].
  by destruct (at_rest_shown s o Hr).
Qed.

(** The inputs of a client's session, from the start, are the store of
    the dashboard. *)
Lemma serve_inputs rs c :
  inputs <$> sessions (serve (Process df ∅) rs) !! c = store_of (requests_of c rs).
Proof. by rewrite serve_start_lookup, inputs_replay. Qed.

(** A client that empties the seaborn bin count has an execution in its
    log that opened a figure and returned none. *)
Lemma empty_bin_count_orphans c :
  ∃ s, sessions (serve (Process df ∅)
                   [Connect c; Message c [("seaborn_bin_count", VNum None)]]) !! c = Some s
       ∧ Exists (λ e, ex_returned e < ex_opened e) (log s).
Proof.
  rewrite serve_start_lookup. unfold requests_of.
  rewrite !filter_cons_True, filter_nil by done. eexists. split; [reflexivity|].
  apply list.Exists_exists.
  exists (fresh_execution srv
            (inputs (set_input (ity:=input_type) seaborn_bin_count None (connect df)))
            out_seaborn_histogram).
  split; [|by apply figure_orphaned_iff].
  apply flush_log_elem; [engine_auto | apply server_registered|].
  change (pending (set_input (ity:=input_type) seaborn_bin_count None (connect df))
            out_seaborn_histogram).
  apply (proj2 (set_input_pending_iff srv seaborn_bin_count None (connect df)
                  out_seaborn_histogram ltac:(engine_auto))).
  right. rewrite server_out_depends. set_solver.
Qed.

(** The dashboard of a client that has connected and sent one message. *)
Lemma dashboard_connect_message c msg o :
  dashboard df [Connect c; Message c msg] c o
  = Some (render df (store_all (decode_all msg) initial_inputs) o).
Proof.
  unfold dashboard, requests_of. by rewrite !filter_cons_True, filter_nil by done.
Qed.

End clients.

(** ** Sessions do not interfere *)

Section isolation.
Implicit Types (p : process) (r : request) (rs : list request) (c : nat)
  (s : app_session) (o : output_id) (df : dataframe).


(** C4. The process implements the dashboard.  Whatever requests the
    clients have sent, in whatever interleaving, messages the page could
    not have sent included, what a client is shown at each placeholder is
    the Render Stage's value, over the table loaded at the start, for
    the store that client's own messages have produced from the start
    values of the page; a client that is not connected is shown nothing.
    The session behind it has no output pending.  And if the client's
    own messages are ones the page can send, whatever the others have
    sent, its session is one the single-session application can reach. *)
Theorem process_implements_dashboard load_penguins p rs c o :
  start load_penguins = Ok p →
  ∃ df, load_penguins = Ok df
    ∧ sessions (serve p rs) !! c ≫= (λ s, shown s !! o) = dashboard df rs c o
    ∧ ∀ s, sessions (serve p rs) !! c = Some s →
        Some (inputs s) = store_of (requests_of c rs)
        ∧ ¬ pending s o
        ∧ (Forall page_request (requests_of c rs) → app_reachable df s).
Proof.
  destruct load_penguins as [df|e]; intros [= <-]. exists df. split; [done|].
  split; [apply serve_shown|]. rewrite serve_start_lookup. intros s Hs.
  pose proof (replay_at_rest df (requests_of c rs)) as Hr.
  pose proof (replay_reachable df (requests_of c rs)) as Hp.
  rewrite <- (inputs_replay df), Hs in *. simpl in *.
  split_and!; [done | by destruct (at_rest_shown df s o Hr) | done].
Qed.

(** C8. The page is the only validation.  Neither the program nor the
    framework checks a message against the widget it names, so a client
    that does not go through the page can bring its session to any
    store, and is shown the Render Stage's value for it.  In particular
    it can empty the seaborn bin count, which the slider never does, and
    is then shown the [TypeError] of [int(None)], while the figure that
    line 78 had opened is left behind; and it can have the plotly
    histogram drawn over any column name, a column of the table or
    not. *)
Theorem server_trusts_client df c :
  (∀ env o,
     sessions (serve (Process df ∅) [Connect c; Message c (encode_inputs env)]) !! c
       ≫= (λ s, shown s !! o)
     = Some (render df env o))
  ∧ ¬ page_message [("seaborn_bin_count", VNum None)]
  ∧ (∃ s, sessions (serve (Process df ∅)
                      [Connect c; Message c [("seaborn_bin_count", VNum None)]]) !! c
          = Some s
      ∧ shown s !! out_seaborn_histogram = Some (Err TypeError)
      ∧ Exists (λ e, ex_returned e < ex_opened e) (log s))
  ∧ ∀ col, ∃ fig,
      sessions (serve (Process df ∅)
                  [Connect c; Message c [("selected_attribute", VStr col)]]) !! c
        ≫= (λ s, shown s !! out_plotly_histogram)
      = Some (Ok (AHistogram fig))
      ∧ pxh_x fig = col.
Proof.
  split_and!.
  - intros env o. rewrite serve_shown, dashboard_connect_message. by destruct env.
  - compute_done.
  - destruct (empty_bin_count_orphans df c) as (s & Hs & Hlog).
    pose proof (serve_shown df [Connect c; Message c [("seaborn_bin_count", VNum None)]]
                  c out_seaborn_histogram) as Hshown.
    rewrite dashboard_connect_message, Hs in Hshown. by exists s.
  - intros col. eexists. by rewrite serve_shown, dashboard_connect_message.
Qed.

(** If the loader raises there is no process to serve. *)
Lemma start_raises load_penguins e :
  start load_penguins = Err e ↔ load_penguins = Err e.
Proof. destruct load_penguins; simpl; naive_solver. Qed.

End isolation.

(** ** The theorems at concrete requests *)


Lemma process_implements_dashboard_witness :
  ∃ df, Ok sample_df = Ok df
    ∧ sessions (serve (Process sample_df ∅) demo_requests) !! 2
        ≫= (λ s, shown s !! out_plotly_histogram)
      = dashboard df demo_requests 2 out_plotly_histogram
    ∧ ∀ s, sessions (serve (Process sample_df ∅) demo_requests) !! 2 = Some s →
        Some (inputs s) = store_of (requests_of 2 demo_requests)
        ∧ ¬ pending s out_plotly_histogram
        ∧ (Forall page_request (requests_of 2 demo_requests) → app_reachable df s).
Proof. by apply (process_implements_dashboard (Ok sample_df)). Defined.

(** The requests run: the first client has left, the second is shown a
    [TypeError] for its plotly histogram and the whole table, and the
    message to a client that never connected is dropped. *)
Example demo_requests_run :
  dom (sessions (serve (Process sample_df ∅) demo_requests)) = {[2]}
  ∧ dashboard sample_df demo_requests 1 out_data_table = None
  ∧ dashboard sample_df demo_requests 2 out_plotly_histogram = Some (Err TypeError)
  ∧ store_of (requests_of 2 demo_requests)
    = Some (Inputs "bill_length_mm" None (Some (NInt 50)) ["Adelie"; "Gentoo"; "Chinstrap"])
  ∧ (sessions (serve (Process sample_df ∅) demo_requests) !! 2
     ≫= λ s, shown s !! out_plotly_histogram) = Some (Err TypeError)
  ∧ (sessions (serve (Process sample_df ∅) demo_requests) !! 2
     ≫= λ s, shown s !! out_data_table) = Some (Ok (ATable sample_df)).
Proof. by vm_compute. Qed.

(** A client that does not go through the page: the slider cannot send
    200 and the selectize has no choice [weight], yet the session stores
    both and the seaborn histogram is drawn with them. *)
Example demo_bypass_run :
  ¬ page_message [("seaborn_bin_count", VNum (Some (NInt 200)));
                  ("selected_attribute", VStr "weight")]
  ∧ (sessions (serve (Process sample_df ∅)
                [Connect 1;
                 Message 1 [("seaborn_bin_count", VNum (Some (NInt 200)));
                            ("selected_attribute", VStr "weight")]]) !! 1
     ≫= λ s, shown s !! out_seaborn_histogram)
    = Some (Ok (APlot (Figure [Histplot sample_df "weight" 200 "species"]
                         "Seaborn Histogram of weight"))).
Proof. split; [compute_done | by vm_compute]. Qed.

(** Each message that leaves the seaborn bin count empty costs the
    process one more figure: after three of them, three executions of
    the client's session opened a figure and returned none. *)
Example demo_bypass_accumulates :
  (length ∘ filter (λ e, ¬ figures_accounted e) ∘ log)
    <$> sessions (serve (Process sample_df ∅)
                    [Connect 1;
                     Message 1 [("seaborn_bin_count", VNum None)];
                     Message 1 [("seaborn_bin_count", VNum None)];
                     Message 1 [("seaborn_bin_count", VNum None)]]) !! 1
  = Some 3.
Proof. by vm_compute. Qed.
