(* ===== verification/Interleave.v ===== *)
(** * Requests and executions, interleaved

    [Process.serve] handles a request as a whole: the writes of a
    message and then the flush of its session.  This file does not fix
    how the framework orders the work: it models the process step by
    step ([proc_step]: a request arrives, or one pending output of one
    session is executed), so that the executions of one client's outputs
    may be interleaved with the requests and executions of the others
    and with further messages of the same client.  It shows that the
    interleaving cannot be observed: in every run each output that is
    not pending shows the dashboard's value, and every client can always
    be brought up to date.  The service of [Process] is one of the
    runs.  The executions of a client that keeps to the page return the
    figures they open, in every run. *)

From Stdlib Require Import QArith Qcanon.
From stdpp Require Import base tactics option list strings relations gmap.
From S2P Require Import Prelude Dataframe Ui Reactive Schedule Update Server App Session Process.

#[local] Set Warnings "-clear-no-such-hyp".

(** ** Steps and runs *)

(** What happens in the process: a request arrives, or the engine
    executes output [o] of the session of client [c]. *)
Inductive action : Type :=
| Request (r : request)
| Execute (c : nat) (o : output_id).

(** The requests of a run, in their order. *)
Definition requests (tr : list action) : list request :=
  omap (λ a, match a with Request r => Some r | Execute _ _ => None end) tr.

(** One step.  A new session has every output pending; a message is
    stored, which makes pending what depends on it; an execution takes a
    pending output of a connected client. *)
Inductive proc_step : process → action → process → Prop :=
| step_connect p c :
    sessions p !! c = None →
    proc_step p (Request (Connect c))
      (Process (penguins_df p) (<[c := init initial_inputs]> (sessions p)))
| step_connected p c :
    is_Some (sessions p !! c) →
    proc_step p (Request (Connect c)) p
| step_message p c msg :
    proc_step p (Request (Message c msg))
      (Process (penguins_df p) (alter (write_all (decode_all msg)) c (sessions p)))
| step_disconnect p c :
    proc_step p (Request (Disconnect c))
      (Process (penguins_df p) (delete c (sessions p)))
| step_execute p c o s :
    sessions p !! c = Some s → pending s o →
    proc_step p (Execute c o)
      (Process (penguins_df p)
         (<[c := run_output (server (penguins_df p)) o s]> (sessions p))).

(** A run: the steps of a list of actions, one after the other. *)
Inductive proc_run : process → list action → process → Prop :=
| proc_run_nil p : proc_run p [] p
| proc_run_cons p a p' tr p'' :
    proc_step p a p' → proc_run p' tr p'' → proc_run p (a :: tr) p''.

(** The step as a function: [None] when the action cannot be taken. *)
Definition exec_action (p : process) (a : action) : option process :=
  match a with
  | Request (Connect c) =>
      Some (match sessions p !! c with
            | Some _ => p
            | None => Process (penguins_df p) (<[c := init initial_inputs]> (sessions p))
            end)
  | Request (Message c msg) =>
      Some (Process (penguins_df p) (alter (write_all (decode_all msg)) c (sessions p)))
  | Request (Disconnect c) => Some (Process (penguins_df p) (delete c (sessions p)))
  | Execute c o =>
      s ← sessions p !! c;
      match outs s !! o with
      | Some _ => None
      | None =>
          Some (Process (penguins_df p)
                  (<[c := run_output (server (penguins_df p)) o s]> (sessions p)))
      end
  end.

Fixpoint exec_actions (p : process) (tr : list action) : option process :=
  match tr with
  | [] => Some p
  | a :: tr' => exec_action p a ≫= λ p', exec_actions p' tr'
  end.

(** The store of client [c] after an action. *)
Definition store_action (c : nat) (a : action) (env : option inputs_state)
  : option inputs_state :=
  match a with
  | Request r => if decide (client r = c) then store_step r env else env
  | Execute _ _ => env
  end.

(** An action the page can cause at client [c]: a request of [c] is one
    the page can cause; what other clients ask and what the engine
    executes is not constrained. *)
Definition page_action (c : nat) (a : action) : Prop :=
  match a with
  | Request r => client r = c → page_request r
  | Execute _ _ => True
  end.

(** A session whose store the page can produce and whose executions
    have all returned the figures they opened. *)
Definition accounted (df : dataframe) (s : app_session) : Prop :=
  coherent (server df) s ∧ inputs_valid (inputs s) ∧ Forall figures_accounted (log s).

(** Every session of the process is coherent, over the table [df]. *)
Definition proc_coherent (df : dataframe) (p : process) : Prop :=
  penguins_df p = df
  ∧ ∀ c s, sessions p !! c = Some s → coherent (server df) s.

(** Two clients whose requests and executions alternate: the second
    changes its selection while the first is in mid-flush. *)
Definition demo_actions : list action :=
  [Request (Connect 1); Execute 1 out_data_table;
   Request (Connect 2); Execute 1 out_plotly_histogram;
   Request (Message 2 [("selected_species_list", VTuple ["Gentoo"])]);
   Execute 2 out_data_grid; Execute 1 out_data_grid;
   Request (Message 1 [("plotly_bin_count", VNum None)]);
   Execute 2 out_plotly_scatterplot].

Definition demo_interleaved : process :=
  default (Process sample_df ∅) (exec_actions (Process sample_df ∅) demo_actions).

Definition demo_second_client : app_session :=
  default (init initial_inputs) (sessions demo_interleaved !! 2).

(** ** Steps *)

Section steps.
Implicit Types (p : process) (a : action) (tr : list action) (c : nat)
  (s : app_session) (o : output_id) (df : dataframe).

(** The function and the relation describe the same steps. *)
Lemma exec_action_step p a p' : exec_action p a = Some p' ↔ proc_step p a p'.
Proof.
  split.
  - destruct a as [[c|c msg|c]|c o]; simpl.
    + destruct (sessions p !! c) eqn:Hc; intros [= <-];
        [apply step_connected; by rewrite Hc | by apply step_connect].
    + intros [= <-]. constructor.
    + intros [= <-]. constructor.
    + destruct (sessions p !! c) as [s|] eqn:Hc; simpl; [|done].
      destruct (outs s !! o) eqn:Ho; [done|]. intros [= <-]. by eapply step_execute.
  - destruct 1 as [p c Hc|p c [s Hc]|p c msg|p c|p c o s Hc Ho]; simpl;
      rewrite ?Hc; simpl; try done.
    unfold pending in Ho. by rewrite Ho.
Qed.

Lemma exec_actions_run p tr p' : exec_actions p tr = Some p' ↔ proc_run p tr p'.
Proof.
  revert p; induction tr as [|a tr IH]; intros p; simpl.
  { split; [intros [= <-]; constructor | by inversion 1]. }
  split.
  - destruct (exec_action p a) as [p1|] eqn:Ha; simpl; [|done].
    intros Hr%IH. econstructor; [by apply exec_action_step|done].
  - inversion_clear 1 as [|? ? p1 ? ? Hs Hr].
    apply exec_action_step in Hs. rewrite Hs. simpl. by apply IH.
Qed.

Lemma proc_run_app p tr1 p1 tr2 p2 :
  proc_run p tr1 p1 → proc_run p1 tr2 p2 → proc_run p (tr1 ++ tr2) p2.
Proof. induction 1; simpl; [done|]. intros. econstructor; eauto. Qed.

Lemma requests_app tr1 tr2 : requests (tr1 ++ tr2) = requests tr1 ++ requests tr2.
Proof. apply omap_app. Qed.

Lemma requests_execute c (os : list output_id) : requests (Execute c <$> os) = [].
Proof. by induction os. Qed.

(** A step keeps every session coherent, and the table. *)
Lemma proc_step_coherent df p a p' :
  proc_coherent df p → proc_step p a p' → proc_coherent df p'.
Proof.
  intros [<- Hp] Hstep.
  destruct Hstep as [p c Hc|p c Hc|p c msg|p c|p c o s Hc Ho];
    (split; [done|]); simpl; intros c' s'.
  - rewrite lookup_insert_Some. intros [[<- <-]|[_ Hs]]; [apply init_coherent|by eapply Hp].
  - apply Hp.
  - rewrite lookup_alter_Some.
    intros [(<- & s0 & Hs & ->)|[_ Hs]]; [apply write_all_coherent|]; by eapply Hp.
  - rewrite lookup_delete_Some. intros [_ Hs]. by eapply Hp.
  - rewrite lookup_insert_Some.
    intros [[<- <-]|[_ Hs]]; [apply run_output_coherent|]; by eapply Hp.
Qed.

Lemma proc_run_coherent df p tr p' :
  proc_coherent df p → proc_run p tr p' → proc_coherent df p'.
Proof. intros Hp Hr. induction Hr; eauto using proc_step_coherent. Qed.

Lemma proc_coherent_start df : proc_coherent df (Process df ∅).
Proof. split; [done|]. simpl. intros c s. by rewrite lookup_empty. Qed.

(** A step changes the inputs of a client as its own requests say. *)
Lemma proc_step_inputs p a p' c :
  proc_step p a p' →
  inputs <$> sessions p' !! c = store_action c a (inputs <$> sessions p !! c).
Proof.
  destruct 1 as [p c0 Hc|p c0 [s Hc]|p c0 msg|p c0|p c0 o s Hc Ho]; simpl.
  - case_decide as E; [subst; by rewrite lookup_insert_eq, Hc | by rewrite lookup_insert_ne].
  - case_decide as E; [subst; by rewrite Hc | done].
  - case_decide as E; [subst|by rewrite lookup_alter_ne].
    rewrite lookup_alter_eq. destruct (sessions p !! c) as [s|]; simpl; [|done].
    f_equal. exact (inputs_write_all (decode_all msg) s).
  - case_decide as E; [subst; by rewrite lookup_delete_eq | by rewrite lookup_delete_ne].
  - destruct (decide (c0 = c)) as [->|E]; [|by rewrite lookup_insert_ne].
    rewrite lookup_insert_eq, Hc. simpl. f_equal. apply inputs_run_output.
Qed.

Lemma proc_run_inputs p tr p' c :
  proc_run p tr p' →
  inputs <$> sessions p' !! c
  = foldl (λ e a, store_action c a e) (inputs <$> sessions p !! c) tr.
Proof.
  induction 1 as [|p a p1 tr p2 Hs Hr IH]; [done|].
  simpl. by rewrite IH, (proc_step_inputs p a p1).
Qed.

Lemma foldl_store_action c tr (env : option inputs_state) :
  foldl (λ e a, store_action c a e) env tr
  = foldl (λ e r, store_step r e) env (requests_of c (requests tr)).
Proof.
  revert env; induction tr as [|[r|c' o] tr IH]; intros env; simpl; [done| |apply IH].
  unfold requests_of. rewrite filter_cons. case_decide; simpl; apply IH.
Qed.

(** The executions of one session are steps of the process. *)
Lemma nsteps_proc_run df n s s' p c :
  penguins_df p = df → sessions p !! c = Some s →
  nsteps (run_step (server df)) n s s' →
  ∃ os, length os = n
    ∧ proc_run p (Execute c <$> os) (Process df (<[c := s']> (sessions p))).
Proof.
  intros Hdf Hc Hn. revert p Hdf Hc.
  induction Hn as [s|n s s1 s2 Hstep _ IH]; intros p <- Hc.
  { exists []. split; [done|]. rewrite insert_id by done. destruct p; constructor. }
  destruct Hstep as [o s Ho Hp].
  destruct (IH (Process (penguins_df p)
                  (<[c := run_output (server (penguins_df p)) o s]> (sessions p))))
    as (os & Hlen & Hrun); [done|by simpl; rewrite lookup_insert_eq|].
  exists (o :: os). split; [simpl; by rewrite Hlen|].
  simpl in *. rewrite insert_insert_eq in Hrun.
  econstructor; [by eapply step_execute|done].
Qed.

(** ** Figures, under interleaving

    The session of a client that keeps to the page leaves no figure
    behind, whatever the other clients send and however the executions
    are interleaved. *)

Lemma run_output_accounted df o s : accounted df s → accounted df (run_output (server df) o s).
Proof.
  intros (Hs & Hv & Hlog). split_and!; [engine_auto | by rewrite inputs_run_output|].
  rewrite log_run_output by done. apply Forall_app. split; [done|]. constructor; [|done].
  apply inputs_valid_iff in Hv as (_ & (z & Hz & _) & _).
  apply fresh_execution_accounted. by rewrite Hz.
Qed.

Lemma write_all_accounted df msg s :
  page_message msg → accounted df s → accounted df (write_all (decode_all msg) s).
Proof.
  intros Hmsg (Hs & Hv & Hlog). split_and!; [engine_auto| |by rewrite log_write_all].
  rewrite inputs_write_all. by apply store_all_valid.
Qed.

Lemma init_accounted df : accounted df (init initial_inputs).
Proof. split_and!; [apply init_coherent | apply initial_inputs_valid | constructor]. Qed.

Lemma proc_step_accounted df p a p' c :
  penguins_df p = df → page_action c a → proc_step p a p' →
  from_option (accounted df) True (sessions p !! c) →
  from_option (accounted df) True (sessions p' !! c).
Proof.
  intros <- Ha Hstep Hc.
  destruct Hstep as [p c0 Hn|p c0 Hn|p c0 msg|p c0|p c0 o s Hs Ho]; simpl in *; [|done|..];
    (destruct (decide (c0 = c)) as [->|Hne];
     [|by rewrite ?lookup_insert_ne, ?lookup_alter_ne, ?lookup_delete_ne by done]).
  - rewrite lookup_insert_eq. apply init_accounted.
  - rewrite lookup_alter_eq. destruct (sessions p !! c) as [s|]; simpl in *; [|done].
    apply write_all_accounted; auto.
  - by rewrite lookup_delete_eq.
  - rewrite lookup_insert_eq. rewrite Hs in Hc. by apply run_output_accounted.
Qed.

Lemma proc_step_penguins_df p a p' : proc_step p a p' → penguins_df p' = penguins_df p.
Proof. by destruct 1. Qed.

Lemma proc_run_accounted df p tr p' c :
  penguins_df p = df → Forall (page_action c) tr → proc_run p tr p' →
  from_option (accounted df) True (sessions p !! c) →
  from_option (accounted df) True (sessions p' !! c).
Proof.
  intros Hdf Htr Hrun. revert Hdf Htr.
  induction Hrun as [|p a p1 tr p2 Hstep Hrun IH]; intros Hdf Htr Hc; [done|].
  apply Forall_cons_1 in Htr as [Ha Htr].
  apply IH; [by rewrite (proc_step_penguins_df p a p1) | done|].
  by eapply proc_step_accounted.
Qed.

(** From the start: in every run in which the requests of client [c] are
    ones the page can cause, every execution of its session has returned
    the figures it opened. *)
Lemma page_client_accounted df tr p c s :
  proc_run (Process df ∅) tr p → Forall (page_action c) tr →
  sessions p !! c = Some s → Forall figures_accounted (log s).
Proof.
  intros Hrun Htr Hs.
  pose proof (proc_run_accounted df (Process df ∅) tr p c eq_refl Htr Hrun) as Hacc.
  rewrite Hs in Hacc. simpl in Hacc. rewrite lookup_empty in Hacc. by apply Hacc.
Qed.

End steps.

(** ** The service of [Process] is a run *)

Section service.
Implicit Types (p : process) (r : request) (rs : list request) (tr : list action)
  (c : nat) (s : app_session).

(** The flush of a session, as steps of the process. *)
Lemma flush_proc_run p c s :
  sessions p !! c = Some s →
  ∃ os, proc_run p (Execute c <$> os)
          (Process (penguins_df p) (<[c := flush (server (penguins_df p)) s]> (sessions p))).
Proof.
  intros Hc.
  destruct (rtc_nsteps_1 _ _ (flush_run_steps (server (penguins_df p)) s)) as [n Hn].
  destruct (nsteps_proc_run _ n s _ p c eq_refl Hc Hn) as (os & _ & Hrun). eauto.
Qed.

(** A request handled as a whole is the request followed by the
    executions of its flush. *)
Lemma handle_proc_run p r : ∃ tr, requests tr = [r] ∧ proc_run p tr (handle p r).
Proof.
  destruct r as [c|c msg|c]; simpl; [destruct (sessions p !! c) as [s|] eqn:Hc|..].
  - exists [Request (Connect c)]. split; [done|].
    econstructor; [apply step_connected; by rewrite Hc | constructor].
  - destruct (flush_proc_run
                (Process (penguins_df p) (<[c := init initial_inputs]> (sessions p)))
                c (init initial_inputs)) as (os & Hrun); [apply lookup_insert_eq|].
    exists (Request (Connect c) :: (Execute c <$> os)).
    split; [simpl; by rewrite requests_execute|].
    econstructor; [by apply step_connect|]. simpl in Hrun. by rewrite insert_insert_eq in Hrun.
  - destruct (sessions p !! c) as [s|] eqn:Hc.
    + destruct (flush_proc_run
                  (Process (penguins_df p)
                     (alter (write_all (decode_all msg)) c (sessions p)))
                  c (write_all (decode_all msg) s)) as (os & Hrun).
      { simpl. by rewrite lookup_alter_eq, Hc. }
      exists (Request (Message c msg) :: (Execute c <$> os)).
      split; [simpl; by rewrite requests_execute|].
      econstructor; [apply step_message|]. simpl in Hrun.
      rewrite insert_alter_eq in Hrun.
      rewrite (alter_lookup_Some (handle_update (penguins_df p) msg) _ _ s Hc).
      exact Hrun.
    + exists [Request (Message c msg)]. split; [done|].
      econstructor; [apply step_message|].
      rewrite !alter_lookup_None by done. constructor.
  - exists [Request (Disconnect c)]. split; [done|].
    econstructor; [apply step_disconnect | constructor].
Qed.

(** So the service of the requests is one of the runs with these
    requests. *)
Lemma serve_proc_run p rs : ∃ tr, requests tr = rs ∧ proc_run p tr (serve p rs).
Proof.
  revert p; induction rs as [|r rs IH]; intros p; [exists []; split; [done|constructor]|].
  destruct (handle_proc_run p r) as (tr1 & Hr1 & Hrun1).
  destruct (IH (handle p r)) as (tr2 & Hr2 & Hrun2).
  exists (tr1 ++ tr2). split; [by rewrite requests_app, Hr1, Hr2 | by eapply proc_run_app].
Qed.

(** C22. The request-by-request service of [Process] refines the
    step-by-step process: for every process [p] and requests [rs] there
    is a run of [proc_step] whose requests are [rs], in their order, and
    that ends in [serve p rs]; [exec_actions] computes it.  So what holds
    of every run holds of the service. *)
Theorem service_is_a_run p rs :
  ∃ tr, requests tr = rs
    ∧ proc_run p tr (serve p rs)
    ∧ exec_actions p tr = Some (serve p rs).
Proof.
  destruct (serve_proc_run p rs) as (tr & Hrs & Hrun).
  exists tr. by rewrite exec_actions_run.
Qed.

End service.

(** ** The interleaving cannot be observed *)

Section dashboard.
Context (df : dataframe).
Implicit Types (p : process) (tr : list action) (c : nat) (s : app_session)
  (o : output_id).

(** In every run the inputs of a client are the store its own requests
    have produced. *)
Lemma proc_run_store tr p c :
  proc_run (Process df ∅) tr p →
  inputs <$> sessions p !! c = store_of (requests_of c (requests tr)).
Proof.
  intros Hrun. by rewrite (proc_run_inputs _ _ _ c Hrun), foldl_store_action.
Qed.

(** C21. The interleaving of the clients' requests with the executions of
    their outputs cannot be observed.  In every run of the process, in
    which requests of any client may arrive while outputs of any session
    are still pending, an output that is not pending shows the
    dashboard's value for its client: nothing displayed as current is
    stale.  And every client can be brought up to date: executing its
    pending outputs, as many steps as it has pending, leaves each of its
    placeholders showing the dashboard's value. *)
Theorem interleaving_unobservable tr p c s o :
  proc_run (Process df ∅) tr p → sessions p !! c = Some s →
  (¬ pending s o → shown s !! o = dashboard df (requests tr) c o)
  ∧ ∃ os p', length os = backlog (server df) s
      ∧ proc_run p (Execute c <$> os) p'
      ∧ ∀ o', sessions p' !! c ≫= (λ s', shown s' !! o')
              = dashboard df (requests tr) c o'.
Proof.
  intros Hrun Hs. pose proof (proc_run_store tr p c Hrun) as Hst. rewrite Hs in Hst.
  destruct (proc_run_coherent df _ _ _ (proc_coherent_start df) Hrun) as [Hdf Hcoh].
  pose proof (Hcoh c s Hs) as Hc.
  assert (∀ o, dashboard df (requests tr) c o = Some (render df (inputs s) o)) as Hd.
  { intros o'. unfold dashboard. by rewrite <- Hst. }
  split.
  - intros Hp. by rewrite Hd, (not_pending_shown (server df)), eval_out_server.
  - destruct (schedule_completes (server df) s s Hc (rtc_refl _ _)) as (s' & Hn & Hq & He).
    destruct (nsteps_proc_run df _ s s' p c Hdf Hs Hn) as (os & Hlen & Hr).
    eexists os, _. split_and!; [done|exact Hr|]. intros o'. simpl.
    rewrite lookup_insert_eq. simpl.
    by rewrite Hd, (eq_shown _ _ He), flush_shown, eval_out_server by engine_auto.
Qed.

End dashboard.

(** ** The theorem at a concrete run *)

Lemma demo_actions_run : proc_run (Process sample_df ∅) demo_actions demo_interleaved.
Proof. apply exec_actions_run. by vm_compute. Qed.

Lemma interleaving_unobservable_witness :
  (¬ pending demo_second_client out_data_grid →
   shown demo_second_client !! out_data_grid
   = dashboard sample_df (requests demo_actions) 2 out_data_grid)
  ∧ ∃ os p', length os = backlog (server sample_df) demo_second_client
      ∧ proc_run demo_interleaved (Execute 2 <$> os) p'
      ∧ ∀ o', sessions p' !! 2 ≫= (λ s', shown s' !! o')
              = dashboard sample_df (requests demo_actions) 2 o'.
Proof.
  apply (interleaving_unobservable sample_df demo_actions demo_interleaved 2);
    [apply demo_actions_run | by vm_compute].
Defined.

(** The run: the first client has had three of its outputs executed and
    then emptied its bin count, which made the plotly histogram pending
    again; the second has two outputs executed since it selected Gentoo. *)
Example demo_interleaved_runs :
  (backlog (server sample_df) <$> sessions demo_interleaved !! 1) = Some 3
  ∧ (backlog (server sample_df) <$> sessions demo_interleaved !! 2) = Some 3
  ∧ (sessions demo_interleaved !! 2 ≫= λ s, shown s !! out_data_grid)
    = Some (Ok (ATable (filtered ["Gentoo"] sample_df)))
  ∧ (sessions demo_interleaved !! 2 ≫= λ s, shown s !! out_data_table) = None
  ∧ dashboard sample_df (requests demo_actions) 2 out_data_table
    = Some (Ok (ATable (filtered ["Gentoo"] sample_df))).
Proof. by vm_compute. Qed.
